(** * Q-Mag-Deep: the time-series store, the multi-source fetcher and the
      breakout screener, embedded from [database.py], [data_fetcher.py] and
      [screening_optimized.py].

    Numbers are IEEE binary64 values (pandas' float64), strings are
    [String.string], SQLite tables and Python dicts are finite maps, and a
    DataFrame is an object in a heap, because [update_ticker_data] writes
    into the frame it is handed. *)

From Stdlib Require Import ZArith Lia List Ascii String Floats Sorted.
From stdpp Require Import gmap strings list fin_maps.

Local Open Scope Z_scope.

(** ** Exceptions and fallible results *)

Inductive exn : Type :=
  | KeyError (key : string)
  | ValueError (msg : string)
  | UnboundLocalError (var : string)
  | IndexError (msg : string)
  | NullReference.

Inductive outcome (A : Type) : Type :=
  | Ok (a : A)
  | Raise (e : exn).
Arguments Ok {A} a.
Arguments Raise {A} e.

#[global] Instance outcome_ret : MRet outcome := fun A a => Ok a.
#[global] Instance outcome_bind : MBind outcome := fun A B k m =>
  match m with
  | Ok a => k a
  | Raise e => Raise e
  end.

(** [str(e)]: what the handlers of the source put into their log lines.
    A [KeyError] prints the repr of its key. *)
Definition str_exn (e : exn) : string :=
  match e with
  | KeyError k => "'" +:+ k +:+ "'"
  | ValueError m => m
  | UnboundLocalError v =>
      "cannot access local variable '" +:+ v
      +:+ "' where it is not associated with a value"
  | IndexError m => m
  | NullReference => "null reference"
  end.

(** ** float64 *)

Module F64.
Definition nan : float := PrimFloat.nan.
Definition notna (x : float) : bool := negb (PrimFloat.is_nan x).
(** A Python int that is a window length or a span, as a float. *)
Definition of_Z (z : Z) : float := PrimFloat.of_uint63 (Uint63.of_Z z).
Definition le (a b : float) : bool := PrimFloat.leb a b.
Definition lt (a b : float) : bool := PrimFloat.ltb a b.
Definition ge (a b : float) : bool := PrimFloat.leb b a.
Definition gt (a b : float) : bool := PrimFloat.ltb b a.
Definition eq (a b : float) : bool := PrimFloat.eqb a b.
(** The larger of two observations, as the running maximum of a window
    keeps it. *)
Definition max (a b : float) : float := if PrimFloat.ltb a b then b else a.
Definition min (a b : float) : float := if PrimFloat.ltb b a then b else a.
End F64.

(** ** pandas Series over one shared index: positional lists of float64 *)

Abbreviation Series := (list float) (only parsing).

Module Pd.

Definition window_error : exn :=
  ValueError "window must be an integer 0 or greater".

(** [s.shift(n)]: values move [n] places down (up when [n] is negative),
    the vacated places hold NaN, the length is kept. *)
Definition shift (n : Z) (s : Series) : Series :=
  if 0 <=? n
  then take (length s) (replicate (Z.to_nat n) F64.nan ++ s)
  else drop (Z.to_nat (- n)) s
       ++ replicate (Nat.min (Z.to_nat (- n)) (length s)) F64.nan.

(** The [w] observations that end at position [i]; none while fewer than
    [w] rows have been seen. *)
Definition window (w i : nat) (s : Series) : option (list float) :=
  if (w <=? S i)%nat then Some (take w (drop (S i - w) s)) else None.

(** [s.rolling(w).agg()] with the default [min_periods = w]: a position
    has a value only when its window is full and free of NaN; a window of
    length 0 never has one. *)
Definition rolling_nat (agg : list float → float) (w : nat) (s : Series)
  : Series :=
  map (fun i =>
         match window w i s with
         | Some vs =>
             if (0 <? w)%nat && forallb F64.notna vs then agg vs else F64.nan
         | None => F64.nan
         end)
      (seq 0 (length s)).

(** [s.rolling(w)] validates its window before any aggregation runs. *)
Definition rolling (agg : list float → float) (w : Z) (s : Series)
  : outcome Series :=
  if w <? 0 then Raise window_error
  else Ok (rolling_nat agg (Z.to_nat w) s).

Definition agg_max (vs : list float) : float :=
  match vs with
  | [] => F64.nan
  | x :: r => fold_left F64.max r x
  end.

Definition agg_min (vs : list float) : float :=
  match vs with
  | [] => F64.nan
  | x :: r => fold_left F64.min r x
  end.

(** The mean of one window, summed from its oldest value on. pandas
    carries one compensated sum from window to window, so its mean can
    differ from this one in the last bits. *)
Definition agg_mean (vs : list float) : float :=
  PrimFloat.div (fold_left PrimFloat.add vs 0%float)
                (F64.of_Z (Z.of_nat (length vs))).

(** [s.ewm(span=span, adjust=False).mean()], pandas' recursion with
    [ignore_na=False] and [min_periods=0]: the state is the running
    weighted mean, the weight of the past and the number of observations
    seen. *)
Record ewm_state := { weighted : float; old_wt : float; nobs : nat }.

Definition ewm_step (alpha : float) (st : ewm_state) (cur : float)
  : ewm_state :=
  let is_observation := F64.notna cur in
  let nobs' := if is_observation then S (nobs st) else nobs st in
  if F64.notna (weighted st) then
    let old_wt1 := PrimFloat.mul (old_wt st) (PrimFloat.sub 1 alpha) in
    if is_observation then
      let weighted' :=
        if negb (F64.eq (weighted st) cur)
        then PrimFloat.div
               (PrimFloat.add (PrimFloat.mul old_wt1 (weighted st))
                              (PrimFloat.mul alpha cur))
               (PrimFloat.add old_wt1 alpha)
        else weighted st in
      {| weighted := weighted'; old_wt := 1; nobs := nobs' |}
    else {| weighted := weighted st; old_wt := old_wt1; nobs := nobs' |}
  else if is_observation
       then {| weighted := cur; old_wt := old_wt st; nobs := nobs' |}
       else {| weighted := weighted st; old_wt := old_wt st; nobs := nobs' |}.

Definition ewm_out (st : ewm_state) : float :=
  if (1 <=? nobs st)%nat then weighted st else F64.nan.

Fixpoint ewm_loop (alpha : float) (st : ewm_state) (vals : list float)
  : list float :=
  match vals with
  | [] => []
  | cur :: rest =>
      let st' := ewm_step alpha st cur in
      ewm_out st' :: ewm_loop alpha st' rest
  end.

Definition ewm_mean (span : Z) (vals : Series) : Series :=
  let com := PrimFloat.div (PrimFloat.sub (F64.of_Z span) 1) 2 in
  let alpha := PrimFloat.div 1 (PrimFloat.add 1 com) in
  match vals with
  | [] => []
  | x0 :: rest =>
      let st0 := {| weighted := x0; old_wt := 1;
                    nobs := if F64.notna x0 then 1 else 0 |} in
      ewm_out st0 :: ewm_loop alpha st0 rest
  end.

(** Element-wise arithmetic and comparisons of Series on one index, and
    of a Series with a scalar. *)
Definition sub (a b : Series) : Series := zip_with PrimFloat.sub a b.
Definition div (a b : Series) : Series := zip_with PrimFloat.div a b.
Definition sub_scalar (a : Series) (c : float) : Series :=
  map (fun x => PrimFloat.sub x c) a.
Definition mul_scalar (a : Series) (c : float) : Series :=
  map (fun x => PrimFloat.mul x c) a.
Definition lt (a b : Series) : list bool := zip_with F64.lt a b.
Definition gt (a b : Series) : list bool := zip_with F64.gt a b.
Definition le (a b : Series) : list bool := zip_with F64.le a b.
Definition ge_scalar (a : Series) (c : float) : list bool :=
  map (fun x => F64.ge x c) a.
Definition le_scalar (a : Series) (c : float) : list bool :=
  map (fun x => F64.le x c) a.
Definition band (a b : list bool) : list bool := zip_with andb a b.
Definition any (m : list bool) : bool := existsb id m.

(** [x[mask]]: the positions at which a boolean Series is true. *)
Definition positions (m : list bool) : list nat :=
  filter (fun i => nth i m false = true) (seq 0 (length m)).

(** The value at a position; NaN past the end. *)
Definition at_ (s : Series) (i : nat) : float := nth i s F64.nan.

End Pd.

(** ** datetime, [strftime('%Y-%m-%d')] and [strptime(_, '%Y-%m-%d')] *)

Record datetime := {
  year : Z;
  month : Z;
  day : Z;
  time_of_day : Z  (* what lies after midnight; never written by strftime *)
}.

Module Dt.

Definition is_leap (y : Z) : bool :=
  ((y mod 4 =? 0) && negb (y mod 100 =? 0)) || (y mod 400 =? 0).

Definition days_in_month (y m : Z) : Z :=
  match m with
  | 1 | 3 | 5 | 7 | 8 | 10 | 12 => 31
  | 4 | 6 | 9 | 11 => 30
  | 2 => if is_leap y then 29 else 28
  | _ => 0
  end.

(** The calendar dates a [datetime] can hold (MINYEAR = 1, MAXYEAR = 9999). *)
Definition valid_date (y m d : Z) : bool :=
  (1 <=? y) && (y <=? 9999) && (1 <=? m) && (m <=? 12)
  && (1 <=? d) && (d <=? days_in_month y m).

Definition valid (t : datetime) : Prop :=
  valid_date (year t) (month t) (day t) = true.

(** The calendar day of a timestamp, at midnight. *)
Definition date (t : datetime) : datetime :=
  {| year := year t; month := month t; day := day t; time_of_day := 0 |}.

Definition digit (n : Z) : ascii := ascii_of_nat (48 + Z.to_nat n).

Definition digit_val (c : ascii) : option Z :=
  let n := Z.of_nat (nat_of_ascii c) in
  if (48 <=? n) && (n <=? 57) then Some (n - 48) else None.

Definition fmt2 (n : Z) : list ascii :=
  [digit (n / 10 mod 10); digit (n mod 10)].

Definition fmt4 (n : Z) : list ascii :=
  [digit (n / 1000 mod 10); digit (n / 100 mod 10);
   digit (n / 10 mod 10); digit (n mod 10)].

Definition dash : ascii := "-"%char.

(** [strftime('%Y-%m-%d')] as every platform writes the dates of the years
    1000 to 9999: ten characters. Earlier years, which not every platform
    pads to four digits, and labels that are no dates ([NaT], on which
    pandas raises) lie outside what this function describes: what an
    update stores is stated for labels that are [Notions.dated]. *)
Definition strftime (t : datetime) : string :=
  string_of_list_ascii
    (fmt4 (year t) ++ dash :: fmt2 (month t) ++ dash :: fmt2 (day t)).

(** [%Y]: exactly four digits. *)
Definition parse_Y (s : list ascii) : option (Z * list ascii) :=
  match s with
  | c1 :: c2 :: c3 :: c4 :: r =>
      match digit_val c1, digit_val c2, digit_val c3, digit_val c4 with
      | Some a, Some b, Some c, Some d =>
          Some (1000 * a + 100 * b + 10 * c + d, r)
      | _, _, _, _ => None
      end
  | _ => None
  end.

(** The digit after the first character, when there is one. *)
Definition second_digit (r1 : list ascii) : option (Z * list ascii) :=
  match r1 with
  | c2 :: r2 =>
      match digit_val c2 with
      | Some b => Some (b, r2)
      | None => None
      end
  | [] => None
  end.

(** [%m]: [1[0-2]|0[1-9]|[1-9]], the alternatives tried in this order. *)
Definition parse_m (s : list ascii) : option (Z * list ascii) :=
  match s with
  | [] => None
  | c1 :: r1 =>
      match digit_val c1 with
      | None => None
      | Some a =>
          let two :=
            match second_digit r1 with
            | Some (b, r2) =>
                if (a =? 1) && (b <=? 2) then Some (10 + b, r2)
                else if (a =? 0) && (1 <=? b) then Some (b, r2)
                else None
            | None => None
            end in
          match two with
          | Some res => Some res
          | None => if 1 <=? a then Some (a, r1) else None
          end
      end
  end.

(** [%d]: [3[0-1]|[1-2]\d|0[1-9]|[1-9]| [1-9]]. *)
Definition parse_d (s : list ascii) : option (Z * list ascii) :=
  match s with
  | [] => None
  | c1 :: r1 =>
      match digit_val c1 with
      | Some a =>
          let two :=
            match second_digit r1 with
            | Some (b, r2) =>
                if (a =? 3) && (b <=? 1) then Some (30 + b, r2)
                else if ((a =? 1) || (a =? 2)) then Some (10 * a + b, r2)
                else if (a =? 0) && (1 <=? b) then Some (b, r2)
                else None
            | None => None
            end in
          match two with
          | Some res => Some res
          | None => if 1 <=? a then Some (a, r1) else None
          end
      | None =>
          if Ascii.eqb c1 " "%char then
            match second_digit r1 with
            | Some (b, r2) => if 1 <=? b then Some (b, r2) else None
            | None => None
            end
          else None
      end
  end.

Definition format_error : exn :=
  ValueError "time data does not match format '%Y-%m-%d'".

Definition strptime (s : string) : outcome datetime :=
  match parse_Y (list_ascii_of_string s) with
  | Some (y, c :: r1) =>
      if Ascii.eqb c dash then
        match parse_m r1 with
        | Some (m, c' :: r2) =>
            if Ascii.eqb c' dash then
              match parse_d r2 with
              | Some (d, []) =>
                  if valid_date y m d
                  then Ok {| year := y; month := m; day := d;
                             time_of_day := 0 |}
                  else Raise format_error
              | _ => Raise format_error
              end
            else Raise format_error
        | _ => Raise format_error
        end
      else Raise format_error
  | _ => Raise format_error
  end.
End Dt.

(** ** DataFrame objects and the heap they live in *)

Record DataFrame := {
  index : list datetime;
  columns : gmap string Series
}.

Abbreviation ref := nat (only parsing).
Abbreviation heap := (gmap nat DataFrame) (only parsing).

Module Df.
(** [len(df)] *)
Definition len (df : DataFrame) : Z := Z.of_nat (length (index df)).

(** [df.empty]: one of the two axes has length 0. *)
Definition empty (df : DataFrame) : bool :=
  match index df with
  | [] => true
  | _ :: _ => (size (columns df) =? 0)%nat
  end.

(** [df[name]] *)
Definition getitem (df : DataFrame) (name : string) : outcome Series :=
  match columns df !! name with
  | Some s => Ok s
  | None => Raise (KeyError name)
  end.

(** [df[name] = s] *)
Definition setitem (df : DataFrame) (name : string) (s : Series)
  : DataFrame :=
  {| index := index df; columns := <[name := s]> (columns df) |}.

(** [row[name]] for the row at position [i], as [iterrows] yields it. *)
Definition cell (df : DataFrame) (i : nat) (name : string) : outcome float :=
  s ← getitem df name; Ok (Pd.at_ s i).

(** Every column is as long as the index. *)
Definition wf (df : DataFrame) : Prop :=
  ∀ name s, columns df !! name = Some s → length s = length (index df).
End Df.

(** ** The store: [database.py] *)

(** A row of table [stocks] without its key columns [Date] and [Ticker]. *)
Record StockRow := {
  Open : float; High : float; Low : float; Close : float;
  Adj_Close : float; Volume : float;
  MA10 : float; EMA12 : float; EMA26 : float;
  MACD : float; MACD_Signal : float; MACD_Hist : float
}.

(** A row of table [metadata] without its key column [ticker]. *)
Record MetaRow := { last_updated : string; data_source : string }.

Module StockDatabase.

(** The object: the two tables behind [db_path], keyed by their primary
    keys, and the memo table that [lru_cache] hangs on
    [get_ticker_last_updated], most recently used entry first. *)
Record t := {
  stocks : gmap (string * string) StockRow;
  metadata : gmap string MetaRow;
  lru : list (string * option datetime)
}.

(** [_init_db] on a fresh file. *)
Definition init : t := {| stocks := ∅; metadata := ∅; lru := [] |}.

Definition maxsize : nat := 1000.

Fixpoint cache_find (ticker : string) (c : list (string * option datetime))
  : option (option datetime) :=
  match c with
  | [] => None
  | (k, v) :: r => if String.eqb k ticker then Some v else cache_find ticker r
  end.

Definition cache_drop (ticker : string) (c : list (string * option datetime))
  : list (string * option datetime) :=
  filter (fun e => String.eqb (fst e) ticker = false) c.

(** The body of [get_ticker_last_updated]: the SELECT on [metadata] and
    the parse of the stored text. *)
Definition select_last_updated (self : t) (ticker : string)
  : outcome (option datetime) :=
  match metadata self !! ticker with
  | Some row => d ← Dt.strptime (last_updated row); Ok (Some d)
  | None => Ok None
  end.

(** [get_ticker_last_updated] behind [@lru_cache(maxsize=1000)]: a hit
    returns the remembered value without reading the table; a miss runs
    the body and remembers what it returned ([None] included), evicting
    the least recently used entry when full; an exception is not
    remembered. *)
Definition get_ticker_last_updated (self : t) (ticker : string)
  : outcome (option datetime) * t :=
  match cache_find ticker (lru self) with
  | Some v =>
      (Ok v, {| stocks := stocks self; metadata := metadata self;
                lru := (ticker, v) :: cache_drop ticker (lru self) |})
  | None =>
      match select_last_updated self ticker with
      | Ok v =>
          (Ok v, {| stocks := stocks self; metadata := metadata self;
                    lru := take maxsize ((ticker, v) :: lru self) |})
      | Raise e => (Raise e, self)
      end
  end.

(** Lines 112-117, one statement each: the right-hand side is read from
    the frame, then the column is assigned. *)
Definition indicator_lines : list (DataFrame → outcome DataFrame) :=
  [ (fun df => c ← Df.getitem df "Close";
               Ok (Df.setitem df "MA10" (Pd.rolling_nat Pd.agg_mean 10 c)));
    (fun df => c ← Df.getitem df "Close";
               Ok (Df.setitem df "EMA12" (Pd.ewm_mean 12 c)));
    (fun df => c ← Df.getitem df "Close";
               Ok (Df.setitem df "EMA26" (Pd.ewm_mean 26 c)));
    (fun df => a ← Df.getitem df "EMA12"; b ← Df.getitem df "EMA26";
               Ok (Df.setitem df "MACD" (Pd.sub a b)));
    (fun df => m ← Df.getitem df "MACD";
               Ok (Df.setitem df "MACD_Signal" (Pd.ewm_mean 9 m)));
    (fun df => m ← Df.getitem df "MACD"; g ← Df.getitem df "MACD_Signal";
               Ok (Df.setitem df "MACD_Hist" (Pd.sub m g))) ].

(** Statements run in order on the one object; what was assigned before
    a statement raises stays assigned. *)
Fixpoint run_lines (ls : list (DataFrame → outcome DataFrame))
    (df : DataFrame) : option exn * DataFrame :=
  match ls with
  | [] => (None, df)
  | l :: rest =>
      match l df with
      | Ok df' => run_lines rest df'
      | Raise e => (Some e, df)
      end
  end.

(** The six columns those statements assign, from the closes they read. *)
Definition indicators_of (close : Series) : list (string * Series) :=
  let ema12 := Pd.ewm_mean 12 close in
  let ema26 := Pd.ewm_mean 26 close in
  let macd := Pd.sub ema12 ema26 in
  let signal := Pd.ewm_mean 9 macd in
  [("MA10", Pd.rolling_nat Pd.agg_mean 10 close);
   ("EMA12", ema12); ("EMA26", ema26); ("MACD", macd);
   ("MACD_Signal", signal); ("MACD_Hist", Pd.sub macd signal)].

Definition with_indicators (df : DataFrame) (close : Series) : DataFrame :=
  fold_left (fun d kv => Df.setitem d (fst kv) (snd kv))
            (indicators_of close) df.

(** One tuple of the list comprehension of lines 120-129. *)
Definition record_at (ticker : string) (df : DataFrame) (i : nat)
    (date : datetime) : outcome ((string * string) * StockRow) :=
  o ← Df.cell df i "Open"; h ← Df.cell df i "High";
  l ← Df.cell df i "Low"; c ← Df.cell df i "Close";
  a ← Df.cell df i "Adj Close"; v ← Df.cell df i "Volume";
  ma ← Df.cell df i "MA10"; e12 ← Df.cell df i "EMA12";
  e26 ← Df.cell df i "EMA26"; macd ← Df.cell df i "MACD";
  sg ← Df.cell df i "MACD_Signal"; hist ← Df.cell df i "MACD_Hist";
  Ok ((Dt.strftime date, ticker),
      {| Open := o; High := h; Low := l; Close := c; Adj_Close := a;
         Volume := v; MA10 := ma; EMA12 := e12; EMA26 := e26;
         MACD := macd; MACD_Signal := sg; MACD_Hist := hist |}).

Fixpoint records_from (ticker : string) (df : DataFrame) (i : nat)
    (dates : list datetime)
  : outcome (list ((string * string) * StockRow)) :=
  match dates with
  | [] => Ok []
  | d :: rest =>
      r ← record_at ticker df i d;
      rs ← records_from ticker df (S i) rest;
      Ok (r :: rs)
  end.

Definition records (ticker : string) (df : DataFrame)
  : outcome (list ((string * string) * StockRow)) :=
  records_from ticker df 0 (index df).

(** [INSERT OR REPLACE INTO stocks], once per record, in order. A row
    holds the cells as numbers: how SQLite lays them out (a NaN as NULL, a
    zero without its sign) is not kept apart. *)
Definition executemany (tbl : gmap (string * string) StockRow)
    (recs : list ((string * string) * StockRow))
  : gmap (string * string) StockRow :=
  fold_left (fun m r => <[fst r := snd r]> m) recs tbl.

(** [INSERT OR REPLACE INTO metadata VALUES (ticker, last_date, source)]. *)
Definition write_metadata (tbl : gmap string MetaRow)
    (ticker last_date source : string) : gmap string MetaRow :=
  <[ticker := {| last_updated := last_date; data_source := source |}]> tbl.

(** [update_ticker_data(ticker, data, data_source)], [data] being a
    reference to the caller's frame. The result is what the call returns
    or raises, the object after the call and the heap after the call. *)
Definition update_ticker_data (self : t) (h : heap) (ticker : string)
    (data : ref) (source : string) : outcome bool * t * heap :=
  match h !! data with
  | None => (Raise NullReference, self, h)
  | Some df =>
      if Df.empty df then (Ok false, self, h)
      else
        (* with self.lock, sqlite3.connect(self.db_path) as conn *)
        let '(err, df') := run_lines indicator_lines df in
        let h' := <[data := df']> h in
        match err with
        | Some e => (Raise e, self, h')
        | None =>
            match records ticker df' with
            | Raise e => (Raise e, self, h')
            | Ok recs =>
                match last (index df') with
                | None => (Raise (IndexError "index out of bounds"), self, h')
                | Some d =>
                    let stocks' := executemany (stocks self) recs in
                    let metadata' :=
                      write_metadata (metadata self) ticker
                                     (Dt.strftime d) source in
                    (Ok true,
                     {| stocks := stocks'; metadata := metadata';
                        lru := lru self |},
                     h')
                end
            end
        end
  end.

(** A Python dict with string keys, in insertion order: assigning to a
    key that is present replaces its value in place. *)
Fixpoint dict_set {V} (k : string) (v : V) (d : list (string * V))
  : list (string * V) :=
  match d with
  | [] => [(k, v)]
  | (k', v') :: r =>
      if String.eqb k' k then (k, v) :: r else (k', v') :: dict_set k v r
  end.

(** [ORDER BY Date] on the text column. *)
Fixpoint insert_by_date (r : string * StockRow)
    (rows : list (string * StockRow)) : list (string * StockRow) :=
  match rows with
  | [] => [r]
  | r' :: rest =>
      if String.leb (fst r) (fst r') then r :: r' :: rest
      else r' :: insert_by_date r rest
  end.

Definition order_by_date (rows : list (string * StockRow))
  : list (string * StockRow) :=
  fold_right insert_by_date [] rows.

(** The rows of [SELECT * FROM stocks WHERE Ticker = ? AND Date BETWEEN ?
    AND ? ORDER BY Date], each with its [Date] text. *)
Definition select_range (self : t) (ticker start_date end_date : string)
  : list (string * StockRow) :=
  order_by_date
    (omap (fun kv : (string * string) * StockRow =>
             let '((d, tk), row) := kv in
             if String.eqb tk ticker && String.leb start_date d
                && String.leb d end_date
             then Some (d, row) else None)
          (map_to_list (stocks self))).

(** What [parse_dates] makes of a stored date. *)
Definition NaT : datetime :=
  {| year := 0; month := 0; day := 0; time_of_day := 0 |}.

Definition parse_date (s : string) : datetime :=
  match Dt.strptime s with
  | Ok d => d
  | Raise _ => NaT
  end.

(** [pd.read_sql_query(..., parse_dates=['Date'], index_col='Date')]:
    the numeric columns of the selected rows, under the table's column
    names. *)
Definition read_sql_query (self : t) (ticker start_date end_date : string)
  : DataFrame :=
  let rows := select_range self ticker start_date end_date in
  let col (f : StockRow → float) : Series := map (fun r => f (snd r)) rows in
  {| index := map (fun r => parse_date (fst r)) rows;
     columns := list_to_map
       [("Open", col Open); ("High", col High); ("Low", col Low);
        ("Close", col Close); ("Adj_Close", col Adj_Close);
        ("Volume", col Volume); ("MA10", col MA10); ("EMA12", col EMA12);
        ("EMA26", col EMA26); ("MACD", col MACD);
        ("MACD_Signal", col MACD_Signal); ("MACD_Hist", col MACD_Hist)] |}.

(** [fetch_stock_data(tickers, start_date, end_date)] *)
Definition fetch_stock_data (self : t) (tickers : list string)
    (start_date end_date : string) : list (string * DataFrame) :=
  fold_left
    (fun result ticker =>
       let df := read_sql_query self ticker start_date end_date in
       if Df.empty df then result else dict_set ticker df result)
    tickers [].

End StockDatabase.

(** ** The fetcher: [data_fetcher.py] *)

(** The two providers, as the fetcher sees them: what a call made during
    attempt number [n] returns or raises. *)
Record Providers := {
  yf_download : string → option string → string → nat → outcome DataFrame;
  av_get_daily_adjusted : string → string → nat → outcome DataFrame
}.

Module DataFetcher.

Record t := {
  alpha_vantage_key : option string;
  source_stats : gmap string Z
}.

Definition source_priority : list string := ["yfinance"; "alpha_vantage"].

(** [__init__] *)
Definition init (key : option string) : t :=
  {| alpha_vantage_key := key;
     source_stats := list_to_map (map (fun s => (s, 0)) source_priority) |}.

(** Truth value of [self.alpha_vantage_key]. *)
Definition has_key (self : t) : option string :=
  match alpha_vantage_key self with
  | Some k => if String.eqb k "" then None else Some k
  | None => None
  end.

(** [data if not data.empty else None] *)
Definition non_empty (df : DataFrame) : option DataFrame :=
  if Df.empty df then None else Some df.

Definition _fetch_yfinance (net : Providers) (ticker : string)
    (start_date : option string) (end_date : string) (attempt : nat)
  : option DataFrame :=
  match yf_download net ticker start_date end_date attempt with
  | Ok data => non_empty data
  | Raise _ => None
  end.

Definition av_names : list (string * string) :=
  [("1. open", "Open"); ("2. high", "High"); ("3. low", "Low");
   ("4. close", "Close"); ("5. adjusted close", "Adj Close");
   ("6. volume", "Volume")].

Fixpoint av_name (names : list (string * string)) (k : string) : string :=
  match names with
  | [] => k
  | (old, new) :: rest => if String.eqb old k then new else av_name rest k
  end.

(** [data.rename(columns={...})] *)
Definition rename (df : DataFrame) : DataFrame :=
  {| index := index df;
     columns := list_to_map
                  (map (fun kv => (av_name av_names (fst kv), snd kv))
                       (map_to_list (columns df))) |}.

Definition _fetch_alpha_vantage (net : Providers) (self : t)
    (ticker : string) (attempt : nat) : option DataFrame :=
  match has_key self with
  | None => None
  | Some key =>
      match av_get_daily_adjusted net key ticker attempt with
      | Ok data => non_empty (rename data)
      | Raise _ => None
      end
  end.

(** The local variable [data] of [fetch_data]: unbound until the first
    assignment, and kept from one iteration to the next. *)
Inductive local :=
  | Unbound
  | Bound (v : option DataFrame).

Record frame_state := {
  stats : gmap string Z;   (* self.source_stats *)
  data : local;
  slept : list Z           (* the arguments of time.sleep so far *)
}.

Inductive ctl :=
  | Return (df : DataFrame) (source : string) (st : frame_state)
  | Continue (st : frame_state)
  | Throw (e : exn) (st : frame_state).

(** The [except Exception] handler: log, then [time.sleep(delay *
    (attempt + 1))], which itself raises on a negative length. *)
Definition handler (delay : Z) (attempt : nat) (st : frame_state) : ctl :=
  let d := delay * (Z.of_nat attempt + 1) in
  if d <? 0
  then Throw (ValueError "sleep length must be non-negative") st
  else Continue {| stats := stats st; data := data st;
                   slept := slept st ++ [d] |}.

(** One pass through the body of the inner [for] (lines 30-44). *)
Definition try_source (net : Providers) (self : t) (ticker : string)
    (start_date : option string) (end_date : string) (delay : Z)
    (attempt : nat) (source : string) (st : frame_state) : ctl :=
  let data1 :=
    if String.eqb source "yfinance"
    then Bound (_fetch_yfinance net ticker start_date end_date attempt)
    else match (if String.eqb source "alpha_vantage"
                then has_key self else None) with
         | Some _ => Bound (_fetch_alpha_vantage net self ticker attempt)
         | None => data st
         end in
  let st1 := {| stats := stats st; data := data1; slept := slept st |} in
  match data1 with
  | Unbound => handler delay attempt st1   (* UnboundLocalError *)
  | Bound None => Continue st1
  | Bound (Some df) =>
      if Df.empty df then Continue st1
      else
        match stats st !! source with
        | Some n =>
            Return df source
              {| stats := <[source := n + 1]> (stats st); data := data1;
                 slept := slept st |}
        | None => handler delay attempt st1   (* KeyError *)
        end
  end.

Fixpoint sources_loop (net : Providers) (self : t) (ticker : string)
    (start_date : option string) (end_date : string) (delay : Z)
    (attempt : nat) (sources : list string) (st : frame_state) : ctl :=
  match sources with
  | [] => Continue st
  | source :: rest =>
      match try_source net self ticker start_date end_date delay
                       attempt source st with
      | Continue st' =>
          sources_loop net self ticker start_date end_date delay
                       attempt rest st'
      | r => r
      end
  end.

Fixpoint attempts_loop (net : Providers) (self : t) (ticker : string)
    (start_date : option string) (end_date : string) (delay : Z)
    (attempts : list nat) (st : frame_state) : ctl :=
  match attempts with
  | [] => Continue st
  | attempt :: rest =>
      match sources_loop net self ticker start_date end_date delay
                         attempt source_priority st with
      | Continue st' =>
          attempts_loop net self ticker start_date end_date delay rest st'
      | r => r
      end
  end.

Definition with_stats (self : t) (s : gmap string Z) : t :=
  {| alpha_vantage_key := alpha_vantage_key self; source_stats := s |}.

(** [fetch_data(ticker, start_date, end_date, retries, delay)]: what it
    returns or raises, the object afterwards, and the sleeps it made. *)
Definition fetch_data (net : Providers) (self : t) (ticker : string)
    (start_date : option string) (end_date : string)
    (retries : Z) (delay : Z)
  : outcome (option DataFrame * string) * t * list Z :=
  let st0 := {| stats := source_stats self; data := Unbound; slept := [] |} in
  match attempts_loop net self ticker start_date end_date delay
                      (seq 0 (Z.to_nat retries)) st0 with
  | Return df source st =>
      (Ok (Some df, source), with_stats self (stats st), slept st)
  | Continue st =>
      (Ok (None, "failed"), with_stats self (stats st), slept st)
  | Throw e st => (Raise e, with_stats self (stats st), slept st)
  end.

(** A provider answer that carries no data: an exception or an empty
    table. *)
Definition no_data (r : outcome DataFrame) : Prop :=
  match r with
  | Ok df => Df.empty df = true
  | Raise _ => True
  end.

(** [get_source_stats] *)
Definition get_source_stats (self : t) : gmap string Z := source_stats self.

End DataFetcher.

(** ** The screener: [screening_optimized.py] *)

Inductive level := WARNING | ERROR.
Abbreviation log_record := (level * string)%type (only parsing).

Module StockScreener.

(** One row of the frame that [_analyze_stock] builds. *)
Record ScreenResult := {
  Ticker : string;
  Date : datetime;
  Price : float;
  Prior_Rise_22 : float;
  Prior_Rise_67 : float;
  Consolidation_Range : float;
  ADR : float;
  Breakout : bool;
  Breakout_Volume : bool;
  Volume : float
}.

(** The Series that lines 84-93 leave in scope for the mask and the
    result. *)
Record signals := {
  close : Series;
  volume : Series;
  rise_22 : Series;
  rise_67 : Series;
  recent_high : Series;
  recent_low : Series;
  consolidation_range : Series;
  adr : Series;
  breakout : list bool;
  breakout_volume : list bool
}.

(** [(close / close.shift(n) - 1) * 100] *)
Definition rise (n : Z) (close : Series) : Series :=
  Pd.mul_scalar (Pd.sub_scalar (Pd.div close (Pd.shift n close)) 1) 100.

(** [(close > recent_high.shift(1)) & (close.shift(1) <= recent_high.shift(1))] *)
Definition breakout_of (close recent_high : Series) : list bool :=
  Pd.band (Pd.gt close (Pd.shift 1 recent_high))
          (Pd.le (Pd.shift 1 close) (Pd.shift 1 recent_high)).

(** Lines 78-93. *)
Definition compute_signals (data : DataFrame) (prior_days consol_days : Z)
  : outcome signals :=
  close ← Df.getitem data "Close";
  volume ← Df.getitem data "Volume";
  high ← Df.getitem data "High";
  low ← Df.getitem data "Low";
  let rise_22 := rise 22 close in
  let rise_67 := rise 67 close in
  recent_high ← Pd.rolling Pd.agg_max consol_days close;
  recent_low ← Pd.rolling Pd.agg_min consol_days close;
  let consolidation_range :=
    Pd.mul_scalar (Pd.sub_scalar (Pd.div recent_high recent_low) 1) 100 in
  vol_short ← Pd.rolling Pd.agg_mean consol_days volume;
  vol_long ← Pd.rolling Pd.agg_mean prior_days (Pd.shift consol_days volume);
  let vol_decline := Pd.lt vol_short vol_long in
  let daily_range := Pd.div (Pd.sub high low) (Pd.shift 1 close) in
  range_mean ← Pd.rolling Pd.agg_mean prior_days daily_range;
  let adr := Pd.mul_scalar range_mean 100 in
  let breakout := breakout_of close recent_high in
  vol_10 ← Pd.rolling Pd.agg_mean 10 volume;
  let breakout_volume := Pd.gt volume (Pd.mul_scalar vol_10 1.5) in
  Ok {| close := close; volume := volume;
        rise_22 := rise_22; rise_67 := rise_67;
        recent_high := recent_high; recent_low := recent_low;
        consolidation_range := consolidation_range; adr := adr;
        breakout := breakout; breakout_volume := breakout_volume |}.

(** Lines 96-101. *)
Definition mask_of (sg : signals)
    (min_rise_22 min_rise_67 max_range min_adr : float) : list bool :=
  Pd.band
    (Pd.band
       (Pd.band (Pd.ge_scalar (rise_22 sg) min_rise_22)
                (Pd.ge_scalar (rise_67 sg) min_rise_67))
       (Pd.le_scalar (consolidation_range sg) max_range))
    (Pd.ge_scalar (adr sg) min_adr).

(** The result row of a matched position (lines 108-119). *)
Definition row_at (ticker : string) (data : DataFrame) (sg : signals)
    (i : nat) : ScreenResult :=
  {| Ticker := ticker;
     Date := nth i (index data) StockDatabase.NaT;
     Price := Pd.at_ (close sg) i;
     Prior_Rise_22 := Pd.at_ (rise_22 sg) i;
     Prior_Rise_67 := Pd.at_ (rise_67 sg) i;
     Consolidation_Range := Pd.at_ (consolidation_range sg) i;
     ADR := Pd.at_ (adr sg) i;
     Breakout := nth i (breakout sg) false;
     Breakout_Volume := nth i (breakout_volume sg) false;
     Volume := Pd.at_ (volume sg) i |}.

(** Lines 103-121: nothing when no date matches, else one row per
    matched date. *)
Definition select_rows (ticker : string) (data : DataFrame) (sg : signals)
    (min_rise_22 min_rise_67 max_range min_adr : float)
  : option (list ScreenResult) :=
  let mask := mask_of sg min_rise_22 min_rise_67 max_range min_adr in
  if negb (Pd.any mask) then None
  else Some (map (row_at ticker data sg) (Pd.positions mask)).

(** The body of the [try] of [_analyze_stock], around the computation of
    the signals. *)
Definition analyze_body
    (signals_of : DataFrame → Z → Z → outcome signals)
    (ticker : string) (data : DataFrame) (prior_days consol_days : Z)
    (min_rise_22 min_rise_67 max_range min_adr : float)
  : outcome (option (list ScreenResult) * list log_record) :=
  if Df.len data <? prior_days + consol_days + 30
  then Ok (None, [(WARNING, "Insufficient data for " +:+ ticker)])
  else
    sg ← signals_of data prior_days consol_days;
    Ok (select_rows ticker data sg min_rise_22 min_rise_67 max_range min_adr,
        []).

(** The [except Exception] handler of [_analyze_stock]. *)
Definition analyze_handler (ticker : string)
    (r : outcome (option (list ScreenResult) * list log_record))
  : option (list ScreenResult) * list log_record :=
  match r with
  | Ok v => v
  | Raise e =>
      (None, [(ERROR, "Error analyzing " +:+ ticker +:+ ": " +:+ str_exn e)])
  end.

(** [_analyze_stock]: the frame of matches or [None], and what was
    logged. Every exception of the body ends in the handler. *)
Definition _analyze_stock (ticker : string) (data : DataFrame)
    (prior_days consol_days : Z)
    (min_rise_22 min_rise_67 max_range min_adr : float)
  : option (list ScreenResult) * list log_record :=
  analyze_handler ticker
    (analyze_body compute_signals ticker data prior_days consol_days
                  min_rise_22 min_rise_67 max_range min_adr).

(** Lines 78-93 with line 89, the [vol_decline] assignment, deleted. *)
Definition compute_signals_without_vol_decline (data : DataFrame)
    (prior_days consol_days : Z) : outcome signals :=
  close ← Df.getitem data "Close";
  volume ← Df.getitem data "Volume";
  high ← Df.getitem data "High";
  low ← Df.getitem data "Low";
  let rise_22 := rise 22 close in
  let rise_67 := rise 67 close in
  recent_high ← Pd.rolling Pd.agg_max consol_days close;
  recent_low ← Pd.rolling Pd.agg_min consol_days close;
  let consolidation_range :=
    Pd.mul_scalar (Pd.sub_scalar (Pd.div recent_high recent_low) 1) 100 in
  let daily_range := Pd.div (Pd.sub high low) (Pd.shift 1 close) in
  range_mean ← Pd.rolling Pd.agg_mean prior_days daily_range;
  let adr := Pd.mul_scalar range_mean 100 in
  let breakout := breakout_of close recent_high in
  vol_10 ← Pd.rolling Pd.agg_mean 10 volume;
  let breakout_volume := Pd.gt volume (Pd.mul_scalar vol_10 1.5) in
  Ok {| close := close; volume := volume;
        rise_22 := rise_22; rise_67 := rise_67;
        recent_high := recent_high; recent_low := recent_low;
        consolidation_range := consolidation_range; adr := adr;
        breakout := breakout; breakout_volume := breakout_volume |}.

(** [_analyze_stock] with that line deleted. *)
Definition _analyze_stock_without_vol_decline (ticker : string)
    (data : DataFrame) (prior_days consol_days : Z)
    (min_rise_22 min_rise_67 max_range min_adr : float)
  : option (list ScreenResult) * list log_record :=
  analyze_handler ticker
    (analyze_body compute_signals_without_vol_decline ticker data
                  prior_days consol_days
                  min_rise_22 min_rise_67 max_range min_adr).

(** The calendar day before [d]. *)
Definition prev_day (d : datetime) : datetime :=
  if 1 <? day d
  then {| year := year d; month := month d; day := day d - 1;
          time_of_day := time_of_day d |}
  else if 1 <? month d
  then {| year := year d; month := month d - 1;
          day := Dt.days_in_month (year d) (month d - 1);
          time_of_day := time_of_day d |}
  else {| year := year d - 1; month := 12; day := 31;
          time_of_day := time_of_day d |}.

(** [now - pd.Timedelta(days=n)] *)
Definition minus_days (n : nat) (now : datetime) : datetime :=
  Nat.iter n prev_day now.

(** [screen_stocks], run at clock reading [now] on the store [db]. The
    jobs handed to the pool share nothing and their results are read in
    submission order, so the pool is a map over the fetched dict. *)
Definition screen_stocks (db : StockDatabase.t) (now : datetime)
    (tickers : list string) (prior_days consol_days : Z)
    (min_rise_22 min_rise_67 max_range min_adr : float)
  : list ScreenResult * list log_record :=
  let end_date := Dt.strftime now in
  let start_date := Dt.strftime (minus_days 180 now) in
  let stock_data :=
    StockDatabase.fetch_stock_data db tickers start_date end_date in
  let futures :=
    map (fun kv =>
           _analyze_stock (fst kv) (snd kv) prior_days consol_days
                          min_rise_22 min_rise_67 max_range min_adr)
        stock_data in
  let results := omap fst futures in
  (concat results, concat (map snd futures)).

End StockScreener.

(** ** Concurrent callers of [update_ticker_data] on one store object *)

Module Concurrent.

(** The arguments of one call. *)
Record call := { c_ticker : string; c_data : ref; c_source : string }.

(** Where a caller is inside [update_ticker_data]. *)
Inductive pc :=
  | AtEntry                        (* line 105: the emptiness test *)
  | AtLock                         (* line 108: waiting for self.lock *)
  | AtIndicators                   (* lines 112-129 and 138, lock held *)
  | AtInsert (recs : list ((string * string) * StockRow))
             (last_date : string)  (* inside executemany *)
  | AtMetadata (last_date : string)  (* lines 139-142 *)
  | AtExit (res : outcome bool)    (* leaving the with block *)
  | Finished (res : outcome bool).

Inductive event :=
  | Acquire
  | BarWrite (key : string * string)
  | MetaWrite (ticker : string)
  | Release.

(** The one store object that all callers share, with the lock that its
    [__init__] made (line 28), the heap, every caller's position, and the
    lock operations and table writes made so far, most recent first, each
    with the caller that made it. Writes reach the tables at once: nothing
    but the lock keeps callers apart. Callers on several objects are the
    subject of [Objects] below. *)
Record state := {
  db : StockDatabase.t;
  hp : heap;
  lock : option nat;
  pcs : list pc;
  events : list (nat * event)
}.

Definition initial (d : StockDatabase.t) (h : heap) (calls : list call)
  : state :=
  {| db := d; hp := h; lock := None;
     pcs := map (fun _ => AtEntry) calls; events := [] |}.

Definition set_pc (tid : nat) (p : pc) (s : state) : state :=
  {| db := db s; hp := hp s; lock := lock s;
     pcs := <[tid := p]> (pcs s); events := events s |}.

Definition with_stocks (d : StockDatabase.t)
    (tbl : gmap (string * string) StockRow) : StockDatabase.t :=
  {| StockDatabase.stocks := tbl;
     StockDatabase.metadata := StockDatabase.metadata d;
     StockDatabase.lru := StockDatabase.lru d |}.

Definition with_metadata (d : StockDatabase.t)
    (tbl : gmap string MetaRow) : StockDatabase.t :=
  {| StockDatabase.stocks := StockDatabase.stocks d;
     StockDatabase.metadata := tbl;
     StockDatabase.lru := StockDatabase.lru d |}.

(** One step of caller [tid], who runs the call [c] and stands at [p]. A
    caller that waits for a held lock, or has finished, does not move. *)
Definition thread_step (tid : nat) (c : call) (p : pc) (s : state) : state :=
  match p with
  | AtEntry =>
      match hp s !! c_data c with
      | None => set_pc tid (Finished (Raise NullReference)) s
      | Some df =>
          if Df.empty df then set_pc tid (Finished (Ok false)) s
          else set_pc tid AtLock s
      end
  | AtLock =>
      match lock s with
      | Some _ => s
      | None =>
          {| db := db s; hp := hp s; lock := Some tid;
             pcs := <[tid := AtIndicators]> (pcs s);
             events := (tid, Acquire) :: events s |}
      end
  | AtIndicators =>
      match hp s !! c_data c with
      | None => set_pc tid (AtExit (Raise NullReference)) s
      | Some df =>
          let '(err, df') :=
            StockDatabase.run_lines StockDatabase.indicator_lines df in
          let next :=
            match err with
            | Some e => AtExit (Raise e)
            | None =>
                match StockDatabase.records (c_ticker c) df' with
                | Raise e => AtExit (Raise e)
                | Ok recs =>
                    match last (index df') with
                    | None => AtExit (Raise (IndexError "index out of bounds"))
                    | Some d => AtInsert recs (Dt.strftime d)
                    end
                end
            end in
          {| db := db s; hp := <[c_data c := df']> (hp s); lock := lock s;
             pcs := <[tid := next]> (pcs s); events := events s |}
      end
  | AtInsert [] last_date => set_pc tid (AtMetadata last_date) s
  | AtInsert (r :: rest) last_date =>
      {| db := with_stocks (db s)
                 (<[fst r := snd r]> (StockDatabase.stocks (db s)));
         hp := hp s; lock := lock s;
         pcs := <[tid := AtInsert rest last_date]> (pcs s);
         events := (tid, BarWrite (fst r)) :: events s |}
  | AtMetadata last_date =>
      {| db := with_metadata (db s)
                 (StockDatabase.write_metadata
                    (StockDatabase.metadata (db s))
                    (c_ticker c) last_date (c_source c));
         hp := hp s; lock := lock s;
         pcs := <[tid := AtExit (Ok true)]> (pcs s);
         events := (tid, MetaWrite (c_ticker c)) :: events s |}
  | AtExit res =>
      {| db := db s; hp := hp s; lock := None;
         pcs := <[tid := Finished res]> (pcs s);
         events := (tid, Release) :: events s |}
  | Finished _ => s
  end.

(** The scheduler picks caller [tid]; an unknown [tid] changes nothing. *)
Definition step (calls : list call) (tid : nat) (s : state) : state :=
  match calls !! tid, pcs s !! tid with
  | Some c, Some p => thread_step tid c p s
  | _, _ => s
  end.

(** A schedule is the sequence of the scheduler's picks. *)
Definition run (calls : list call) (schedule : list nat) (s : state)
  : state :=
  fold_left (fun s tid => step calls tid s) schedule s.

(** The events of one caller lie next to each other. *)
Definition contiguous (tr : list (nat * event)) : Prop :=
  ∀ (i j k : nat) a c,
    (i ≤ j)%nat → (j ≤ k)%nat →
    tr !! i = Some a → tr !! k = Some c → fst a = fst c →
    ∃ b, tr !! j = Some b ∧ fst b = fst a.

(** A trace built event by event in which each new event is made either
    by the caller of the event before it or by a caller that has made no
    event yet. *)
Inductive serial : list (nat * event) → Prop :=
  | serial_nil : serial []
  | serial_same tid e e' tr :
      serial ((tid, e') :: tr) → serial ((tid, e) :: (tid, e') :: tr)
  | serial_new tid e tr :
      tid ∉ tr.*1 → serial tr → serial ((tid, e) :: tr).

(** Every table write and every release comes after an acquire of the
    same caller. *)
Definition under_lock (tr : list (nat * event)) : Prop :=
  ∀ (i : nat) tid e,
    tr !! i = Some (tid, e) → e ≠ Acquire →
    ∃ k, (i < k)%nat ∧ tr !! k = Some (tid, Acquire).

(** A caller is inside the critical section. *)
Definition in_section (p : pc) : bool :=
  match p with
  | AtIndicators | AtInsert _ _ | AtMetadata _ | AtExit _ => true
  | AtEntry | AtLock | Finished _ => false
  end.

(** What holds in every state that callers can reach. *)
Record inv (s : state) : Prop := {
  inv_excl : ∀ tid p,
    pcs s !! tid = Some p → in_section p = true → lock s = Some tid;
  inv_holder : ∀ tid,
    lock s = Some tid →
    (∃ p, pcs s !! tid = Some p ∧ in_section p = true)
    ∧ (∃ e rest, events s = (tid, e) :: rest)
    ∧ (tid, Acquire) ∈ events s;
  inv_fresh : ∀ tid p,
    pcs s !! tid = Some p → p = AtEntry ∨ p = AtLock →
    tid ∉ (events s).*1;
  inv_serial : serial (events s);
  inv_under : under_lock (events s)
}.

End Concurrent.

(** ** Callers on several store objects opened on one [db_path] *)

Module Objects.

(** A call together with the [StockDatabase] object it is made on. *)
Record call := { c_object : nat; c_call : Concurrent.call }.

(** The tables behind [db_path] and the heap are the same for all callers;
    every object has the lock that its own [__init__] made (line 28), and
    [locks] maps an object to the caller that holds its lock. Writes reach
    the tables at once, as in [Concurrent]: what SQLite does between two
    connections is not modelled. *)
Record state := {
  db : StockDatabase.t;
  hp : heap;
  locks : gmap nat nat;
  pcs : list Concurrent.pc;
  events : list (nat * Concurrent.event)
}.

Definition initial (d : StockDatabase.t) (h : heap) (calls : list call)
  : state :=
  {| db := d; hp := h; locks := ∅;
     pcs := map (fun _ => Concurrent.AtEntry) calls; events := [] |}.

(** The state as the callers of object [o] meet it: [self.lock] is the
    lock of [o]. *)
Definition view (o : nat) (s : state) : Concurrent.state :=
  {| Concurrent.db := db s; Concurrent.hp := hp s;
     Concurrent.lock := locks s !! o;
     Concurrent.pcs := pcs s; Concurrent.events := events s |}.

(** The state after a caller of object [o] has made a step that led to
    [s']. *)
Definition commit (o : nat) (s' : Concurrent.state) (s : state) : state :=
  {| db := Concurrent.db s'; hp := Concurrent.hp s';
     locks := match Concurrent.lock s' with
              | Some tid => <[o := tid]> (locks s)
              | None => delete o (locks s)
              end;
     pcs := Concurrent.pcs s'; events := Concurrent.events s' |}.

(** One step of caller [tid]: the step of [update_ticker_data] on the
    object of its call. *)
Definition step (calls : list call) (tid : nat) (s : state) : state :=
  match calls !! tid, pcs s !! tid with
  | Some c, Some p =>
      commit (c_object c)
        (Concurrent.thread_step tid (c_call c) p (view (c_object c) s)) s
  | _, _ => s
  end.

Definition run (calls : list call) (schedule : list nat) (s : state)
  : state :=
  fold_left (fun s tid => step calls tid s) schedule s.

(** Caller [tid] makes its call on object [o]. *)
Definition on (calls : list call) (o : nat) (tid : nat) : bool :=
  match calls !! tid with
  | Some c => Nat.eqb (c_object c) o
  | None => false
  end.

(** What concerns the lock of object [o] in a state: the lock of [o], the
    positions of the callers of [o], every other caller counting as one
    that has left, and the events of the callers of [o]. *)
Definition slice (calls : list call) (o : nat) (s : state)
  : Concurrent.state :=
  {| Concurrent.db := db s; Concurrent.hp := hp s;
     Concurrent.lock := locks s !! o;
     Concurrent.pcs :=
       imap (fun tid p =>
               if on calls o tid then p else Concurrent.Finished (Ok false))
            (pcs s);
     Concurrent.events :=
       List.filter (fun e => on calls o (fst e)) (events s) |}.

End Objects.

(** ** Vocabulary for statements about the store, the fetcher and the
       screener *)

Module Notions.

(** The columns [update_ticker_data] reads from the frame it is handed, in
    the order in which the tuple of lines 121-127 reads them. *)
Definition required_columns : list string :=
  ["Open"; "High"; "Low"; "Close"; "Adj Close"; "Volume"].

Definition has_col (df : DataFrame) (name : string) : bool :=
  match columns df !! name with
  | Some _ => true
  | None => false
  end.

(** The cells of a stored row, under the frame column each one was read
    from. *)
Definition row_cells (row : StockRow) : list (string * float) :=
  [("Open", Open row); ("High", High row); ("Low", Low row);
   ("Close", Close row); ("Adj Close", Adj_Close row);
   ("Volume", Volume row); ("MA10", MA10 row); ("EMA12", EMA12 row);
   ("EMA26", EMA26 row); ("MACD", MACD row);
   ("MACD_Signal", MACD_Signal row); ("MACD_Hist", MACD_Hist row)].

(** A memo table as [lru_cache] keeps it: one entry per key, and no more
    than [maxsize] entries. *)
Definition cache_ok (c : list (string * option datetime)) : Prop :=
  NoDup c.*1 ∧ (length c ≤ StockDatabase.maxsize)%nat.

(** The twelve columns a record is read from. *)
Definition stored_columns : list string :=
  required_columns ++ (StockDatabase.indicators_of []).*1.

(** A sequence of [update_ticker_data] calls, each given as (ticker,
    frame, source), run one after the other on a store and a heap. *)
Definition update_all (calls : list (string * nat * string))
    (st : StockDatabase.t * gmap nat DataFrame)
  : StockDatabase.t * gmap nat DataFrame :=
  fold_left
    (fun st call =>
       let r := StockDatabase.update_ticker_data
                  (fst st) (snd st) (fst (fst call)) (snd (fst call))
                  (snd call) in
       (snd (fst r), snd r))
    calls st.

(** Rows in the order of their [Date] text. *)
Definition by_date (a b : string * StockRow) : Prop :=
  String.leb (fst a) (fst b) = true.

(** A row of the screener's output meets the four thresholds. *)
Definition meets (min_rise_22 min_rise_67 max_range min_adr : float)
    (r : StockScreener.ScreenResult) : Prop :=
  F64.ge (StockScreener.Prior_Rise_22 r) min_rise_22 = true
  ∧ F64.ge (StockScreener.Prior_Rise_67 r) min_rise_67 = true
  ∧ F64.le (StockScreener.Consolidation_Range r) max_range = true
  ∧ F64.ge (StockScreener.ADR r) min_adr = true.

(** A label of the index that is a date, and that [strftime('%Y-%m-%d')]
    writes as ten characters on every platform: a calendar date, not
    [NaT], of a year from 1000 on. *)
Definition dated (d : datetime) : Prop := Dt.valid d ∧ 1000 ≤ year d.

(** Two cells hold the same number: they are equal as floats are compared,
    or neither is a number. SQLite keeps a NaN as NULL and does not keep
    the sign of a zero. *)
Definition same_number (x y : float) : Prop :=
  F64.eq x y = true ∨ (F64.notna x = false ∧ F64.notna y = false).

(** The WHERE clause of the range query, row by row. *)
Definition pick (ticker start_date end_date : string)
    (kv : (string * string) * StockRow) : option (string * StockRow) :=
  let '((d, tk), row) := kv in
  if String.eqb tk ticker && String.leb start_date d && String.leb d end_date
  then Some (d, row) else None.

(** The loop of [fetch_stock_data], entered with the dict [acc]. *)
Definition collect (db : StockDatabase.t) (start_date end_date : string)
    (acc : list (string * DataFrame)) (tickers : list string)
  : list (string * DataFrame) :=
  fold_left
    (fun result ticker =>
       let df := StockDatabase.read_sql_query db ticker start_date end_date in
       if Df.empty df then result
       else StockDatabase.dict_set ticker df result)
    tickers acc.

(** The dict holds exactly the non-empty query results of the tickers
    seen so far, one entry per ticker. *)
Definition holds (db : StockDatabase.t) (start_date end_date : string)
    (acc : list (string * DataFrame)) (seen : list string) : Prop :=
  NoDup acc.*1
  ∧ ∀ k df, (k, df) ∈ acc
            ↔ k ∈ seen
              ∧ df = StockDatabase.read_sql_query db k start_date end_date
              ∧ Df.empty df = false.

(** The arguments of a concurrent caller, as [update_all] takes them. *)
Definition args (c : Concurrent.call) : string * nat * string :=
  (Concurrent.c_ticker c, Concurrent.c_data c, Concurrent.c_source c).

(** Store and heap after the callers [order] have made their calls one
    after the other, each to its end before the next begins. *)
Definition one_by_one (calls : list Concurrent.call) (order : list nat)
    (st : StockDatabase.t * gmap nat DataFrame)
  : StockDatabase.t * gmap nat DataFrame :=
  update_all (omap (fun tid => args <$> calls !! tid) order) st.

(** What the call [c] returns or raises when it starts from [st]. *)
Definition result_from (c : Concurrent.call)
    (st : StockDatabase.t * gmap nat DataFrame) : outcome bool :=
  fst (fst (StockDatabase.update_ticker_data (fst st) (snd st)
              (Concurrent.c_ticker c) (Concurrent.c_data c)
              (Concurrent.c_source c))).

(** How far the holder of the lock, who runs [c] and stands at [p], has
    come since it found the store and the heap [st]. *)
Definition progress (c : Concurrent.call) (p : Concurrent.pc)
    (st : StockDatabase.t * gmap nat DataFrame) (s : Concurrent.state)
  : Prop :=
  ∃ df,
    snd st !! Concurrent.c_data c = Some df ∧ Df.empty df = false
    ∧ let r := StockDatabase.run_lines StockDatabase.indicator_lines df in
      match p with
      | Concurrent.AtIndicators =>
          Concurrent.db s = fst st ∧ Concurrent.hp s = snd st
      | Concurrent.AtInsert recs last_date =>
          fst r = None
          ∧ ∃ done dl,
              StockDatabase.records (Concurrent.c_ticker c) (snd r)
                = Ok (done ++ recs)
              ∧ last (index (snd r)) = Some dl
              ∧ last_date = Dt.strftime dl
              ∧ Concurrent.db s
                = Concurrent.with_stocks (fst st)
                    (StockDatabase.executemany
                       (StockDatabase.stocks (fst st)) done)
              ∧ Concurrent.hp s = <[Concurrent.c_data c := snd r]> (snd st)
      | Concurrent.AtMetadata last_date =>
          fst r = None
          ∧ ∃ done dl,
              StockDatabase.records (Concurrent.c_ticker c) (snd r) = Ok done
              ∧ last (index (snd r)) = Some dl
              ∧ last_date = Dt.strftime dl
              ∧ Concurrent.db s
                = Concurrent.with_stocks (fst st)
                    (StockDatabase.executemany
                       (StockDatabase.stocks (fst st)) done)
              ∧ Concurrent.hp s = <[Concurrent.c_data c := snd r]> (snd st)
      | Concurrent.AtExit res =>
          Concurrent.hp s = <[Concurrent.c_data c := snd r]> (snd st)
          ∧ (res, Concurrent.db s, Concurrent.hp s)
            = StockDatabase.update_ticker_data (fst st) (snd st)
                (Concurrent.c_ticker c) (Concurrent.c_data c)
                (Concurrent.c_source c)
      | _ => False
      end.

(** One [fetch_data] call: the providers as they answer while it runs,
    and its arguments. *)
Record request := {
  r_net : Providers;
  r_ticker : string;
  r_start : option string;
  r_end : string;
  r_retries : Z;
  r_delay : Z
}.

(** [fetch_data] calls made one after the other on one fetcher: what each
    returned or raised, with the sleeps it made, and the fetcher
    afterwards. *)
Fixpoint fetch_all (reqs : list request) (self : DataFetcher.t)
  : list (outcome (option DataFrame * string) * list Z) * DataFetcher.t :=
  match reqs with
  | [] => ([], self)
  | r :: rest =>
      let call := DataFetcher.fetch_data (r_net r) self (r_ticker r)
                    (r_start r) (r_end r) (r_retries r) (r_delay r) in
      let later := fetch_all rest (snd (fst call)) in
      ((fst (fst call), snd call) :: fst later, snd later)
  end.

(** The call returned data under the label [source]. *)
Definition returned (source : string)
    (o : outcome (option DataFrame * string) * list Z) : bool :=
  match fst o with
  | Ok (Some _, label) => String.eqb label source
  | _ => false
  end.

Fixpoint count_source (source : string)
    (out : list (outcome (option DataFrame * string) * list Z)) : Z :=
  match out with
  | [] => 0
  | o :: rest =>
      (if returned source o then 1 else 0) + count_source source rest
  end.

(** Scheduled alone for some number of steps from [s], caller [tid]
    has returned or raised and the lock is free. *)
Definition finishes (calls : list Concurrent.call) (tid : nat)
    (s : Concurrent.state) : Prop :=
  ∃ (n : nat) res,
    Concurrent.lock (Concurrent.run calls (replicate n tid) s) = None
    ∧ Concurrent.pcs (Concurrent.run calls (replicate n tid) s)
      = <[tid := Concurrent.Finished res]> (Concurrent.pcs s).

(** Two heaps with the same frames missing and the same frames empty. *)
Definition alike (h1 h2 : gmap nat DataFrame) : Prop :=
  ∀ k, match h1 !! k, h2 !! k with
       | Some a, Some b => Df.empty a = Df.empty b
       | None, None => True
       | _, _ => False
       end.

(** The state [s] of concurrent callers seen as a sequential run: the
    callers [order] have returned or raised, in that order; store and heap
    are what their calls, made one by one from [d] and [h], leave, but for
    what the holder of the lock has done so far; and every caller that has
    finished got the result of its call in that sequence. *)
Record linearized (calls : list Concurrent.call) (d : StockDatabase.t)
    (h : gmap nat DataFrame) (s : Concurrent.state) (order : list nat)
  : Prop := {
  lin_len : length (Concurrent.pcs s) = length calls;
  lin_nodup : NoDup order;
  lin_mem : ∀ tid,
    tid ∈ order
    ↔ ∃ res, Concurrent.pcs s !! tid = Some (Concurrent.Finished res);
  lin_free :
    Concurrent.lock s = None →
    (Concurrent.db s, Concurrent.hp s) = one_by_one calls order (d, h);
  lin_held : ∀ tid,
    Concurrent.lock s = Some tid →
    ∃ c p, calls !! tid = Some c ∧ Concurrent.pcs s !! tid = Some p
           ∧ progress c p (one_by_one calls order (d, h)) s;
  lin_res : ∀ tid c res,
    calls !! tid = Some c →
    Concurrent.pcs s !! tid = Some (Concurrent.Finished res) →
    ∃ o1 o2, order = o1 ++ tid :: o2
             ∧ res = result_from c (one_by_one calls o1 (d, h));
  lin_wait : ∀ tid c,
    calls !! tid = Some c →
    Concurrent.pcs s !! tid = Some Concurrent.AtLock →
    ∃ df, Concurrent.hp s !! Concurrent.c_data c = Some df
          ∧ Df.empty df = false
}.

End Notions.

(** ** Sample data *)

Module Examples.

Definition day (y m d : Z) : datetime :=
  {| year := y; month := m; day := d; time_of_day := 0 |}.

(** Three daily bars, the last one dated 2024-01-05. *)
Definition bars : DataFrame :=
  {| index := [day 2024 1 3; day 2024 1 4; day 2024 1 5];
     columns := list_to_map
       [("Open", [10; 11; 12]%float); ("High", [12; 13; 14]%float);
        ("Low", [9; 10; 11]%float); ("Close", [11; 12; 13]%float);
        ("Adj Close", [11; 12; 13]%float);
        ("Volume", [1000; 1500; 900]%float)] |}.

(** The same bars after a first [update_ticker_data] has written its
    columns into them. *)
Definition bars_with_indicators : DataFrame :=
  StockDatabase.with_indicators bars [11; 12; 13]%float.

(** A frame without rows. *)
Definition no_bars : DataFrame :=
  {| index := [];
     columns := list_to_map
       [("Open", []); ("High", []); ("Low", []); ("Close", []);
        ("Adj Close", []); ("Volume", [])] |}.

(** A provider that is down, and one that answers with [bars]. *)
Definition net_down : Providers :=
  {| yf_download := fun _ _ _ _ => Raise (ValueError "connection refused");
     av_get_daily_adjusted := fun _ _ _ => Ok no_bars |}.

Definition net_up : Providers :=
  {| yf_download := fun _ _ _ _ => Ok bars;
     av_get_daily_adjusted := fun _ _ _ => Ok no_bars |}.

(** [n] daily bars that end on 2024-03-10 and double from one close to
    the next; every day ranges from half its close to its close. *)
Definition doubling (n : nat) : DataFrame :=
  let ks := seq 0 n in
  let close := map (fun k => Nat.iter k (PrimFloat.mul 2) 1%float) ks in
  {| index := map (fun k => StockScreener.minus_days (n - 1 - k)
                              (day 2024 3 10)) ks;
     columns := list_to_map
       [("Open", close); ("High", close);
        ("Low", map (fun x => PrimFloat.div x 2) close);
        ("Close", close);
        ("Volume", map (fun _ => 1000%float) ks)] |}.

Definition no_signals : StockScreener.signals :=
  {| StockScreener.close := []; StockScreener.volume := [];
     StockScreener.rise_22 := []; StockScreener.rise_67 := [];
     StockScreener.recent_high := []; StockScreener.recent_low := [];
     StockScreener.consolidation_range := []; StockScreener.adr := [];
     StockScreener.breakout := []; StockScreener.breakout_volume := [] |}.

(** The signals of 70 doubling bars with [prior_days = 1] and
    [consol_days = 2]. *)
Definition doubling_signals : StockScreener.signals :=
  match StockScreener.compute_signals (doubling 70) 1 2 with
  | Ok sg => sg
  | Raise _ => no_signals
  end.

(** A store that holds [bars] for AAPL. *)
Definition store : StockDatabase.t :=
  snd (fst (StockDatabase.update_ticker_data
              StockDatabase.init {[ 0%nat := bars ]} "AAPL" 0%nat "yfinance")).

(** Two callers, one storing [bars] for AAPL and one for MSFT, and a
    schedule that lets them take turns. *)
Definition two_calls : list Concurrent.call :=
  [ {| Concurrent.c_ticker := "AAPL"; Concurrent.c_data := 0%nat;
       Concurrent.c_source := "yfinance" |};
    {| Concurrent.c_ticker := "MSFT"; Concurrent.c_data := 1%nat;
       Concurrent.c_source := "alpha_vantage" |} ].

Definition two_frames : gmap nat DataFrame :=
  {[ 0%nat := bars; 1%nat := bars ]}.

Definition turns : list nat :=
  [0; 1; 1; 0; 1; 0; 1; 0; 1; 0; 1; 0; 1; 0; 1; 0; 1; 0; 0; 0; 0; 0; 0;
   0; 0; 0; 1]%nat.

(** The rows that the screener finds in the 70 doubling bars. *)
Definition doubling_rows : list StockScreener.ScreenResult :=
  match fst (StockScreener._analyze_stock "X" (doubling 70) 1 2
               10 40 100 2) with
  | Some rows => rows
  | None => []
  end.

(** A store that holds the 70 doubling bars for X, and what a screening
    on 2024-03-10 finds in it. *)
Definition doubling_store : StockDatabase.t :=
  snd (fst (StockDatabase.update_ticker_data StockDatabase.init
              {[ 0%nat := Df.setitem (doubling 70) "Adj Close"
                            (map (fun k => Nat.iter k (PrimFloat.mul 2) 1%float)
                                 (seq 0 70)) ]}
              "X" 0%nat "yfinance")).

Definition screened : list StockScreener.ScreenResult :=
  fst (StockScreener.screen_stocks doubling_store (day 2024 3 10) ["X"]
         1 2 10 40 100 2).

(** Three bars under the column labels of Alpha Vantage. *)
Definition av_bars : DataFrame :=
  {| index := [day 2024 1 3; day 2024 1 4; day 2024 1 5];
     columns := list_to_map
       [("1. open", [10; 11; 12]%float); ("2. high", [12; 13; 14]%float);
        ("3. low", [9; 10; 11]%float); ("4. close", [11; 12; 13]%float);
        ("5. adjusted close", [11; 12; 13]%float);
        ("6. volume", [1000; 1500; 900]%float);
        ("7. dividend amount", [0; 0; 0]%float)] |}.

(** A provider that answers with [bars] on the first attempt only, and
    one whose second source answers with [av_bars]. *)
Definition net_once : Providers :=
  {| yf_download := fun _ _ _ attempt =>
       match attempt with
       | O => Ok bars
       | S _ => Raise (ValueError "connection refused")
       end;
     av_get_daily_adjusted := fun _ _ _ => Ok no_bars |}.

Definition net_second : Providers :=
  {| yf_download := fun _ _ _ _ => Raise (ValueError "connection refused");
     av_get_daily_adjusted := fun _ _ _ => Ok av_bars |}.

(** Two callers on two store objects of the same file, and a schedule that
    lets the first take the lock of its object and write a bar, and the
    second take the lock of its own object meanwhile. *)
Definition two_object_calls : list Objects.call :=
  [ {| Objects.c_object := 0%nat;
       Objects.c_call :=
         {| Concurrent.c_ticker := "AAPL"; Concurrent.c_data := 0%nat;
            Concurrent.c_source := "yfinance" |} |};
    {| Objects.c_object := 1%nat;
       Objects.c_call :=
         {| Concurrent.c_ticker := "MSFT"; Concurrent.c_data := 1%nat;
            Concurrent.c_source := "alpha_vantage" |} |} ].

Definition both_inside : list nat := [0; 0; 1; 1; 0; 0]%nat.

(** The same two calls, both made on object 0. *)
Definition one_object_calls : list Objects.call :=
  map (fun c => {| Objects.c_object := 0%nat; Objects.c_call := c |})
      two_calls.


End Examples.

(** * Properties *)

(** ** Order of float64 values, from the specification of the primitives *)

Section SpecFloatOrder.
Implicit Types x y z : spec_float.

Lemma SFcompare_total x y :
  x ≠ S754_nan → y ≠ S754_nan → ∃ c, SFcompare x y = Some c.
Proof. destruct x, y; simpl; intros Hx Hy; try congruence; eauto. Qed.

Lemma SFcompare_antisym x y c :
  SFcompare x y = Some c → SFcompare y x = Some (CompOpp c).
Proof.
  destruct x as [s|s| |s m e], y as [s'|s'| |s' m' e']; simpl;
    try congruence; try destruct s; try destruct s'; simpl;
    intros [= <-]; try reflexivity.
  all: change (PosDef.Pos.compare_cont Eq) with Pos.compare.
  all: rewrite (Z.compare_antisym e e'), (Pos.compare_antisym m m').
  all: destruct (e ?= e'); simpl; try reflexivity;
    destruct (m ?= m')%positive; reflexivity.
Qed.

Lemma SFleb_trans x y z :
  SFleb x y = true → SFleb y z = true → SFleb x z = true.
Proof.
  unfold SFleb.
  destruct x as [s|s| |s m e], y as [s'|s'| |s' m' e'],
           z as [s''|s''| |s'' m'' e''];
    simpl; try congruence;
    try destruct s; try destruct s'; try destruct s''; simpl;
    try congruence.
  all: change (PosDef.Pos.compare_cont Eq) with Pos.compare.
  all: destruct (Z.compare_spec e e'), (Z.compare_spec e' e''),
         (Z.compare_spec e e''); simpl; try congruence; try lia.
  all: destruct (Pos.compare_spec m m'), (Pos.compare_spec m' m''),
         (Pos.compare_spec m m''); simpl; try congruence; try lia.
Qed.
End SpecFloatOrder.

Module F64Facts.

Lemma notna_spec x : F64.notna x = true → Prim2SF x ≠ S754_nan.
Proof.
  unfold F64.notna, PrimFloat.is_nan. rewrite FloatAxioms.eqb_spec.
  intros H E. rewrite E in H. discriminate H.
Qed.

Lemma nan_isna : F64.notna F64.nan = false.
Proof. reflexivity. Qed.

Lemma le_refl x : F64.notna x = true → F64.le x x = true.
Proof.
  unfold F64.notna, F64.le, PrimFloat.is_nan.
  rewrite FloatAxioms.eqb_spec, leb_spec. unfold SFeqb, SFleb.
  destruct (SFcompare (Prim2SF x) (Prim2SF x)) as [[]|]; simpl; congruence.
Qed.

Lemma eq_le x m : F64.eq x m = true → F64.le x m = true.
Proof.
  unfold F64.eq, F64.le. rewrite FloatAxioms.eqb_spec, leb_spec.
  unfold SFeqb, SFleb.
  destruct (SFcompare (Prim2SF x) (Prim2SF m)) as [[]|]; simpl; congruence.
Qed.

Lemma eq_ge x m : F64.eq x m = true → F64.ge x m = true.
Proof.
unfold F64.eq, F64.ge. rewrite FloatAxioms.eqb_spec, leb_spec.
unfold SFeqb, SFleb.
destruct (SFcompare (Prim2SF x) (Prim2SF m)) as [c|] eqn:E; [|discriminate].
rewrite (SFcompare_antisym _ _ _ E). destruct c; simpl; congruence.
Qed.

Lemma lt_le a b : F64.lt a b = true → F64.le a b = true.
Proof.
  unfold F64.lt, F64.le. rewrite ltb_spec, leb_spec. unfold SFltb, SFleb.
  destruct (SFcompare (Prim2SF a) (Prim2SF b)) as [[]|]; simpl; congruence.
Qed.

Lemma lt_not_ge m x : F64.lt m x = true → F64.le x m = false.
Proof.
  unfold F64.lt, F64.le. rewrite ltb_spec, leb_spec. unfold SFltb, SFleb.
  destruct (SFcompare (Prim2SF m) (Prim2SF x)) as [c|] eqn:E;
    [|discriminate].
  rewrite (SFcompare_antisym _ _ _ E). destruct c; simpl; congruence.
Qed.

Lemma not_lt_ge a b :
  F64.notna a = true → F64.notna b = true →
  F64.lt a b = false → F64.le b a = true.
Proof.
  intros Ha%notna_spec Hb%notna_spec.
  unfold F64.lt, F64.le. rewrite ltb_spec, leb_spec. unfold SFltb, SFleb.
  destruct (SFcompare_total _ _ Ha Hb) as [c E]. rewrite E.
  rewrite (SFcompare_antisym _ _ _ E). destruct c; simpl; congruence.
Qed.

Lemma le_trans a b c :
  F64.le a b = true → F64.le b c = true → F64.le a c = true.
Proof. unfold F64.le. rewrite !leb_spec. apply SFleb_trans. Qed.

Lemma max_notna a b :
  F64.notna a = true → F64.notna b = true → F64.notna (F64.max a b) = true.
Proof. unfold F64.max. destruct (PrimFloat.ltb a b); auto. Qed.

Lemma le_max_l a b : F64.notna a = true → F64.le a (F64.max a b) = true.
Proof.
  intros Ha. unfold F64.max. destruct (PrimFloat.ltb a b) eqn:E.
  - by apply lt_le.
  - by apply le_refl.
Qed.

Lemma le_max_r a b :
  F64.notna a = true → F64.notna b = true → F64.le b (F64.max a b) = true.
Proof.
  intros Ha Hb. unfold F64.max. destruct (PrimFloat.ltb a b) eqn:E.
  - by apply le_refl.
  - by apply not_lt_ge.
Qed.

(** A comparison with NaN is false. *)
Lemma gt_nan c h : F64.notna h = false → F64.gt c h = false.
Proof.
  unfold F64.notna, F64.gt, PrimFloat.is_nan.
  rewrite FloatAxioms.eqb_spec, ltb_spec. unfold SFeqb, SFltb.
  destruct (Prim2SF h), (Prim2SF c); simpl; try congruence;
    repeat match goal with s : bool |- _ => destruct s end; simpl;
    try congruence.
  all: change (PosDef.Pos.compare_cont Eq) with Pos.compare.
  all: rewrite Z.compare_refl, Pos.compare_refl; simpl; congruence.
Qed.

End F64Facts.

(** ** Rolling windows *)

Module PdFacts.

Lemma map_fmap {A B} (f : A → B) (l : list A) : map f l = f <$> l.
Proof. induction l as [|a l IH]; [done|]. simpl. by rewrite IH. Qed.

Lemma shift_1_length (s : Series) : length (Pd.shift 1 s) = length s.
Proof.
  unfold Pd.shift. simpl. rewrite length_take. simpl. lia.
Qed.

Lemma shift_1_zero (s : Series) x :
  Pd.shift 1 s !! 0%nat = Some x → x = F64.nan.
Proof.
  unfold Pd.shift. simpl. destruct s; simpl; [done|]. by intros [= <-].
Qed.

Lemma shift_1_succ (s : Series) i x :
  Pd.shift 1 s !! S i = Some x → s !! i = Some x.
Proof.
  unfold Pd.shift. simpl. intros H.
  apply lookup_take_Some in H as [H _]. exact H.
Qed.

Lemma rolling_nat_length agg w (s : Series) :
  length (Pd.rolling_nat agg w s) = length s.
Proof. unfold Pd.rolling_nat. by rewrite length_map, length_seq. Qed.

(** A position that holds a value was computed from a full window without
    NaN. *)
Lemma rolling_nat_notna agg w (s : Series) i x :
  Pd.rolling_nat agg w s !! i = Some x → F64.notna x = true →
  ∃ vs, Pd.window w i s = Some vs ∧ (0 < w)%nat
        ∧ forallb F64.notna vs = true ∧ x = agg vs.
Proof.
  unfold Pd.rolling_nat. rewrite map_fmap, list_lookup_fmap.
  destruct (seq 0 (length s) !! i) as [j|] eqn:Hj; [|done].
  apply lookup_seq in Hj as [-> _]. simpl. intros [= <-].
  destruct (Pd.window w i s) as [vs|]; [|by rewrite F64Facts.nan_isna].
  destruct (0 <? w)%nat eqn:Hw; simpl;
    [|by rewrite F64Facts.nan_isna].
  destruct (forallb F64.notna vs) eqn:Hvs;
    [|by rewrite F64Facts.nan_isna].
  intros _. exists vs. apply Nat.ltb_lt in Hw. done.
Qed.

(** The newest observation is the last one of its window. *)
Lemma window_newest w i (s : Series) vs x :
  Pd.window w i s = Some vs → (0 < w)%nat → s !! i = Some x → x ∈ vs.
Proof.
  unfold Pd.window. destruct (w <=? S i)%nat eqn:Hw; [|done].
  apply Nat.leb_le in Hw. intros [= <-] Hpos Hx.
  apply list_elem_of_lookup. exists (w - 1)%nat.
  rewrite lookup_take_lt by lia. rewrite lookup_drop.
  replace (S i - w + (w - 1))%nat with i by lia. exact Hx.
Qed.

Lemma fold_max_notna r acc :
  F64.notna acc = true → forallb F64.notna r = true →
  F64.notna (fold_left F64.max r acc) = true.
Proof.
  revert acc. induction r as [|y r IH]; simpl; intros acc Ha Hr; [done|].
  apply andb_true_iff in Hr as [Hy Hr].
  apply IH; [by apply F64Facts.max_notna | done].
Qed.

Lemma fold_max_ge_acc r acc :
  F64.notna acc = true → forallb F64.notna r = true →
  F64.le acc (fold_left F64.max r acc) = true.
Proof.
  revert acc. induction r as [|y r IH]; simpl; intros acc Ha Hr.
  - by apply F64Facts.le_refl.
  - apply andb_true_iff in Hr as [Hy Hr].
    eapply F64Facts.le_trans; [by apply (F64Facts.le_max_l acc y)|].
    apply IH; [by apply F64Facts.max_notna | done].
Qed.

Lemma fold_max_ge_elem r acc v :
  F64.notna acc = true → forallb F64.notna r = true → v ∈ r →
  F64.le v (fold_left F64.max r acc) = true.
Proof.
  revert acc. induction r as [|y r IH]; simpl; intros acc Ha Hr Hv.
  - by apply elem_of_nil in Hv.
  - apply andb_true_iff in Hr as [Hy Hr].
    apply elem_of_cons in Hv as [->|Hv].
    + eapply F64Facts.le_trans; [by apply (F64Facts.le_max_r acc y)|].
      apply fold_max_ge_acc; [by apply F64Facts.max_notna | done].
    + apply IH; [by apply F64Facts.max_notna | done | done].
Qed.

(** The rolling maximum dominates every observation of its window. *)
Lemma agg_max_ge vs v :
  forallb F64.notna vs = true → v ∈ vs → F64.le v (Pd.agg_max vs) = true.
Proof.
  destruct vs as [|x r]; simpl; intros Hvs Hv.
  - by apply elem_of_nil in Hv.
  - apply andb_true_iff in Hvs as [Hx Hr].
    apply elem_of_cons in Hv as [->|Hv].
    + by apply fold_max_ge_acc.
    + by apply fold_max_ge_elem.
Qed.

End PdFacts.

(** ** The breakout flag *)

(** Where yesterday's rolling high is a number, yesterday's close is at
    most that number. *)
Lemma prev_close_le_prev_high (close : Series) (w : nat) (i : nat) h :
  Pd.shift 1 (Pd.rolling_nat Pd.agg_max w close) !! i = Some h →
  F64.notna h = true →
  ∃ c, Pd.shift 1 close !! i = Some c ∧ F64.le c h = true.
Proof.
  intros Hh Hna. destruct i as [|i].
  - apply PdFacts.shift_1_zero in Hh. subst h.
    by rewrite F64Facts.nan_isna in Hna.
  - pose proof (lookup_lt_Some _ _ _ Hh) as Hlen.
    rewrite PdFacts.shift_1_length, PdFacts.rolling_nat_length in Hlen.
    apply PdFacts.shift_1_succ in Hh.
    destruct (PdFacts.rolling_nat_notna _ _ _ _ _ Hh Hna)
      as (vs & Hwin & Hw & Hvs & ->).
    destruct (lookup_lt_is_Some_2 close i) as [c Hc]; [lia|].
    exists c. split.
    + unfold Pd.shift. simpl. rewrite lookup_take_lt by lia. exact Hc.
    + apply PdFacts.agg_max_ge; [done|].
      by eapply PdFacts.window_newest.
Qed.

(** What a successful [compute_signals] has computed. *)
Lemma compute_signals_Ok data prior_days consol_days sg :
  StockScreener.compute_signals data prior_days consol_days = Ok sg →
  ∃ close volume high low,
    Df.getitem data "Close" = Ok close ∧ Df.getitem data "Volume" = Ok volume
    ∧ Df.getitem data "High" = Ok high ∧ Df.getitem data "Low" = Ok low
    ∧ 0 ≤ consol_days ∧ 0 ≤ prior_days
    ∧ StockScreener.close sg = close
    ∧ StockScreener.volume sg = volume
    ∧ StockScreener.rise_22 sg = StockScreener.rise 22 close
    ∧ StockScreener.rise_67 sg = StockScreener.rise 67 close
    ∧ StockScreener.recent_high sg
      = Pd.rolling_nat Pd.agg_max (Z.to_nat consol_days) close
    ∧ StockScreener.recent_low sg
      = Pd.rolling_nat Pd.agg_min (Z.to_nat consol_days) close
    ∧ StockScreener.consolidation_range sg
      = Pd.mul_scalar
          (Pd.sub_scalar
             (Pd.div (StockScreener.recent_high sg)
                     (StockScreener.recent_low sg)) 1) 100
    ∧ StockScreener.adr sg
      = Pd.mul_scalar
          (Pd.rolling_nat Pd.agg_mean (Z.to_nat prior_days)
             (Pd.div (Pd.sub high low) (Pd.shift 1 close))) 100
    ∧ StockScreener.breakout sg
      = StockScreener.breakout_of close (StockScreener.recent_high sg)
    ∧ StockScreener.breakout_volume sg
      = Pd.gt volume
          (Pd.mul_scalar (Pd.rolling_nat Pd.agg_mean 10 volume) 1.5).
Proof.
  unfold StockScreener.compute_signals, Pd.rolling.
  destruct (Df.getitem data "Close") as [close|]; [|done].
  destruct (Df.getitem data "Volume") as [volume|]; [|done].
  destruct (Df.getitem data "High") as [high|]; [|done].
  destruct (Df.getitem data "Low") as [low|]; [|done].
  cbn [mbind outcome_bind].
  destruct (consol_days <? 0) eqn:Hc; [done|]. cbn [mbind outcome_bind].
  destruct (prior_days <? 0) eqn:Hp; [done|]. cbn.
  intros [= <-]. apply Z.ltb_ge in Hc, Hp.
  exists close, volume, high, low. cbn. repeat split; done.
Qed.

(** C9. The second conjunct of the breakout flag is redundant: wherever the
    previous day's rolling high is a number, the previous close is at most
    that number, so [breakout] is [close > recent_high.shift(1)] at every
    position. *)
Theorem breakout_second_conjunct_redundant data prior_days consol_days sg :
  StockScreener.compute_signals data prior_days consol_days = Ok sg →
  (∀ i h,
     Pd.shift 1 (StockScreener.recent_high sg) !! i = Some h →
     F64.notna h = true →
     ∃ c, Pd.shift 1 (StockScreener.close sg) !! i = Some c
          ∧ F64.le c h = true)
  ∧ StockScreener.breakout sg
    = Pd.gt (StockScreener.close sg)
            (Pd.shift 1 (StockScreener.recent_high sg)).
Proof.
  intros H. apply compute_signals_Ok in H
    as (close & volume & high & low & _ & _ & _ & _ & _ & _ & -> & _ & _ & _
        & Hrh & _ & _ & _ & -> & _).
  rewrite Hrh. split.
  - intros i h. apply prev_close_le_prev_high.
  - unfold StockScreener.breakout_of, Pd.band, Pd.gt, Pd.le.
    apply list_eq. intros i. rewrite !lookup_zip_with.
    destruct (close !! i) as [c|] eqn:Hc; simpl; [|done].
    destruct (Pd.shift 1 (Pd.rolling_nat Pd.agg_max (Z.to_nat consol_days) close) !! i)
      as [h|] eqn:Hh; simpl; [|done].
    destruct (F64.notna h) eqn:Hna.
    + destruct (prev_close_le_prev_high _ _ _ _ Hh Hna) as (pc & -> & Hle).
      simpl. by rewrite Hle, andb_true_r.
    + rewrite (F64Facts.gt_nan c h Hna).
      destruct (lookup_lt_is_Some_2 (Pd.shift 1 close) i) as [pc ->]; [|done].
      rewrite PdFacts.shift_1_length. by eapply lookup_lt_Some.
Qed.

(** ** The filter mask *)

Lemma positions_spec (m : list bool) i :
  i ∈ Pd.positions m ↔ m !! i = Some true.
Proof.
  unfold Pd.positions. rewrite list_elem_of_filter, elem_of_seq, nth_lookup.
  split.
  - intros [H _]. destruct (m !! i) as [[]|]; simpl in H; congruence.
  - intros H. rewrite H. split; [done|].
    apply lookup_lt_Some in H. lia.
Qed.

Lemma any_spec (m : list bool) : Pd.any m = true ↔ ∃ i, m !! i = Some true.
Proof.
  unfold Pd.any. rewrite existsb_exists. split.
  - intros (b & Hb & Hid). unfold id in Hid. subst b.
    apply list_elem_of_In, list_elem_of_lookup in Hb. exact Hb.
  - intros (i & Hi). exists true. split; [|done].
    apply list_elem_of_In, list_elem_of_lookup. eauto.
Qed.

(** The mask at a position is the conjunction of the four comparisons,
    and nothing else. *)
Lemma mask_of_lookup sg m22 m67 mr ma i :
  StockScreener.mask_of sg m22 m67 mr ma !! i
  = (r22 ← StockScreener.rise_22 sg !! i;
     r67 ← StockScreener.rise_67 sg !! i;
     cr ← StockScreener.consolidation_range sg !! i;
     a ← StockScreener.adr sg !! i;
     Some (F64.ge r22 m22 && F64.ge r67 m67 && F64.le cr mr && F64.ge a ma)).
Proof.
  unfold StockScreener.mask_of, Pd.band, Pd.ge_scalar, Pd.le_scalar.
  rewrite !lookup_zip_with, !PdFacts.map_fmap, !list_lookup_fmap.
  destruct (StockScreener.rise_22 sg !! i); simpl; [|done].
  destruct (StockScreener.rise_67 sg !! i); simpl; [|done].
  destruct (StockScreener.consolidation_range sg !! i); simpl; [|done].
  destruct (StockScreener.adr sg !! i); simpl; done.
Qed.

Lemma select_rows_spec ticker data sg m22 m67 mr ma :
  StockScreener.select_rows ticker data sg m22 m67 mr ma
  = if Pd.any (StockScreener.mask_of sg m22 m67 mr ma)
    then Some (map (StockScreener.row_at ticker data sg)
                   (Pd.positions (StockScreener.mask_of sg m22 m67 mr ma)))
    else None.
Proof.
  unfold StockScreener.select_rows.
  by destruct (Pd.any (StockScreener.mask_of sg m22 m67 mr ma)).
Qed.

(** With enough history and computable signals, [_analyze_stock] returns
    the rows of the matched positions and logs nothing. *)
Lemma analyze_stock_matched ticker data p c m22 m67 mr ma sg :
  p + c + 30 ≤ Df.len data →
  StockScreener.compute_signals data p c = Ok sg →
  StockScreener._analyze_stock ticker data p c m22 m67 mr ma
  = (StockScreener.select_rows ticker data sg m22 m67 mr ma, []).
Proof.
  intros Hlen Hsg.
  unfold StockScreener._analyze_stock, StockScreener.analyze_body.
  destruct (Df.len data <? p + c + 30) eqn:E; [apply Z.ltb_lt in E; lia|].
  by rewrite Hsg.
Qed.

(** C5. The mask is the conjunction of exactly the four comparisons
    [rise_22 >= min_rise_22], [rise_67 >= min_rise_67],
    [consolidation_range <= max_range] and [adr >= min_adr], each
    inclusive: a position whose consolidation range equals [max_range] (the
    other three thresholds met) is among the result rows, one whose
    consolidation range exceeds [max_range] is not matched, and a position
    that sits on all four thresholds at once is matched. *)
Theorem filter_mask_inclusive ticker data p c m22 m67 mr ma sg :
  p + c + 30 ≤ Df.len data →
  StockScreener.compute_signals data p c = Ok sg →
  let mask := StockScreener.mask_of sg m22 m67 mr ma in
  let result := fst (StockScreener._analyze_stock ticker data p c m22 m67 mr ma) in
  (∀ i, mask !! i
        = (r22 ← StockScreener.rise_22 sg !! i;
           r67 ← StockScreener.rise_67 sg !! i;
           cr ← StockScreener.consolidation_range sg !! i;
           a ← StockScreener.adr sg !! i;
           Some (F64.ge r22 m22 && F64.ge r67 m67
                 && F64.le cr mr && F64.ge a ma)))
  ∧ result = (if Pd.any mask
              then Some (map (StockScreener.row_at ticker data sg)
                             (Pd.positions mask))
              else None)
  ∧ (∀ i r22 r67 cr a,
       StockScreener.rise_22 sg !! i = Some r22 →
       StockScreener.rise_67 sg !! i = Some r67 →
       StockScreener.consolidation_range sg !! i = Some cr →
       StockScreener.adr sg !! i = Some a →
       F64.ge r22 m22 = true → F64.ge r67 m67 = true → F64.ge a ma = true →
       F64.eq cr mr = true →
       i ∈ Pd.positions mask
       ∧ ∃ rows, result = Some rows
                 ∧ StockScreener.row_at ticker data sg i ∈ rows)
  ∧ (∀ i cr,
       StockScreener.consolidation_range sg !! i = Some cr →
       F64.gt cr mr = true →
       i ∉ Pd.positions mask)
  ∧ (∀ i r22 r67 cr a,
       StockScreener.rise_22 sg !! i = Some r22 →
       StockScreener.rise_67 sg !! i = Some r67 →
       StockScreener.consolidation_range sg !! i = Some cr →
       StockScreener.adr sg !! i = Some a →
       F64.eq r22 m22 = true → F64.eq r67 m67 = true →
       F64.eq cr mr = true → F64.eq a ma = true →
       i ∈ Pd.positions mask).
Proof.
  intros Hlen Hsg mask result.
  assert (Hres : result = if Pd.any mask
              then Some (map (StockScreener.row_at ticker data sg)
                             (Pd.positions mask))
              else None).
  { unfold result. rewrite (analyze_stock_matched _ _ _ _ _ _ _ _ _ Hlen Hsg).
    apply select_rows_spec. }
  split; [intros i; apply mask_of_lookup|].
  split; [exact Hres|]. split; [|split].
  - intros i r22 r67 cr a H22 H67 Hcr Ha G22 G67 Ga Eq.
    assert (Hm : mask !! i = Some true).
    { unfold mask. rewrite mask_of_lookup, H22, H67, Hcr, Ha. simpl.
      by rewrite G22, G67, Ga, (F64Facts.eq_le _ _ Eq). }
    split; [by apply positions_spec|].
    rewrite Hres. replace (Pd.any mask) with true
      by (symmetry; apply any_spec; eauto).
    eexists. split; [done|].
    rewrite PdFacts.map_fmap. apply list_elem_of_fmap_2.
    by apply positions_spec.
  - intros i cr Hcr Hgt Hin. apply positions_spec in Hin.
    unfold mask in Hin. rewrite mask_of_lookup, Hcr in Hin.
    unfold F64.gt in Hgt. apply F64Facts.lt_not_ge in Hgt.
    destruct (StockScreener.rise_22 sg !! i); simpl in Hin; [|done].
    destruct (StockScreener.rise_67 sg !! i); simpl in Hin; [|done].
    destruct (StockScreener.adr sg !! i); simpl in Hin; [|done].
    rewrite Hgt, andb_false_r in Hin. simpl in Hin. congruence.
  - intros i r22 r67 cr a H22 H67 Hcr Ha E22 E67 Ecr Ea.
    apply positions_spec. unfold mask.
    rewrite mask_of_lookup, H22, H67, Hcr, Ha. simpl.
    by rewrite (F64Facts.eq_ge _ _ E22), (F64Facts.eq_ge _ _ E67),
      (F64Facts.eq_le _ _ Ecr), (F64Facts.eq_ge _ _ Ea).
Qed.

(** ** The dead [vol_decline] signal *)

(** Whatever line 89 can raise, a neighbouring line raises as well, and its
    value is read nowhere: the signals are the same without it. *)
Lemma compute_signals_without_vol_decline_eq data prior_days consol_days :
  StockScreener.compute_signals data prior_days consol_days
  = StockScreener.compute_signals_without_vol_decline
      data prior_days consol_days.
Proof.
  unfold StockScreener.compute_signals,
    StockScreener.compute_signals_without_vol_decline, Pd.rolling.
  destruct (Df.getitem data "Close") as [close|]; [|done].
  destruct (Df.getitem data "Volume") as [volume|]; [|done].
  destruct (Df.getitem data "High") as [high|]; [|done].
  destruct (Df.getitem data "Low") as [low|]; [|done].
  cbn [mbind outcome_bind].
  destruct (consol_days <? 0); [done|]. cbn [mbind outcome_bind].
  destruct (prior_days <? 0); done.
Qed.

(** C6. [vol_decline] is computed but never used: with line 89 deleted
    the signals, hence the mask and the matched dates, are the same, and
    [_analyze_stock] returns the same rows, column by column, and logs the
    same lines, for every input and every threshold. *)
Theorem vol_decline_unused ticker data p c m22 m67 mr ma :
  StockScreener.compute_signals data p c
  = StockScreener.compute_signals_without_vol_decline data p c
  ∧ StockScreener._analyze_stock ticker data p c m22 m67 mr ma
    = StockScreener._analyze_stock_without_vol_decline
        ticker data p c m22 m67 mr ma.
Proof.
  split; [apply compute_signals_without_vol_decline_eq|].
  unfold StockScreener._analyze_stock,
    StockScreener._analyze_stock_without_vol_decline,
    StockScreener.analyze_body.
  by rewrite compute_signals_without_vol_decline_eq.
Qed.

(** ** Short histories *)

Lemma analyze_stock_short ticker data p c m22 m67 mr ma :
  Df.len data < p + c + 30 →
  StockScreener._analyze_stock ticker data p c m22 m67 mr ma
  = (None, [(WARNING, "Insufficient data for " +:+ ticker)]).
Proof.
  intros H. unfold StockScreener._analyze_stock, StockScreener.analyze_body.
  apply Z.ltb_lt in H. by rewrite H.
Qed.

Lemma analyze_stock_rows_ticker ticker data p c m22 m67 mr ma rows row :
  fst (StockScreener._analyze_stock ticker data p c m22 m67 mr ma) = Some rows →
  row ∈ rows → StockScreener.Ticker row = ticker.
Proof.
  unfold StockScreener._analyze_stock, StockScreener.analyze_body.
  destruct (Df.len data <? p + c + 30); [done|].
  destruct (StockScreener.compute_signals data p c) as [sg|e]; [|done].
  cbn. rewrite select_rows_spec.
  destruct (Pd.any _); [|done]. intros [= <-].
  rewrite PdFacts.map_fmap. intros (i & -> & _)%list_elem_of_fmap. done.
Qed.

Lemma dict_set_elem {V} k (v : V) d k' v' :
  (k', v') ∈ StockDatabase.dict_set k v d →
  (k' = k ∧ v' = v) ∨ (k', v') ∈ d.
Proof.
  induction d as [|[k0 v0] d IH]; simpl.
  - intros [= -> ->]%list_elem_of_singleton. by left.
  - destruct (String.eqb k0 k).
    + intros [[= -> ->]|H]%elem_of_cons; [by left|].
      right. by apply elem_of_cons; right.
    + intros [[= -> ->]|H]%elem_of_cons; [right; by apply elem_of_cons; left|].
      destruct (IH H) as [?|?]; [by left|right; by apply elem_of_cons; right].
Qed.

(** Each frame of the fetched dict is the query result of its own key. *)
Lemma fetch_stock_data_elem db tickers start_date end_date k df :
  (k, df) ∈ StockDatabase.fetch_stock_data db tickers start_date end_date →
  df = StockDatabase.read_sql_query db k start_date end_date.
Proof.
  unfold StockDatabase.fetch_stock_data.
  assert (G : ∀ acc,
    (∀ k df, (k, df) ∈ acc →
       df = StockDatabase.read_sql_query db k start_date end_date) →
    ∀ k df,
      (k, df) ∈ fold_left
        (fun result ticker =>
           let df := StockDatabase.read_sql_query db ticker start_date end_date in
           if Df.empty df then result
           else StockDatabase.dict_set ticker df result) tickers acc →
       df = StockDatabase.read_sql_query db k start_date end_date).
  { induction tickers as [|t ts IH]; simpl; intros acc Hacc; [exact Hacc|].
    apply IH. destruct (Df.empty _); [exact Hacc|].
    intros k' df' [[-> ->]|H]%dict_set_elem; [done|by apply Hacc]. }
  apply G. intros ?? H. by apply elem_of_nil in H.
Qed.

(** C4. A ticker whose fetched history is shorter than [prior_days +
    consol_days + 30] rows has no row in the output of [screen_stocks], and
    its analysis is a skip with a warning, not an error. *)
Theorem short_history_excluded db now tickers p c m22 m67 mr ma ticker :
  let start_date := Dt.strftime (StockScreener.minus_days 180 now) in
  let end_date := Dt.strftime now in
  let history := StockDatabase.read_sql_query db ticker start_date end_date in
  Df.len history < p + c + 30 →
  (∀ row, row ∈ fst (StockScreener.screen_stocks db now tickers p c
                       m22 m67 mr ma) →
          StockScreener.Ticker row ≠ ticker)
  ∧ StockScreener._analyze_stock ticker history p c m22 m67 mr ma
    = (None, [(WARNING, "Insufficient data for " +:+ ticker)]).
Proof.
  intros start_date end_date history Hshort.
  split; [|by apply analyze_stock_short].
  intros row. unfold StockScreener.screen_stocks. cbn [fst].
  intros Hrow Hticker.
  apply list_elem_of_In, in_concat in Hrow as (rows & Hrows & Hin).
  apply list_elem_of_In, list_elem_of_omap in Hrows as (r & Hr & Hfst).
  rewrite PdFacts.map_fmap in Hr.
  apply list_elem_of_fmap in Hr as ([k df] & -> & Hkv). cbn [fst snd] in Hfst.
  apply list_elem_of_In in Hin.
  pose proof (analyze_stock_rows_ticker _ _ _ _ _ _ _ _ _ _ Hfst Hin) as Hk.
  rewrite Hticker in Hk. subst k.
  apply fetch_stock_data_elem in Hkv. fold start_date end_date history in Hkv.
  subst df. rewrite analyze_stock_short in Hfst; done.
Qed.

(** ** Dates written by [strftime] are read back by [strptime] *)

Module DtFacts.

Lemma digit_val_digit n : 0 ≤ n ≤ 9 → Dt.digit_val (Dt.digit n) = Some n.
Proof.
  intros H. unfold Dt.digit_val, Dt.digit.
  rewrite nat_ascii_embedding by lia.
  replace (Z.of_nat (48 + Z.to_nat n)) with (48 + n) by lia.
  destruct (48 <=? 48 + n) eqn:E1; [|apply Z.leb_gt in E1; lia].
  destruct (48 + n <=? 57) eqn:E2; [|apply Z.leb_gt in E2; lia].
  simpl. f_equal. lia.
Qed.

Lemma parse_Y_fmt4 y rest :
  0 ≤ y ≤ 9999 → Dt.parse_Y (Dt.fmt4 y ++ rest) = Some (y, rest).
Proof.
  intros H. unfold Dt.parse_Y, Dt.fmt4. cbn [app].
  rewrite !digit_val_digit
    by (split; [apply Z.mod_pos_bound | apply Z.lt_succ_r, Z.mod_pos_bound];
        lia).
  do 2 f_equal. Z.div_mod_to_equations. lia.
Qed.

(** Every instance of a goal about a small number, by enumeration. *)
Ltac by_cases_below n bound :=
  let k := fresh "k" in
  let Hk := fresh "Hk" in
  assert (Hk : ∃ k, n = Z.of_nat k ∧ (k < bound)%nat)
    by (exists (Z.to_nat n); lia);
  destruct Hk as (k & -> & Hk);
  repeat (destruct k as [|k];
          [first [exfalso; lia | reflexivity] | try (exfalso; lia)]).

Lemma parse_m_fmt2 m rest :
  1 ≤ m ≤ 12 →
  Dt.parse_m (Dt.fmt2 m ++ Dt.dash :: rest) = Some (m, Dt.dash :: rest).
Proof. intros H. by_cases_below m 13%nat. Qed.

Lemma parse_d_fmt2 d : 1 ≤ d ≤ 31 → Dt.parse_d (Dt.fmt2 d) = Some (d, []).
Proof. intros H. by_cases_below d 32%nat. Qed.

Lemma days_in_month_le y m : Dt.days_in_month y m ≤ 31.
Proof.
  unfold Dt.days_in_month.
  repeat match goal with
         | |- context [match ?x with _ => _ end] => destruct x
         end; lia.
Qed.

(** The text [strftime] writes for a calendar date parses back to that
    date, at midnight. *)
Lemma strptime_strftime t :
  Dt.valid t → Dt.strptime (Dt.strftime t) = Ok (Dt.date t).
Proof.
  unfold Dt.valid, Dt.valid_date. intros H.
  pose proof (days_in_month_le (year t) (month t)) as Hd.
  pose proof H as H'.
  repeat (apply andb_true_iff in H' as [H' ?]).
  unfold Dt.strptime, Dt.strftime.
  rewrite list_ascii_of_string_of_list_ascii.
  rewrite parse_Y_fmt4 by lia.
  change (Ascii.eqb Dt.dash Dt.dash) with true. cbv iota.
  rewrite parse_m_fmt2 by lia.
  change (Ascii.eqb Dt.dash Dt.dash) with true. cbv iota.
  rewrite parse_d_fmt2 by lia.
  unfold Dt.valid_date. rewrite H. reflexivity.
Qed.

End DtFacts.

(** ** The store *)

Module StoreFacts.

(** The frame the six statements leave behind. *)
Lemma run_indicator_lines df close :
  Df.getitem df "Close" = Ok close →
  StockDatabase.run_lines StockDatabase.indicator_lines df
  = (None, StockDatabase.with_indicators df close).
Proof.
  unfold Df.getitem. destruct (columns df !! "Close") as [c|] eqn:Hc;
    [|done]. intros [= ->].
  unfold StockDatabase.indicator_lines, StockDatabase.with_indicators,
    StockDatabase.indicators_of.
  cbn [StockDatabase.run_lines fold_left fst snd].
  unfold Df.getitem, Df.setitem. cbn [columns index].
  repeat (rewrite ?lookup_insert_eq, ?Hc;
          try rewrite lookup_insert_ne by done;
          cbn [mbind outcome_bind columns index]).
  reflexivity.
Qed.

Lemma run_indicator_lines_no_close df e :
  Df.getitem df "Close" = Raise e →
  StockDatabase.run_lines StockDatabase.indicator_lines df = (Some e, df).
Proof.
  intros H. unfold StockDatabase.indicator_lines.
  cbn [StockDatabase.run_lines]. by rewrite H.
Qed.

Lemma with_indicators_index df c :
  index (StockDatabase.with_indicators df c) = index df.
Proof. reflexivity. Qed.

Lemma with_indicators_assigned df c name s :
  (name, s) ∈ StockDatabase.indicators_of c →
  columns (StockDatabase.with_indicators df c) !! name = Some s.
Proof.
  unfold StockDatabase.indicators_of. intros H.
  repeat (apply elem_of_cons in H as [[= -> ->]|H]);
    [..|by apply elem_of_nil in H];
    unfold StockDatabase.with_indicators, StockDatabase.indicators_of;
    cbn; by simplify_map_eq.
Qed.

Lemma with_indicators_other df c name :
  name ∉ (StockDatabase.indicators_of c).*1 →
  columns (StockDatabase.with_indicators df c) !! name = columns df !! name.
Proof.
  unfold StockDatabase.with_indicators, StockDatabase.indicators_of. cbn.
  intros H. rewrite !not_elem_of_cons in H.
  destruct H as (? & ? & ? & ? & ? & ? & _).
  rewrite !lookup_insert_ne by done. reflexivity.
Qed.

Lemma with_indicators_close df c :
  Df.getitem df "Close" = Ok c →
  Df.getitem (StockDatabase.with_indicators df c) "Close" = Ok c.
Proof.
  unfold Df.getitem. rewrite with_indicators_other; [done|].
  cbn. rewrite !not_elem_of_cons. repeat split; try done.
  apply not_elem_of_nil.
Qed.

(** Assigning the six columns leaves the frame as it is exactly when it
    held them already. *)
Lemma with_indicators_fixpoint df c :
  StockDatabase.with_indicators df c = df
  ↔ ∀ name s, (name, s) ∈ StockDatabase.indicators_of c →
              columns df !! name = Some s.
Proof.
  split.
  - intros H name s Hin. rewrite <- H. by apply with_indicators_assigned.
  - intros H. destruct df as [idx cols].
    unfold StockDatabase.with_indicators, StockDatabase.indicators_of in *.
    cbn in *. unfold Df.setitem. cbn. f_equal.
    apply map_eq. intros k.
    repeat (rewrite lookup_insert; case_decide;
            [subst k; symmetry; apply H; by repeat constructor|]).
    reflexivity.
Qed.

Lemma with_indicators_idem df c :
  StockDatabase.with_indicators (StockDatabase.with_indicators df c) c
  = StockDatabase.with_indicators df c.
Proof.
  apply with_indicators_fixpoint. intros name s.
  apply with_indicators_assigned.
Qed.

Lemma empty_false_index df :
  Df.empty df = false → ∃ d, last (index df) = Some d.
Proof.
  unfold Df.empty. destruct (index df) as [|x l] eqn:E; [done|]. intros _.
  destruct (last (x :: l)) eqn:H; [eauto|].
  by apply last_None in H.
Qed.

Lemma with_indicators_not_empty df c :
  Df.empty df = false → Df.empty (StockDatabase.with_indicators df c) = false.
Proof.
  unfold Df.empty. rewrite with_indicators_index.
  destruct (index df); [done|]. intros _.
  apply Nat.eqb_neq. unfold StockDatabase.with_indicators. cbn.
  intros H%map_size_empty_iff. by apply insert_non_empty in H.
Qed.

(** [update_ticker_data] on a frame that has rows and a [Close] column. *)
Lemma update_ticker_data_spec self (h : gmap nat DataFrame) ticker data source df c :
  h !! data = Some df → Df.empty df = false →
  Df.getitem df "Close" = Ok c →
  StockDatabase.update_ticker_data self h ticker data source
  = let df' := StockDatabase.with_indicators df c in
    let h' := <[data := df']> h in
    match StockDatabase.records ticker df', last (index df) with
    | Ok recs, Some d =>
        (Ok true,
         {| StockDatabase.stocks :=
              StockDatabase.executemany (StockDatabase.stocks self) recs;
            StockDatabase.metadata :=
              StockDatabase.write_metadata (StockDatabase.metadata self)
                ticker (Dt.strftime d) source;
            StockDatabase.lru := StockDatabase.lru self |}, h')
    | Ok recs, None => (Raise (IndexError "index out of bounds"), self, h')
    | Raise e, _ => (Raise e, self, h')
    end.
Proof.
  intros Hh He Hc. unfold StockDatabase.update_ticker_data.
  rewrite Hh, He, (run_indicator_lines _ _ Hc). cbn zeta.
  rewrite with_indicators_index.
  destruct (StockDatabase.records ticker _); [|done].
  by destruct (last (index df)).
Qed.

(** Upserting a batch is the batch laid over the table, later records
    over earlier ones. *)
Lemma executemany_union tbl recs :
  StockDatabase.executemany tbl recs
  = list_to_map (reverse recs) ∪ tbl.
Proof.
  unfold StockDatabase.executemany. revert tbl.
  induction recs as [|[k v] recs IH]; intros tbl; simpl.
  - by rewrite (left_id_L ∅ (∪)).
  - rewrite IH, reverse_cons, list_to_map_app. simpl.
    rewrite <- (assoc_L (∪)). f_equal.
    by rewrite insert_empty, insert_union_singleton_l.
Qed.

Lemma executemany_idem tbl recs :
  StockDatabase.executemany (StockDatabase.executemany tbl recs) recs
  = StockDatabase.executemany tbl recs.
Proof.
  rewrite !executemany_union, (assoc_L (∪)). f_equal.
  apply (idemp_L (∪)).
Qed.

End StoreFacts.

(** C7. Called with an empty bar series, [update_ticker_data] returns
    [False] and writes nothing: the tables (and the caller's frame) are as
    they were. *)
Theorem update_empty_no_write self (h : gmap nat DataFrame) ticker data source df :
  h !! data = Some df → Df.empty df = true →
  StockDatabase.update_ticker_data self h ticker data source
  = (Ok false, self, h).
Proof.
  intros Hh He. unfold StockDatabase.update_ticker_data. by rewrite Hh, He.
Qed.

(** On a frame without rows, handed to a store that holds bars. *)
Lemma update_empty_no_write_witness :
  ({[ 0%nat := Examples.no_bars ]} : gmap nat DataFrame) !! 0%nat
    = Some Examples.no_bars
  ∧ Df.empty Examples.no_bars = true
  ∧ StockDatabase.update_ticker_data
      Examples.store {[ 0%nat := Examples.no_bars ]} "AAPL" 0%nat "yfinance"
    = (Ok false, Examples.store, {[ 0%nat := Examples.no_bars ]}).
Proof.
  split; [reflexivity|]. split; [reflexivity|].
  apply (update_empty_no_write Examples.store {[ 0%nat := Examples.no_bars ]}
           "AAPL" 0%nat "yfinance" Examples.no_bars); reflexivity.
Defined.

(** C10, as amended. [update_ticker_data] writes into its caller's frame:
    after a call with a non-empty series that has a [Close] column, the
    caller's object holds the six indicator columns computed from its
    closes, its index and its other columns are as before, and no other
    object has changed; the object differs from what it was unless it held
    those six columns with those values already. *)
Theorem update_writes_indicator_columns
    self (h : gmap nat DataFrame) ticker data source df close :
  h !! data = Some df → Df.empty df = false →
  Df.getitem df "Close" = Ok close →
  let h' := snd (StockDatabase.update_ticker_data self h ticker data source) in
  ∃ df',
    h' !! data = Some df'
    ∧ index df' = index df
    ∧ (∀ name s, (name, s) ∈ StockDatabase.indicators_of close →
                 columns df' !! name = Some s)
    ∧ (∀ name, name ∉ (StockDatabase.indicators_of close).*1 →
               columns df' !! name = columns df !! name)
    ∧ (∀ r, r ≠ data → h' !! r = h !! r)
    ∧ (df' = df
       ↔ ∀ name s, (name, s) ∈ StockDatabase.indicators_of close →
                   columns df !! name = Some s).
Proof.
  intros Hh He Hc h'. exists (StockDatabase.with_indicators df close).
  assert (Hh' : h' = <[data := StockDatabase.with_indicators df close]> h).
  { unfold h'. rewrite (StoreFacts.update_ticker_data_spec _ _ _ _ _ _ _ Hh He Hc).
    cbn zeta. destruct (StockDatabase.records _ _); [|done].
    by destruct (last (index df)). }
  rewrite Hh'. split; [apply lookup_insert_eq|].
  split; [apply StoreFacts.with_indicators_index|].
  split; [intros ??; apply StoreFacts.with_indicators_assigned|].
  split; [intros ?; apply StoreFacts.with_indicators_other|].
  split; [intros r Hr; by apply lookup_insert_ne|].
  apply StoreFacts.with_indicators_fixpoint.
Qed.

(** On the three sample bars, which come without indicator columns. *)
Lemma update_writes_indicator_columns_witness :
  ({[ 0%nat := Examples.bars ]} : gmap nat DataFrame) !! 0%nat
    = Some Examples.bars
  ∧ Df.empty Examples.bars = false
  ∧ Df.getitem Examples.bars "Close" = Ok [11; 12; 13]%float
  ∧ ∃ df',
      snd (StockDatabase.update_ticker_data
             StockDatabase.init {[ 0%nat := Examples.bars ]}
             "AAPL" 0%nat "yfinance") !! 0%nat = Some df'
      ∧ columns df' !! "EMA12" = Some (Pd.ewm_mean 12 [11; 12; 13]%float)
      ∧ df' ≠ Examples.bars.
Proof.
  assert (H1 : ({[ 0%nat := Examples.bars ]} : gmap nat DataFrame) !! 0%nat
               = Some Examples.bars) by reflexivity.
  assert (H2 : Df.empty Examples.bars = false) by reflexivity.
  assert (H3 : Df.getitem Examples.bars "Close" = Ok [11; 12; 13]%float)
    by reflexivity.
  repeat split; try reflexivity.
  destruct (update_writes_indicator_columns StockDatabase.init
              {[ 0%nat := Examples.bars ]} "AAPL" 0%nat
              "yfinance" Examples.bars [11; 12; 13]%float H1 H2 H3)
    as (df' & Hdf' & _ & Hcols & _ & _ & Hiff).
  exists df'. split; [exact Hdf'|]. split.
  - apply Hcols. unfold StockDatabase.indicators_of. by repeat constructor.
  - intros Heq. destruct Hiff as [Hto _].
    assert (Hnone : columns Examples.bars !! "MA10" = None) by reflexivity.
    rewrite (Hto Heq "MA10"
               (Pd.rolling_nat Pd.agg_mean 10 [11; 12; 13]%float)) in Hnone;
      [discriminate Hnone|].
    unfold StockDatabase.indicators_of. by repeat constructor.
Defined.

(** The claim as stated fails on a frame that carries the six columns
    already: the call leaves that argument exactly as it was. *)
Lemma update_leaves_indicated_frame_unchanged :
  Df.empty Examples.bars_with_indicators = false
  ∧ snd (StockDatabase.update_ticker_data
           Examples.store {[ 0%nat := Examples.bars_with_indicators ]}
           "AAPL" 0%nat "yfinance") !! 0%nat
    = Some Examples.bars_with_indicators.
Proof.
  split; [reflexivity|].
  rewrite (StoreFacts.update_ticker_data_spec _ _ _ _ _
             Examples.bars_with_indicators [11; 12; 13]%float);
    [|reflexivity..].
  cbn zeta.
  replace (StockDatabase.with_indicators Examples.bars_with_indicators
             [11; 12; 13]%float)
    with Examples.bars_with_indicators
    by (symmetry; apply StoreFacts.with_indicators_idem).
  destruct (StockDatabase.records _ _);
    [destruct (last _)|]; apply lookup_insert_eq.
Qed.

(** ** Idempotence of the update *)

Lemma update_ticker_data_no_close self (h : gmap nat DataFrame) ticker data source df e :
  h !! data = Some df → Df.empty df = false →
  Df.getitem df "Close" = Raise e →
  StockDatabase.update_ticker_data self h ticker data source
  = (Raise e, self, <[data := df]> h).
Proof.
  intros Hh He Hc. unfold StockDatabase.update_ticker_data.
  by rewrite Hh, He, (StoreFacts.run_indicator_lines_no_close _ _ Hc).
Qed.

(** C2. [update_ticker_data] is idempotent on storage: applied a second
    time with the same series and source, be it the very object of the
    first call or another frame with the content that object had, it
    leaves table [stocks] and table [metadata] exactly as the first
    application left them; with the same object it also returns the same
    and leaves the heap the same. *)
Theorem update_idempotent self (h : gmap nat DataFrame) ticker data source df :
  h !! data = Some df → Df.empty df = false →
  let once := StockDatabase.update_ticker_data self h ticker data source in
  let twice :=
    StockDatabase.update_ticker_data (snd (fst once)) (snd once)
                                     ticker data source in
  (StockDatabase.stocks (snd (fst twice))
   = StockDatabase.stocks (snd (fst once))
   ∧ StockDatabase.metadata (snd (fst twice))
     = StockDatabase.metadata (snd (fst once))
   ∧ fst (fst twice) = fst (fst once)
   ∧ snd twice = snd once)
  ∧ ∀ copy,
      snd once !! copy = Some df →
      let again :=
        StockDatabase.update_ticker_data (snd (fst once)) (snd once)
                                         ticker copy source in
      StockDatabase.stocks (snd (fst again))
      = StockDatabase.stocks (snd (fst once))
      ∧ StockDatabase.metadata (snd (fst again))
        = StockDatabase.metadata (snd (fst once)).
Proof.
  intros Hh He once twice. unfold twice, once. clear once twice.
  destruct (Df.getitem df "Close") as [c|e] eqn:Hc.
  - rewrite (StoreFacts.update_ticker_data_spec _ _ _ _ _ _ _ Hh He Hc).
    cbn zeta.
    set (df' := StockDatabase.with_indicators df c).
    assert (Hh' : <[data := df']> h !! data = Some df')
      by apply lookup_insert_eq.
    assert (He' : Df.empty df' = false)
      by by apply StoreFacts.with_indicators_not_empty.
    assert (Hc' : Df.getitem df' "Close" = Ok c)
      by by apply StoreFacts.with_indicators_close.
    assert (Hidem : StockDatabase.with_indicators df' c = df')
      by apply StoreFacts.with_indicators_idem.
    destruct (StockDatabase.records ticker df') as [recs|e] eqn:Hrecs.
    + destruct (StoreFacts.empty_false_index _ He) as [d Hd]. rewrite Hd.
      cbn [fst snd]. split.
      * rewrite (StoreFacts.update_ticker_data_spec _ _ _ _ _ _ _ Hh' He' Hc').
        cbn zeta. rewrite Hidem, Hrecs.
        replace (index df') with (index df) by reflexivity. rewrite Hd.
        cbn [fst snd StockDatabase.stocks StockDatabase.metadata].
        rewrite StoreFacts.executemany_idem.
        unfold StockDatabase.write_metadata.
        by rewrite !insert_insert_eq.
      * intros copy Hcopy.
        rewrite (StoreFacts.update_ticker_data_spec _ _ _ _ _ _ _ Hcopy He Hc).
        cbn zeta. fold df'. rewrite Hrecs, Hd.
        cbn [fst snd StockDatabase.stocks StockDatabase.metadata].
        rewrite StoreFacts.executemany_idem.
        unfold StockDatabase.write_metadata.
        by rewrite !insert_insert_eq.
    + cbn [fst snd]. split.
      * rewrite (StoreFacts.update_ticker_data_spec _ _ _ _ _ _ _ Hh' He' Hc').
        cbn zeta. rewrite Hidem, Hrecs. cbn [fst snd].
        by rewrite insert_insert_eq.
      * intros copy Hcopy.
        rewrite (StoreFacts.update_ticker_data_spec _ _ _ _ _ _ _ Hcopy He Hc).
        cbn zeta. fold df'. by rewrite Hrecs.
  - rewrite (update_ticker_data_no_close _ _ _ _ _ _ _ Hh He Hc).
    cbn [fst snd]. split.
    + rewrite (update_ticker_data_no_close _ _ _ _ _ df e);
        [|apply lookup_insert_eq|done..].
      cbn [fst snd]. by rewrite insert_insert_eq.
    + intros copy Hcopy.
      by rewrite (update_ticker_data_no_close _ _ _ _ _ _ _ Hcopy He Hc).
Qed.

(** The three sample bars stored twice for AAPL. *)
Lemma update_idempotent_witness :
  ({[ 0%nat := Examples.bars ]} : gmap nat DataFrame) !! 0%nat
    = Some Examples.bars
  ∧ Df.empty Examples.bars = false
  ∧ StockDatabase.stocks
      (snd (fst (StockDatabase.update_ticker_data
                   Examples.store
                   (snd (StockDatabase.update_ticker_data
                           StockDatabase.init {[ 0%nat := Examples.bars ]}
                           "AAPL" 0%nat "yfinance"))
                   "AAPL" 0%nat "yfinance")))
    = StockDatabase.stocks Examples.store.
Proof.
  assert (H1 : ({[ 0%nat := Examples.bars ]} : gmap nat DataFrame) !! 0%nat
               = Some Examples.bars) by reflexivity.
  assert (H2 : Df.empty Examples.bars = false) by reflexivity.
  split; [exact H1|]. split; [exact H2|].
  apply (proj1 (update_idempotent StockDatabase.init
                  {[ 0%nat := Examples.bars ]} "AAPL" 0%nat "yfinance"
                  Examples.bars H1 H2)).
Defined.

(** ** The memoised watermark *)

Lemma update_ticker_data_lru self (h : gmap nat DataFrame) ticker data source :
  StockDatabase.lru
    (snd (fst (StockDatabase.update_ticker_data self h ticker data source)))
  = StockDatabase.lru self.
Proof.
  unfold StockDatabase.update_ticker_data.
  destruct (h !! data) as [df|]; [|done].
  destruct (Df.empty df); [done|].
  destruct (StockDatabase.run_lines _ df) as [[e|] df']; [done|].
  destruct (StockDatabase.records ticker df'); [|done].
  by destruct (last (index df')).
Qed.

(** What a successful update has written for the ticker. *)
Lemma update_ticker_data_Ok_true self (h : gmap nat DataFrame) ticker data source df :
  h !! data = Some df →
  fst (fst (StockDatabase.update_ticker_data self h ticker data source))
    = Ok true →
  ∃ d, last (index df) = Some d
       ∧ StockDatabase.metadata
           (snd (fst (StockDatabase.update_ticker_data
                        self h ticker data source))) !! ticker
         = Some {| last_updated := Dt.strftime d; data_source := source |}.
Proof.
  intros Hh. unfold StockDatabase.update_ticker_data. rewrite Hh.
  destruct (Df.empty df); [done|].
  destruct (StockDatabase.run_lines _ df) as [[e|] df'] eqn:Hrun; [done|].
  assert (Hidx : index df' = index df).
  { destruct (Df.getitem df "Close") as [c|e] eqn:Hc.
    - rewrite (StoreFacts.run_indicator_lines _ _ Hc) in Hrun.
      by injection Hrun as <-.
    - by rewrite (StoreFacts.run_indicator_lines_no_close _ _ Hc) in Hrun. }
  destruct (StockDatabase.records ticker df'); [|done].
  rewrite Hidx. destruct (last (index df)) as [d|]; [|done].
  intros _. exists d. split; [done|]. cbn.
  unfold StockDatabase.write_metadata. apply lookup_insert_eq.
Qed.

(** Read for the first time after a successful update, the watermark is
    the date of the latest bar. *)
Lemma last_updated_after_update_uncached
    self (h : gmap nat DataFrame) ticker data source df :
  h !! data = Some df →
  StockDatabase.cache_find ticker (StockDatabase.lru self) = None →
  fst (fst (StockDatabase.update_ticker_data self h ticker data source))
    = Ok true →
  (∀ d, last (index df) = Some d → Dt.valid d) →
  ∃ d, last (index df) = Some d
       ∧ fst (StockDatabase.get_ticker_last_updated
                (snd (fst (StockDatabase.update_ticker_data
                             self h ticker data source))) ticker)
         = Ok (Some (Dt.date d)).
Proof.
  intros Hh Hmiss Hok Hvalid.
  destruct (update_ticker_data_Ok_true _ _ _ _ _ _ Hh Hok) as (d & Hd & Hmeta).
  exists d. split; [done|].
  unfold StockDatabase.get_ticker_last_updated.
  rewrite update_ticker_data_lru, Hmiss.
  unfold StockDatabase.select_last_updated. rewrite Hmeta.
  cbn [last_updated].
  by rewrite (DtFacts.strptime_strftime d (Hvalid d Hd)).
Qed.

Lemma get_ticker_last_updated_cached self ticker v :
  fst (StockDatabase.get_ticker_last_updated self ticker) = Ok v →
  StockDatabase.cache_find ticker
    (StockDatabase.lru (snd (StockDatabase.get_ticker_last_updated self ticker)))
  = Some v.
Proof.
  unfold StockDatabase.get_ticker_last_updated.
  destruct (StockDatabase.cache_find ticker (StockDatabase.lru self)) as [w|].
  - cbn. intros [= ->]. by rewrite String.eqb_refl.
  - destruct (StockDatabase.select_last_updated self ticker) as [w|e];
      [|done].
    cbn. intros [= ->]. by rewrite String.eqb_refl.
Qed.

(** Once the watermark of a ticker has been read, every later read returns
    that same value, whatever updates come in between. *)
Lemma last_updated_stale self (h : gmap nat DataFrame) ticker data source v :
  fst (StockDatabase.get_ticker_last_updated self ticker) = Ok v →
  fst (StockDatabase.get_ticker_last_updated
         (snd (fst (StockDatabase.update_ticker_data
                      (snd (StockDatabase.get_ticker_last_updated self ticker))
                      h ticker data source)))
         ticker)
  = Ok v.
Proof.
  intros H%get_ticker_last_updated_cached.
  unfold StockDatabase.get_ticker_last_updated at 1.
  by rewrite update_ticker_data_lru, H.
Qed.

(** C1 on the code. The watermark of AAPL is read on a fresh store
    ([None]), then three bars that end on 2024-01-05 are stored
    successfully: read again, the watermark is still [None], not
    2024-01-05. *)
Theorem last_updated_stale_after_update :
  fst (StockDatabase.get_ticker_last_updated StockDatabase.init "AAPL")
    = Ok None
  ∧ last (index Examples.bars) = Some (Examples.day 2024 1 5)
  ∧ fst (fst (StockDatabase.update_ticker_data
                (snd (StockDatabase.get_ticker_last_updated
                        StockDatabase.init "AAPL"))
                {[ 0%nat := Examples.bars ]} "AAPL" 0%nat "yfinance"))
    = Ok true
  ∧ fst (StockDatabase.get_ticker_last_updated
           (snd (fst (StockDatabase.update_ticker_data
                        (snd (StockDatabase.get_ticker_last_updated
                                StockDatabase.init "AAPL"))
                        {[ 0%nat := Examples.bars ]} "AAPL" 0%nat "yfinance")))
           "AAPL")
    = Ok None
  ∧ fst (StockDatabase.get_ticker_last_updated
           (snd (fst (StockDatabase.update_ticker_data
                        StockDatabase.init
                        {[ 0%nat := Examples.bars ]} "AAPL" 0%nat "yfinance")))
           "AAPL")
    = Ok (Some (Examples.day 2024 1 5)).
Proof. repeat split; vm_compute; reflexivity. Qed.

(** ** The fetcher *)

Module FetchFacts.

Lemma with_stats_id self :
  DataFetcher.with_stats self (DataFetcher.source_stats self) = self.
Proof. by destruct self. Qed.

Lemma rename_empty df :
  Df.empty df = true → Df.empty (DataFetcher.rename df) = true.
Proof.
  unfold Df.empty, DataFetcher.rename. cbn [index columns].
  destruct (index df); [done|].
  intros H%Nat.eqb_eq%map_size_empty_iff. rewrite H.
  by rewrite map_to_list_empty.
Qed.

Lemma _fetch_yfinance_no_data net ticker start_date end_date attempt :
  DataFetcher.no_data (yf_download net ticker start_date end_date attempt) →
  DataFetcher._fetch_yfinance net ticker start_date end_date attempt = None.
Proof.
  unfold DataFetcher._fetch_yfinance, DataFetcher.non_empty, DataFetcher.no_data.
  destruct (yf_download _ _ _ _ _); [|done]. by intros ->.
Qed.

Lemma _fetch_alpha_vantage_no_data net self ticker attempt :
  (∀ key, DataFetcher.no_data (av_get_daily_adjusted net key ticker attempt)) →
  DataFetcher._fetch_alpha_vantage net self ticker attempt = None.
Proof.
  unfold DataFetcher._fetch_alpha_vantage, DataFetcher.non_empty, DataFetcher.no_data.
  intros H. destruct (DataFetcher.has_key self) as [key|]; [|done].
  specialize (H key). destruct (av_get_daily_adjusted _ _ _ _); [|done].
  by rewrite (rename_empty _ H).
Qed.

Section Loops.
Context (net : Providers) (self : DataFetcher.t) (ticker : string)
        (start_date : option string) (end_date : string) (delay : Z).

(** One pass through the sources without data changes neither the
    counters nor the sleeps, and leaves [data] bound to [None]. *)
Lemma sources_loop_no_data attempt st :
  DataFetcher.no_data (yf_download net ticker start_date end_date attempt) →
  (∀ key, DataFetcher.no_data (av_get_daily_adjusted net key ticker attempt)) →
  DataFetcher.sources_loop net self ticker start_date end_date delay
    attempt DataFetcher.source_priority st
  = DataFetcher.Continue
      {| DataFetcher.stats := DataFetcher.stats st;
         DataFetcher.data := DataFetcher.Bound None;
         DataFetcher.slept := DataFetcher.slept st |}.
Proof.
  intros Hyf Hav. unfold DataFetcher.source_priority.
  cbn [DataFetcher.sources_loop]. unfold DataFetcher.try_source.
  change (String.eqb "yfinance" "yfinance") with true.
  change (String.eqb "alpha_vantage" "yfinance") with false.
  change (String.eqb "alpha_vantage" "alpha_vantage") with true.
  cbv iota. rewrite (_fetch_yfinance_no_data _ _ _ _ _ Hyf).
  cbn [DataFetcher.stats DataFetcher.data DataFetcher.slept].
  destruct (DataFetcher.has_key self); [|done].
  by rewrite (_fetch_alpha_vantage_no_data _ _ _ _ Hav).
Qed.

Lemma attempts_loop_no_data attempts st :
  (∀ attempt,
     DataFetcher.no_data (yf_download net ticker start_date end_date attempt)) →
  (∀ attempt key,
     DataFetcher.no_data (av_get_daily_adjusted net key ticker attempt)) →
  ∃ data,
    DataFetcher.attempts_loop net self ticker start_date end_date delay
      attempts st
    = DataFetcher.Continue
        {| DataFetcher.stats := DataFetcher.stats st;
           DataFetcher.data := data;
           DataFetcher.slept := DataFetcher.slept st |}.
Proof.
  intros Hyf Hav. revert st.
  induction attempts as [|a rest IH]; intros st;
    cbn [DataFetcher.attempts_loop].
  - exists (DataFetcher.data st). by destruct st.
  - rewrite (sources_loop_no_data a st (Hyf a) (Hav a)).
    destruct (IH {| DataFetcher.stats := DataFetcher.stats st;
                    DataFetcher.data := DataFetcher.Bound None;
                    DataFetcher.slept := DataFetcher.slept st |})
      as [data ->].
    by exists data.
Qed.

(** What one pass through the loop body does to the counters. *)
Lemma try_source_stats attempt source st :
  match DataFetcher.try_source net self ticker start_date end_date delay
          attempt source st with
  | DataFetcher.Return df src st' =>
      src = source
      ∧ ∃ n, DataFetcher.stats st !! source = Some n
             ∧ DataFetcher.stats st'
               = <[source := n + 1]> (DataFetcher.stats st)
  | DataFetcher.Continue st' | DataFetcher.Throw _ st' =>
      DataFetcher.stats st' = DataFetcher.stats st
  end.
Proof.
  unfold DataFetcher.try_source.
  match goal with
  | |- context [match ?d with DataFetcher.Unbound => _ | _ => _ end] =>
      generalize d
  end.
  assert (Hh : ∀ st1,
    DataFetcher.stats st1 = DataFetcher.stats st →
    match DataFetcher.handler delay attempt st1 with
    | DataFetcher.Return _ src st' =>
        src = source
        ∧ ∃ n, DataFetcher.stats st !! source = Some n
               ∧ DataFetcher.stats st'
                 = <[source := n + 1]> (DataFetcher.stats st)
    | DataFetcher.Continue st' | DataFetcher.Throw _ st' =>
        DataFetcher.stats st' = DataFetcher.stats st
    end).
  { intros st1 H1. unfold DataFetcher.handler.
    by destruct (delay * (Z.of_nat attempt + 1) <? 0). }
  intros [|[df|]]; [by apply Hh| |done].
  destruct (Df.empty df); [done|].
  destruct (DataFetcher.stats st !! source) as [n|] eqn:Hn;
    [|by apply Hh].
  split; [done|]. by exists n.
Qed.

Lemma sources_loop_stats attempt sources st :
  match DataFetcher.sources_loop net self ticker start_date end_date delay
          attempt sources st with
  | DataFetcher.Return df src st' =>
      ∃ n, DataFetcher.stats st !! src = Some n
           ∧ DataFetcher.stats st'
             = <[src := n + 1]> (DataFetcher.stats st)
  | DataFetcher.Continue st' | DataFetcher.Throw _ st' =>
      DataFetcher.stats st' = DataFetcher.stats st
  end.
Proof.
  revert st. induction sources as [|s rest IH]; intros st;
    cbn [DataFetcher.sources_loop]; [done|].
  pose proof (try_source_stats attempt s st) as H.
  destruct (DataFetcher.try_source _ _ _ _ _ _ _ _ _) as [df src st'|st'|e st'].
  - destruct H as [-> H]. exact H.
  - specialize (IH st'). rewrite H in IH. exact IH.
  - exact H.
Qed.

Lemma attempts_loop_stats attempts st :
  match DataFetcher.attempts_loop net self ticker start_date end_date
          delay attempts st with
  | DataFetcher.Return df src st' =>
      ∃ n, DataFetcher.stats st !! src = Some n
           ∧ DataFetcher.stats st'
             = <[src := n + 1]> (DataFetcher.stats st)
  | DataFetcher.Continue st' | DataFetcher.Throw _ st' =>
      DataFetcher.stats st' = DataFetcher.stats st
  end.
Proof.
  revert st. induction attempts as [|a rest IH]; intros st;
    cbn [DataFetcher.attempts_loop]; [done|].
  pose proof (sources_loop_stats a DataFetcher.source_priority st) as H.
  destruct (DataFetcher.sources_loop _ _ _ _ _ _ _ _ _)
    as [df src st'|st'|e st'].
  - exact H.
  - specialize (IH st'). rewrite H in IH. exact IH.
  - exact H.
Qed.
End Loops.

End FetchFacts.

(** C3. When every attempt against every source yields no data (an
    exception or an empty result), [fetch_data] returns [(None, "failed")],
    raises nothing, and leaves every usage counter as it was; and a return
    with data has incremented the counter of the returned source, and only
    that one, by one. *)
Theorem fetch_data_failed_or_counted
    net self ticker start_date end_date retries delay :
  ((∀ attempt,
      DataFetcher.no_data (yf_download net ticker start_date end_date attempt)) →
   (∀ attempt key,
      DataFetcher.no_data (av_get_daily_adjusted net key ticker attempt)) →
   DataFetcher.fetch_data net self ticker start_date end_date retries delay
   = (Ok (None, "failed"), self, []))
  ∧ (∀ df source self' sleeps,
       DataFetcher.fetch_data net self ticker start_date end_date retries delay
       = (Ok (Some df, source), self', sleeps) →
       ∃ n, DataFetcher.source_stats self !! source = Some n
            ∧ DataFetcher.source_stats self'
              = <[source := n + 1]> (DataFetcher.source_stats self)
            ∧ ∀ other, other ≠ source →
                DataFetcher.source_stats self' !! other
                = DataFetcher.source_stats self !! other).
Proof.
  split.
  - intros Hyf Hav. unfold DataFetcher.fetch_data.
    destruct (FetchFacts.attempts_loop_no_data net self ticker start_date
                end_date delay (seq 0 (Z.to_nat retries))
                {| DataFetcher.stats := DataFetcher.source_stats self;
                   DataFetcher.data := DataFetcher.Unbound;
                   DataFetcher.slept := [] |} Hyf Hav) as [data ->].
    cbn. by rewrite FetchFacts.with_stats_id.
  - intros df source self' sleeps. unfold DataFetcher.fetch_data.
    pose proof (FetchFacts.attempts_loop_stats net self ticker start_date
                  end_date delay (seq 0 (Z.to_nat retries))
                  {| DataFetcher.stats := DataFetcher.source_stats self;
                     DataFetcher.data := DataFetcher.Unbound;
                     DataFetcher.slept := [] |}) as H.
    destruct (DataFetcher.attempts_loop _ _ _ _ _ _ _ _)
      as [df0 src st'|st'|e st']; [|done..].
    intros [= -> -> <- _]. cbn in H. destruct H as (n & Hn & Hst).
    exists n. cbn. rewrite Hst. split; [done|]. split; [done|].
    intros other Hne. by rewrite lookup_insert_ne.
Qed.

(** ** Concurrent callers *)

Module ConcurrentFacts.
Import Concurrent.

Lemma serial_contiguous tr : serial tr → contiguous tr.
Proof.
  induction 1 as [|tid e e' tr Hs IH|tid e tr Hnew Hs IH];
    intros i j k a c Hij Hjk Ha Hc Hac.
  - by rewrite lookup_nil in Ha.
  - destruct j as [|j].
    + assert (i = 0)%nat as -> by lia. eauto.
    + destruct k as [|k]; [lia|]. destruct i as [|i].
      * injection Ha as <-. cbn in Hac. cbn [lookup list_lookup] in Hc.
        destruct (IH 0%nat j k (tid, e') c) as (b & Hb & Hbt);
          [lia|lia|done|done|done|].
        exists b. split; [done|]. by rewrite Hbt.
      * cbn in Ha, Hc. apply (IH i j k a c); try done; lia.
  - destruct j as [|j].
    + assert (i = 0)%nat as -> by lia. eauto.
    + destruct k as [|k]; [lia|]. destruct i as [|i].
      * injection Ha as <-. cbn in Hac, Hc. exfalso. apply Hnew.
        rewrite Hac. apply list_elem_of_fmap_2.
        by eapply list_elem_of_lookup_2.
      * cbn in Ha, Hc. apply (IH i j k a c); try done; lia.
Qed.

Lemma under_lock_cons_acquire tid tr :
  under_lock tr → under_lock ((tid, Acquire) :: tr).
Proof.
  intros H [|i] t e Hi He.
  - by injection Hi as <- <-.
  - destruct (H i t e Hi He) as (k & Hk & Hak).
    exists (S k). split; [lia|done].
Qed.

Lemma under_lock_cons tid e tr :
  (tid, Acquire) ∈ tr → under_lock tr → under_lock ((tid, e) :: tr).
Proof.
  intros Hacq H [|i] t e' Hi He.
  - injection Hi as <- <-.
    apply list_elem_of_lookup in Hacq as [k Hk].
    exists (S k). split; [lia|done].
  - destruct (H i t e' Hi He) as (k & Hk & Hak).
    exists (S k). split; [lia|done].
Qed.

Lemma inv_initial d h calls : inv (initial d h calls).
Proof.
  split; cbn.
  - intros tid p H. rewrite PdFacts.map_fmap, list_lookup_fmap in H.
    destruct (calls !! tid); [|done]. by injection H as <-.
  - done.
  - intros. apply not_elem_of_nil.
  - constructor.
  - intros i ?? H. by rewrite lookup_nil in H.
Qed.

(** Moving a caller that holds the lock to another place inside the
    section, with or without an event of its own. *)
Lemma inv_step_inside s tid p p' (evs : list (nat * event)) d' h' :
  inv s → pcs s !! tid = Some p → in_section p = true →
  in_section p' = true →
  (evs = [] ∨ ∃ e, evs = [(tid, e)]) →
  inv {| db := d'; hp := h'; lock := lock s;
         pcs := <[tid := p']> (pcs s); events := evs ++ events s |}.
Proof.
  intros [I1 I2 I3 I4 I5] Hp Hin Hin' Hev.
  pose proof (I1 _ _ Hp Hin) as Hlock.
  destruct (I2 _ Hlock) as (_ & (e0 & rest & Hevs) & Hacq).
  pose proof (lookup_lt_Some _ _ _ Hp) as Hlt.
  split; cbn.
  - intros t q Hq Hinq. destruct (decide (t = tid)) as [->|Hne]; [done|].
    rewrite list_lookup_insert_ne in Hq by done. by eapply I1.
  - intros t Ht. rewrite Hlock in Ht. injection Ht as <-.
    split; [exists p'; split; [by apply list_lookup_insert_eq|done]|].
    destruct Hev as [->|[e ->]]; cbn.
    + split; [eauto|done].
    + split; [eauto|]. by apply list_elem_of_further.
  - intros t q Hq Hq'. destruct (decide (t = tid)) as [->|Hne].
    + rewrite list_lookup_insert_eq in Hq by done. injection Hq as <-.
      destruct Hq' as [->| ->]; discriminate Hin'.
    + rewrite list_lookup_insert_ne in Hq by done.
      pose proof (I3 _ _ Hq Hq') as Hfresh.
      destruct Hev as [->|[e ->]]; cbn; [done|].
      apply not_elem_of_cons. split; [done|done].
  - destruct Hev as [->|[e ->]]; cbn; [done|].
    rewrite Hevs. apply serial_same. by rewrite <- Hevs.
  - destruct Hev as [->|[e ->]]; cbn; [done|].
    by apply under_lock_cons.
Qed.

(** Moving a caller that is outside the section to another place
    outside. *)
Lemma inv_step_outside s tid p p' :
  inv s → pcs s !! tid = Some p → in_section p = false →
  in_section p' = false → (p' = AtEntry ∨ p' = AtLock → p = AtEntry) →
  inv (set_pc tid p' s).
Proof.
  intros [I1 I2 I3 I4 I5] Hp Hout Hout' Hfresh.
  pose proof (lookup_lt_Some _ _ _ Hp) as Hlt.
  unfold set_pc. split; cbn.
  - intros t q Hq Hinq. destruct (decide (t = tid)) as [->|Hne].
    + rewrite list_lookup_insert_eq in Hq by done. injection Hq as <-.
      congruence.
    + rewrite list_lookup_insert_ne in Hq by done. by eapply I1.
  - intros t Ht. destruct (I2 _ Ht) as ((q & Hq & Hinq) & ? & ?).
    split; [|done]. exists q. split; [|done].
    rewrite list_lookup_insert_ne; [done|]. intros <-. congruence.
  - intros t q Hq Hq'. destruct (decide (t = tid)) as [->|Hne].
    + rewrite list_lookup_insert_eq in Hq by done. injection Hq as <-.
      apply (I3 tid p Hp). left. by apply Hfresh.
    + rewrite list_lookup_insert_ne in Hq by done. by eapply I3.
  - done.
  - done.
Qed.

Lemma inv_thread_step s tid c p :
  inv s → pcs s !! tid = Some p → inv (thread_step tid c p s).
Proof.
  intros Hinv Hp. pose proof Hinv as [I1 I2 I3 I4 I5].
  pose proof (lookup_lt_Some _ _ _ Hp) as Hlt.
  destruct p as [| | |recs last_date|last_date|res|res];
    cbn [thread_step].
  - (* AtEntry *)
    destruct (hp s !! c_data c) as [df|];
      [destruct (Df.empty df)|];
      eapply inv_step_outside; eauto; intros [?|?]; done.
  - (* AtLock *)
    destruct (lock s) as [holder|] eqn:Hlock; [done|].
    assert (Hnone : ∀ t q, pcs s !! t = Some q → in_section q = false).
    { intros t q Hq. destruct (in_section q) eqn:E; [|done].
      pose proof (I1 _ _ Hq E). congruence. }
    assert (Hfresh : tid ∉ (events s).*1) by (eapply I3; eauto).
    split; cbn.
    + intros t q Hq Hinq. destruct (decide (t = tid)) as [->|Hne]; [done|].
      rewrite list_lookup_insert_ne in Hq by done.
      rewrite (Hnone _ _ Hq) in Hinq. done.
    + intros t [= <-]. split.
      * exists AtIndicators. split; [by apply list_lookup_insert_eq|done].
      * split; [eauto|]. apply list_elem_of_here.
    + intros t q Hq Hq'. destruct (decide (t = tid)) as [->|Hne].
      * rewrite list_lookup_insert_eq in Hq by done. injection Hq as <-.
        destruct Hq'; done.
      * rewrite list_lookup_insert_ne in Hq by done.
        apply not_elem_of_cons. split; [done|]. by eapply I3.
    + by apply serial_new.
    + by apply under_lock_cons_acquire.
  - (* AtIndicators *)
    destruct (hp s !! c_data c) as [df|].
    + destruct (StockDatabase.run_lines _ df) as [err df'].
      apply (inv_step_inside s tid AtIndicators _ []); try done; [|by left].
      destruct err; [done|].
      destruct (StockDatabase.records _ _); [|done].
      by destruct (last _).
    + unfold set_pc.
      by apply (inv_step_inside s tid AtIndicators _ []); try done; left.
  - (* AtInsert *)
    destruct recs as [|r rest].
    + unfold set_pc.
      by apply (inv_step_inside s tid (AtInsert [] last_date) _ []);
        try done; left.
    + apply (inv_step_inside s tid (AtInsert (r :: rest) last_date) _
               [(tid, BarWrite (fst r))]); try done. right. eauto.
  - (* AtMetadata *)
    apply (inv_step_inside s tid (AtMetadata last_date) _
             [(tid, MetaWrite (c_ticker c))]); try done. right. eauto.
  - (* AtExit *)
    pose proof (I1 _ _ Hp eq_refl) as Hlock.
    destruct (I2 _ Hlock) as (_ & (e0 & rest & Hevs) & Hacq).
    split; cbn.
    + intros t q Hq Hinq. destruct (decide (t = tid)) as [->|Hne].
      * rewrite list_lookup_insert_eq in Hq by done. by injection Hq as <-.
      * rewrite list_lookup_insert_ne in Hq by done.
        pose proof (I1 _ _ Hq Hinq). congruence.
    + done.
    + intros t q Hq Hq'. destruct (decide (t = tid)) as [->|Hne].
      * rewrite list_lookup_insert_eq in Hq by done. injection Hq as <-.
        destruct Hq'; done.
      * rewrite list_lookup_insert_ne in Hq by done.
        apply not_elem_of_cons. split; [done|]. by eapply I3.
    + rewrite Hevs. apply serial_same. by rewrite <- Hevs.
    + by apply under_lock_cons.
  - done.
Qed.

Lemma inv_step calls tid s : inv s → inv (step calls tid s).
Proof.
  intros H. unfold step.
  destruct (calls !! tid) as [c|]; [|done].
  destruct (pcs s !! tid) as [p|] eqn:Hp; [|done].
  by apply inv_thread_step.
Qed.

Lemma inv_run calls schedule s : inv s → inv (run calls schedule s).
Proof.
  unfold run. revert s.
  induction schedule as [|tid rest IH]; intros s H; cbn; [done|].
  apply IH. by apply inv_step.
Qed.

End ConcurrentFacts.

(** *** A caller that runs alone does what the function does *)

Module SoloFacts.
Import Concurrent.

Lemma run_app calls (a b : list nat) s :
  run calls (a ++ b) s = run calls b (run calls a s).
Proof. unfold run. apply fold_left_app. Qed.

Lemma with_stocks_twice d t1 t2 :
  with_stocks (with_stocks d t1) t2 = with_stocks d t2.
Proof. reflexivity. Qed.

(** The inserts of [executemany], one step each, then the step to the
    metadata write. *)
Lemma run_inserts c recs last_date s :
  pcs s = [AtInsert recs last_date] →
  run [c] (replicate (S (length recs)) 0%nat) s
  = {| db := with_stocks (db s)
               (StockDatabase.executemany (StockDatabase.stocks (db s)) recs);
       hp := hp s; lock := lock s;
       pcs := [AtMetadata last_date];
       events := map (fun r => (0%nat, BarWrite (fst r))) (reverse recs)
                 ++ events s |}.
Proof.
  revert s. induction recs as [|r recs IH]; intros s Hpcs.
  - cbn. unfold step. rewrite Hpcs. cbn. unfold set_pc. rewrite Hpcs. cbn.
    destruct s as [[] ? ? ? ?]; reflexivity.
  - change (replicate (S (length (r :: recs))) 0%nat)
      with ([0%nat] ++ replicate (S (length recs)) 0%nat).
    rewrite run_app. cbn [run fold_left]. unfold step at 1. rewrite Hpcs.
    cbn [lookup list_lookup thread_step].
    rewrite IH by (cbn; by rewrite Hpcs).
    cbn [db hp lock pcs events]. rewrite with_stocks_twice.
    rewrite reverse_cons, map_app, <- app_assoc. reflexivity.
Qed.

(** Scheduled alone and often enough, a caller ends with the result, the
    tables and the heap of [update_ticker_data]. *)
Lemma solo_call d (h : gmap nat DataFrame) c :
  ∃ n evs,
    run [c] (replicate n 0%nat) (initial d h [c])
    = {| db := snd (fst (StockDatabase.update_ticker_data d h (c_ticker c)
                           (c_data c) (c_source c)));
         hp := snd (StockDatabase.update_ticker_data d h (c_ticker c)
                      (c_data c) (c_source c));
         lock := None;
         pcs := [Finished
                   (fst (fst (StockDatabase.update_ticker_data d h
                                (c_ticker c) (c_data c) (c_source c))))];
         events := evs |}.
Proof.
  unfold StockDatabase.update_ticker_data, initial.
  change (map (fun _ : call => AtEntry) [c]) with [AtEntry].
  destruct (h !! c_data c) as [df|] eqn:Hh.
  2: { exists 1%nat, []. cbn. unfold step. cbn. by rewrite Hh. }
  destruct (Df.empty df) eqn:He.
  { exists 1%nat, []. cbn. unfold step. cbn. by rewrite Hh, He. }
  destruct (StockDatabase.run_lines StockDatabase.indicator_lines df)
    as [err df'] eqn:Hrun.
  assert (Hpre : ∀ next,
    next = match err with
           | Some e => AtExit (Raise e)
           | None =>
               match StockDatabase.records (c_ticker c) df' with
               | Raise e => AtExit (Raise e)
               | Ok recs =>
                   match last (index df') with
                   | None => AtExit (Raise (IndexError "index out of bounds"))
                   | Some d0 => AtInsert recs (Dt.strftime d0)
                   end
               end
           end →
    run [c] (replicate 3 0%nat)
      {| db := d; hp := h; lock := None; pcs := [AtEntry]; events := [] |}
    = {| db := d; hp := <[c_data c := df']> h; lock := Some 0%nat;
         pcs := [next]; events := [(0%nat, Acquire)] |}).
  { intros next ->. cbn [replicate run fold_left].
    assert (E1 : step [c] 0%nat
        {| db := d; hp := h; lock := None; pcs := [AtEntry]; events := [] |}
      = {| db := d; hp := h; lock := None; pcs := [AtLock]; events := [] |}).
    { unfold step. cbn [lookup list_lookup pcs thread_step hp].
      by rewrite Hh, He. }
    assert (E2 : step [c] 0%nat
        {| db := d; hp := h; lock := None; pcs := [AtLock]; events := [] |}
      = {| db := d; hp := h; lock := Some 0%nat; pcs := [AtIndicators];
           events := [(0%nat, Acquire)] |}) by reflexivity.
    rewrite E1, E2. unfold step.
    cbn [lookup list_lookup pcs thread_step hp]. by rewrite Hh, Hrun. }
  assert (Hexit : ∀ res evs s,
    s = {| db := d; hp := <[c_data c := df']> h; lock := Some 0%nat;
           pcs := [AtExit res]; events := evs |} →
    run [c] [0%nat] s
    = {| db := d; hp := <[c_data c := df']> h; lock := None;
         pcs := [Finished res]; events := (0%nat, Release) :: evs |}).
  { intros res evs s ->. reflexivity. }
  destruct err as [e|].
  { exists 4%nat. eexists. change 4%nat with (3 + 1)%nat.
    rewrite replicate_add, run_app, (Hpre _ eq_refl). cbn [replicate].
    by erewrite Hexit. }
  destruct (StockDatabase.records (c_ticker c) df') as [recs|e] eqn:Hrecs.
  2: { exists 4%nat. eexists. change 4%nat with (3 + 1)%nat.
       rewrite replicate_add, run_app, (Hpre _ eq_refl). cbn [replicate].
       by erewrite Hexit. }
  destruct (last (index df')) as [d0|] eqn:Hlast.
  2: { exists 4%nat. eexists. change 4%nat with (3 + 1)%nat.
       rewrite replicate_add, run_app, (Hpre _ eq_refl). cbn [replicate].
       by erewrite Hexit. }
  exists (3 + (S (length recs) + 2))%nat. eexists.
  rewrite replicate_add, run_app, (Hpre _ eq_refl).
  rewrite replicate_add, run_app.
  rewrite (run_inserts c recs (Dt.strftime d0)) by reflexivity.
  cbn [db hp lock pcs events replicate run fold_left].
  unfold step. cbn. reflexivity.
Qed.

End SoloFacts.

(** Callers that go through one lock: the events of each call lie next to
    each other in the trace, every write lies after its caller's acquire,
    and at any moment at most one caller, the one that holds the lock, is
    between its acquire and its release. *)
Lemma one_lock_no_interleave d h calls schedule :
  let s := Concurrent.run calls schedule (Concurrent.initial d h calls) in
  Concurrent.contiguous (Concurrent.events s)
  ∧ Concurrent.under_lock (Concurrent.events s)
  ∧ (∀ tid p,
       Concurrent.pcs s !! tid = Some p →
       Concurrent.in_section p = true →
       Concurrent.lock s = Some tid)
  ∧ (∀ tid tid' p p',
       Concurrent.pcs s !! tid = Some p →
       Concurrent.pcs s !! tid' = Some p' →
       Concurrent.in_section p = true →
       Concurrent.in_section p' = true →
       tid = tid').
Proof.
  intros s.
  destruct (ConcurrentFacts.inv_run calls schedule _
              (ConcurrentFacts.inv_initial d h calls))
    as [I1 I2 I3 I4 I5].
  fold s in I1, I2, I3, I4, I5.
  split; [by apply ConcurrentFacts.serial_contiguous|].
  split; [done|]. split; [done|].
  intros tid tid' p p' Hp Hp' Hin Hin'.
  pose proof (I1 _ _ Hp Hin). pose proof (I1 _ _ Hp' Hin'). congruence.
Qed.

(** *** Callers on several objects: what the callers of one object see *)

Module ObjectFacts.

Lemma view_commit o s' s : Objects.view o (Objects.commit o s' s) = s'.
Proof.
  destruct s' as [d h [tid|] p e]; unfold Objects.view, Objects.commit;
    cbn; f_equal.
  - apply lookup_insert_eq.
  - apply lookup_delete_eq.
Qed.

Lemma view_initial o d h calls :
  Objects.view o (Objects.initial d h calls)
  = Concurrent.initial d h (map Objects.c_call calls).
Proof.
  unfold Objects.view, Objects.initial, Concurrent.initial. cbn.
  by rewrite map_map.
Qed.

(** When every call is made on the object [o], a step of the callers is a
    step of callers that share the lock of [o]. *)
Lemma view_step o calls tid s :
  (∀ c, c ∈ calls → Objects.c_object c = o) →
  Objects.view o (Objects.step calls tid s)
  = Concurrent.step (map Objects.c_call calls) tid (Objects.view o s).
Proof.
  intros Ho. unfold Objects.step, Concurrent.step.
  rewrite PdFacts.map_fmap, list_lookup_fmap.
  destruct (calls !! tid) as [c|] eqn:Hc; [|done].
  change (Concurrent.pcs (Objects.view o s)) with (Objects.pcs s).
  destruct (Objects.pcs s !! tid) as [p|]; [|done].
  cbn [fmap option_fmap option_map].
  rewrite (Ho c) by (by eapply list_elem_of_lookup_2).
  apply view_commit.
Qed.

Lemma view_run o calls schedule s :
  (∀ c, c ∈ calls → Objects.c_object c = o) →
  Objects.view o (Objects.run calls schedule s)
  = Concurrent.run (map Objects.c_call calls) schedule (Objects.view o s).
Proof.
  intros Ho. unfold Objects.run, Concurrent.run. revert s.
  induction schedule as [|tid rest IH]; intros s; cbn [fold_left]; [done|].
  by rewrite IH, view_step.
Qed.

End ObjectFacts.

(** C8. When all concurrent [update_ticker_data] calls are made on one
    store object, then whatever the schedule, their lock operations and
    table writes do not interleave: the events of each call lie next to
    each other in the trace, every write lies after its caller's acquire,
    and at any moment at most one caller, the one that holds the lock of
    that object, is between its acquire and its release. *)
Theorem update_calls_do_not_interleave d h calls schedule o :
  (∀ c, c ∈ calls → Objects.c_object c = o) →
  let s := Objects.run calls schedule (Objects.initial d h calls) in
  Concurrent.contiguous (Objects.events s)
  ∧ Concurrent.under_lock (Objects.events s)
  ∧ (∀ tid p,
       Objects.pcs s !! tid = Some p →
       Concurrent.in_section p = true →
       Objects.locks s !! o = Some tid)
  ∧ (∀ tid tid' p p',
       Objects.pcs s !! tid = Some p →
       Objects.pcs s !! tid' = Some p' →
       Concurrent.in_section p = true →
       Concurrent.in_section p' = true →
       tid = tid').
Proof.
  intros Ho s.
  pose proof (one_lock_no_interleave d h (map Objects.c_call calls) schedule)
    as H. cbn zeta in H.
  rewrite <- (ObjectFacts.view_initial o), <- (ObjectFacts.view_run o) in H
    by done.
  fold s in H. exact H.
Qed.

(** ** The statements at sample inputs *)

(** Two callers of one object taking turns. *)
Lemma update_calls_do_not_interleave_witness :
  (∀ c, c ∈ Examples.one_object_calls → Objects.c_object c = 0%nat)
  ∧ Concurrent.contiguous
      (Objects.events
         (Objects.run Examples.one_object_calls Examples.turns
            (Objects.initial StockDatabase.init Examples.two_frames
               Examples.one_object_calls))).
Proof.
  assert (H : ∀ c, c ∈ Examples.one_object_calls →
                   Objects.c_object c = 0%nat).
  { intros c Hc. unfold Examples.one_object_calls, Examples.two_calls in Hc.
    cbn [map] in Hc.
    repeat (apply elem_of_cons in Hc as [->|Hc]; [reflexivity|]).
    by apply elem_of_nil in Hc. }
  split; [exact H|].
  exact (proj1 (update_calls_do_not_interleave StockDatabase.init
                  Examples.two_frames Examples.one_object_calls
                  Examples.turns 0%nat H)).
Defined.

(** Two callers on two objects of the same file: each holds the lock of
    its own object, so both are inside the [with] block of line 108 at the
    same time, the second having entered between the first caller's
    acquire and its first bar write. The lock of line 28 keeps apart the
    callers of one object only. *)
Lemma two_objects_both_inside :
  let s := Objects.run Examples.two_object_calls Examples.both_inside
             (Objects.initial StockDatabase.init Examples.two_frames
                Examples.two_object_calls) in
  ∃ p p',
    Objects.pcs s !! 0%nat = Some p ∧ Objects.pcs s !! 1%nat = Some p'
    ∧ Concurrent.in_section p = true ∧ Concurrent.in_section p' = true
    ∧ Objects.locks s !! 0%nat = Some 0%nat
    ∧ Objects.locks s !! 1%nat = Some 1%nat
    ∧ reverse (Objects.events s)
      = [(0%nat, Concurrent.Acquire); (1%nat, Concurrent.Acquire);
         (0%nat, Concurrent.BarWrite ("2024-01-03", "AAPL"))]
    ∧ ¬ Concurrent.contiguous (Objects.events s).
Proof.
  intros s.
  assert (Hev : Objects.events s
                = [(0%nat, Concurrent.BarWrite ("2024-01-03", "AAPL"));
                   (1%nat, Concurrent.Acquire); (0%nat, Concurrent.Acquire)])
    by (vm_compute; reflexivity).
  destruct (Objects.pcs s !! 0%nat) as [p|] eqn:Hp;
    [|vm_compute in Hp; discriminate Hp].
  destruct (Objects.pcs s !! 1%nat) as [p'|] eqn:Hp';
    [|vm_compute in Hp'; discriminate Hp'].
  exists p, p'. split; [done|]. split; [done|].
  split; [vm_compute in Hp; by injection Hp as <-|].
  split; [vm_compute in Hp'; by injection Hp' as <-|].
  split; [vm_compute; reflexivity|]. split; [vm_compute; reflexivity|].
  split; [by rewrite Hev|].
  rewrite Hev. intros Hc.
  destruct (Hc 0%nat 1%nat 2%nat _ _ (le_S _ _ (le_n _))
              (le_S _ _ (le_n _)) eq_refl eq_refl eq_refl)
    as (b & Hb & Hfst).
  injection Hb as <-. discriminate Hfst.
Qed.

(** The trace of that schedule, oldest event first: the second caller takes
    the lock first; the first caller, though scheduled in between, makes no
    event until the second has released. *)
Example two_callers_trace :
  reverse
    (Concurrent.events
       (Concurrent.run Examples.two_calls Examples.turns
          (Concurrent.initial StockDatabase.init Examples.two_frames
             Examples.two_calls)))
  = [(1%nat, Concurrent.Acquire);
     (1%nat, Concurrent.BarWrite ("2024-01-03", "MSFT"));
     (1%nat, Concurrent.BarWrite ("2024-01-04", "MSFT"));
     (1%nat, Concurrent.BarWrite ("2024-01-05", "MSFT"));
     (1%nat, Concurrent.MetaWrite "MSFT");
     (1%nat, Concurrent.Release);
     (0%nat, Concurrent.Acquire);
     (0%nat, Concurrent.BarWrite ("2024-01-03", "AAPL"));
     (0%nat, Concurrent.BarWrite ("2024-01-04", "AAPL"));
     (0%nat, Concurrent.BarWrite ("2024-01-05", "AAPL"));
     (0%nat, Concurrent.MetaWrite "AAPL");
     (0%nat, Concurrent.Release)].
Proof. vm_compute. reflexivity. Qed.

(** Both providers without data on every attempt. *)
Lemma fetch_data_failed_or_counted_witness :
  (∀ attempt,
     DataFetcher.no_data
       (yf_download Examples.net_down "AAPL" None "2024-01-10" attempt))
  ∧ (∀ attempt key,
       DataFetcher.no_data
         (av_get_daily_adjusted Examples.net_down key "AAPL" attempt))
  ∧ DataFetcher.fetch_data Examples.net_down (DataFetcher.init (Some "key"))
      "AAPL" None "2024-01-10" 3 5
    = (Ok (None, "failed"), DataFetcher.init (Some "key"), []).
Proof.
  assert (H1 : ∀ attempt,
     DataFetcher.no_data
       (yf_download Examples.net_down "AAPL" None "2024-01-10" attempt))
    by (intros; exact I).
  assert (H2 : ∀ attempt key,
       DataFetcher.no_data
         (av_get_daily_adjusted Examples.net_down key "AAPL" attempt))
    by (intros; reflexivity).
  split; [exact H1|]. split; [exact H2|].
  exact (proj1 (fetch_data_failed_or_counted Examples.net_down
                  (DataFetcher.init (Some "key")) "AAPL" None "2024-01-10" 3 5)
               H1 H2).
Defined.

(** A fetch that the first source answers counts that source once. *)
Example fetch_data_counts_yfinance :
  ∃ self',
    DataFetcher.fetch_data Examples.net_up (DataFetcher.init None)
      "AAPL" None "2024-01-10" 3 5
    = (Ok (Some Examples.bars, "yfinance"), self', [])
    ∧ DataFetcher.source_stats self' !! "yfinance" = Some 1
    ∧ DataFetcher.source_stats self' !! "alpha_vantage" = Some 0.
Proof. eexists. split; [vm_compute; reflexivity|]. split; reflexivity. Qed.

(** AAPL with three stored bars, screened with the default windows. *)
Lemma short_history_excluded_witness :
  Df.len (StockDatabase.read_sql_query Examples.store "AAPL"
            (Dt.strftime (StockScreener.minus_days 180 (Examples.day 2024 1 10)))
            (Dt.strftime (Examples.day 2024 1 10)))
  < 20 + 10 + 30
  ∧ (∀ row,
       row ∈ fst (StockScreener.screen_stocks Examples.store
                    (Examples.day 2024 1 10) ["AAPL"; "MSFT"] 20 10
                    10 40 10 2) →
       StockScreener.Ticker row ≠ "AAPL").
Proof.
  assert (H : Df.len (StockDatabase.read_sql_query Examples.store "AAPL"
            (Dt.strftime (StockScreener.minus_days 180 (Examples.day 2024 1 10)))
            (Dt.strftime (Examples.day 2024 1 10)))
          < 20 + 10 + 30) by (vm_compute; reflexivity).
  split; [exact H|].
  exact (proj1 (short_history_excluded Examples.store (Examples.day 2024 1 10)
                  ["AAPL"; "MSFT"] 20 10 10 40 10 2 "AAPL" H)).
Defined.

Lemma doubling_signals_computed :
  StockScreener.compute_signals (Examples.doubling 70) 1 2
  = Ok Examples.doubling_signals.
Proof. vm_compute. reflexivity. Qed.

(** The last of 70 doubling bars: its consolidation range is exactly the
    threshold of 100 percent. *)
Lemma filter_mask_inclusive_witness :
  1 + 2 + 30 ≤ Df.len (Examples.doubling 70)
  ∧ StockScreener.compute_signals (Examples.doubling 70) 1 2
    = Ok Examples.doubling_signals
  ∧ StockScreener.consolidation_range Examples.doubling_signals !! 69%nat
    = Some 100%float
  ∧ F64.eq 100 100 = true
  ∧ (69%nat ∈ Pd.positions
               (StockScreener.mask_of Examples.doubling_signals 10 40 100 2)
     ∧ ∃ rows,
         fst (StockScreener._analyze_stock "X" (Examples.doubling 70) 1 2
                10 40 100 2) = Some rows
         ∧ StockScreener.row_at "X" (Examples.doubling 70)
             Examples.doubling_signals 69 ∈ rows).
Proof.
  assert (H1 : 1 + 2 + 30 ≤ Df.len (Examples.doubling 70))
    by (vm_compute; discriminate).
  assert (H2 : StockScreener.compute_signals (Examples.doubling 70) 1 2
               = Ok Examples.doubling_signals)
    by (vm_compute; reflexivity).
  split; [exact H1|]. split; [exact H2|].
  split; [vm_compute; reflexivity|]. split; [reflexivity|].
  refine (proj1 (proj2 (proj2
            (filter_mask_inclusive "X" (Examples.doubling 70) 1 2
               10 40 100 2 Examples.doubling_signals H1 H2)))
          69%nat 419430300%float 0x1.9p+73%float
          100%float 100%float _ _ _ _ _ _ _ _);
    vm_compute; reflexivity.
Defined.

(** On the 70 doubling bars. *)
Lemma breakout_second_conjunct_redundant_witness :
  StockScreener.compute_signals (Examples.doubling 70) 1 2
    = Ok Examples.doubling_signals
  ∧ StockScreener.breakout Examples.doubling_signals
    = Pd.gt (StockScreener.close Examples.doubling_signals)
            (Pd.shift 1 (StockScreener.recent_high Examples.doubling_signals)).
Proof.
  assert (H : StockScreener.compute_signals (Examples.doubling 70) 1 2
              = Ok Examples.doubling_signals)
    by (vm_compute; reflexivity).
  split; [exact H|].
  exact (proj2 (breakout_second_conjunct_redundant
                  (Examples.doubling 70) 1 2 Examples.doubling_signals H)).
Defined.


(** * Further properties *)

(** ** The store: what an update writes *)

Module UpdateFacts.

Lemma same_number_refl x : Notions.same_number x x.
Proof.
  unfold Notions.same_number, F64.eq, F64.notna, PrimFloat.is_nan.
  destruct (PrimFloat.eqb x x); cbn; auto.
Qed.

Lemma has_col_Some df name :
  Notions.has_col df name = true → ∃ s, columns df !! name = Some s.
Proof. unfold Notions.has_col. destruct (columns df !! name); eauto; done. Qed.

(** With the six input columns present, the frame after the indicator
    statements has all twelve columns that a record reads. *)
Lemma with_indicators_stored_columns df c name :
  (∀ n, n ∈ Notions.required_columns → Notions.has_col df n = true) →
  name ∈ Notions.stored_columns →
  ∃ s, columns (StockDatabase.with_indicators df c) !! name = Some s.
Proof.
  intros Hreq Hin. unfold Notions.stored_columns in Hin.
  apply elem_of_app in Hin as [Hin|Hin].
  - rewrite StoreFacts.with_indicators_other.
    + apply has_col_Some, Hreq, Hin.
    + unfold Notions.required_columns in Hin. cbn.
      repeat (apply elem_of_cons in Hin as [->|Hin];
              [rewrite !not_elem_of_cons; repeat split; try done;
               apply not_elem_of_nil|]).
      by apply elem_of_nil in Hin.
  - cbn in Hin.
    repeat (apply elem_of_cons in Hin as [->|Hin];
            [eexists; apply StoreFacts.with_indicators_assigned;
             unfold StockDatabase.indicators_of; by repeat constructor|]).
    by apply elem_of_nil in Hin.
Qed.

(** Look one of the twelve columns up in a frame that has them all. *)
Local Ltac have_col H name :=
  let s := fresh "s" in
  let Hs := fresh "Hs" in
  destruct (H name) as [s Hs];
  [unfold Notions.stored_columns, Notions.required_columns; cbn;
   by repeat constructor|];
  rewrite Hs.

Lemma record_at_Ok ticker df i d :
  (∀ name, name ∈ Notions.stored_columns → ∃ s, columns df !! name = Some s) →
  ∃ row,
    StockDatabase.record_at ticker df i d = Ok ((Dt.strftime d, ticker), row)
    ∧ ∀ name v, (name, v) ∈ Notions.row_cells row → Df.cell df i name = Ok v.
Proof.
  intros H. unfold StockDatabase.record_at, Df.cell, Df.getitem.
  have_col H "Open". have_col H "High". have_col H "Low".
  have_col H "Close". have_col H "Adj Close". have_col H "Volume".
  have_col H "MA10". have_col H "EMA12". have_col H "EMA26".
  have_col H "MACD". have_col H "MACD_Signal". have_col H "MACD_Hist".
  cbn [mbind outcome_bind]. eexists. split; [reflexivity|].
  intros name v Hin. unfold Notions.row_cells in Hin. cbn in Hin.
  repeat (apply elem_of_cons in Hin as [[= -> ->]|Hin];
          [by rewrite ?Hs, ?Hs0, ?Hs1, ?Hs2, ?Hs3, ?Hs4, ?Hs5, ?Hs6, ?Hs7,
             ?Hs8, ?Hs9, ?Hs10|]).
  by apply elem_of_nil in Hin.
Qed.

Lemma records_from_Ok ticker df i dates :
  (∀ name, name ∈ Notions.stored_columns → ∃ s, columns df !! name = Some s) →
  ∃ recs,
    StockDatabase.records_from ticker df i dates = Ok recs
    ∧ length recs = length dates
    ∧ ∀ (j : nat) d,
        dates !! j = Some d →
        ∃ row,
          recs !! j = Some ((Dt.strftime d, ticker), row)
          ∧ ∀ name v, (name, v) ∈ Notions.row_cells row →
                      Df.cell df (i + j) name = Ok v.
Proof.
  intros H. revert i. induction dates as [|d dates IH]; intros i.
  - exists []. split; [done|]. split; [done|].
    intros j d Hj. by rewrite lookup_nil in Hj.
  - cbn [StockDatabase.records_from].
    destruct (record_at_Ok ticker df i d H) as (row & -> & Hrow).
    destruct (IH (S i)) as (recs & -> & Hlen & Hrecs).
    cbn [mbind outcome_bind].
    eexists. split; [reflexivity|]. split; [cbn; by rewrite Hlen|].
    intros [|j] d' Hj.
    + injection Hj as <-. exists row. split; [done|].
      by rewrite Nat.add_0_r.
    + destruct (Hrecs j d' Hj) as (row' & Hr & Hc). exists row'.
      split; [done|]. by rewrite Nat.add_succ_r.
Qed.

(** Every record of a call carries the ticker of the call in its key. *)
Lemma record_at_ticker ticker df i d r :
  StockDatabase.record_at ticker df i d = Ok r → snd (fst r) = ticker.
Proof.
  unfold StockDatabase.record_at.
  repeat match goal with
         | |- context [Df.cell ?a ?b ?c] =>
             destruct (Df.cell a b c); cbn [mbind outcome_bind]; [|done]
         end.
  by intros [= <-].
Qed.

Lemma records_from_ticker ticker df i dates recs r :
  StockDatabase.records_from ticker df i dates = Ok recs →
  r ∈ recs → snd (fst r) = ticker.
Proof.
  revert i recs. induction dates as [|d dates IH]; intros i recs;
    cbn [StockDatabase.records_from].
  - intros [= <-] Hin. by apply elem_of_nil in Hin.
  - destruct (StockDatabase.record_at ticker df i d) as [r0|] eqn:Hr0;
      [|done].
    destruct (StockDatabase.records_from ticker df (S i) dates) as [rs|] eqn:Hrs;
      [|done].
    cbn [mbind outcome_bind]. intros [= <-] [->|Hin]%elem_of_cons.
    + by eapply record_at_ticker.
    + by eapply IH.
Qed.

Lemma executemany_lookup_other tbl recs key :
  key ∉ recs.*1 → StockDatabase.executemany tbl recs !! key = tbl !! key.
Proof.
  unfold StockDatabase.executemany. revert tbl.
  induction recs as [|[k v] recs IH]; intros tbl Hk; cbn; [done|].
  cbn in Hk. apply not_elem_of_cons in Hk as [Hne Hk].
  rewrite IH by done. by rewrite lookup_insert_ne.
Qed.

(** The record that is the last one with its key is the row the table
    holds under that key. *)
Lemma executemany_lookup_last tbl (recs : list ((string * string) * StockRow))
    (j : nat) key row :
  recs !! j = Some (key, row) →
  (∀ (j' : nat) r, (j < j')%nat → recs !! j' = Some r → fst r ≠ key) →
  StockDatabase.executemany tbl recs !! key = Some row.
Proof.
  unfold StockDatabase.executemany. revert tbl j.
  induction recs as [|[k v] recs IH]; intros tbl j Hj Hlast; [done|].
  cbn [fold_left fst snd]. destruct j as [|j].
  - injection Hj as -> ->.
    fold (StockDatabase.executemany (<[key := row]> tbl) recs).
    rewrite executemany_lookup_other; [apply lookup_insert_eq|].
    intros ([k' v'] & Hk & Hin)%list_elem_of_fmap. cbn in Hk. subst k'.
    apply list_elem_of_lookup in Hin as [j' Hj'].
    by apply (Hlast (S j') (key, v') ltac:(lia) Hj').
  - apply (IH _ j Hj). intros j' r Hlt Hr.
    apply (Hlast (S j') r ltac:(lia) Hr).
Qed.

(** With the six input columns present the call goes through. *)
Lemma update_returns_true self (h : gmap nat DataFrame) ticker data source df :
  h !! data = Some df → Df.empty df = false →
  (∀ n, n ∈ Notions.required_columns → Notions.has_col df n = true) →
  fst (fst (StockDatabase.update_ticker_data self h ticker data source))
  = Ok true.
Proof.
  intros Hh He Hreq.
  destruct (has_col_Some df "Close") as [c Hc].
  { apply Hreq. unfold Notions.required_columns. by repeat constructor. }
  assert (Hget : Df.getitem df "Close" = Ok c)
    by (unfold Df.getitem; by rewrite Hc).
  destruct (StoreFacts.empty_false_index _ He) as [d Hd].
  rewrite (StoreFacts.update_ticker_data_spec _ _ _ _ _ _ _ Hh He Hget).
  cbn zeta. unfold StockDatabase.records.
  destruct (records_from_Ok ticker
              (StockDatabase.with_indicators df c) 0
              (index (StockDatabase.with_indicators df c)))
    as (recs & -> & _).
  { intros name. by apply with_indicators_stored_columns. }
  by rewrite Hd.
Qed.

End UpdateFacts.

Lemma update_ticker_data_tables self (h : gmap nat DataFrame) ticker data source :
  let self' :=
    snd (fst (StockDatabase.update_ticker_data self h ticker data source)) in
  self' = self
  ∨ ∃ df' recs last_date,
      StockDatabase.records ticker df' = Ok recs
      ∧ self' = {| StockDatabase.stocks :=
                     StockDatabase.executemany (StockDatabase.stocks self) recs;
                   StockDatabase.metadata :=
                     StockDatabase.write_metadata
                       (StockDatabase.metadata self) ticker last_date source;
                   StockDatabase.lru := StockDatabase.lru self |}.
Proof.
  unfold StockDatabase.update_ticker_data.
  destruct (h !! data) as [df|]; [|by left].
  destruct (Df.empty df); [by left|].
  destruct (StockDatabase.run_lines _ df) as [[e|] df']; [by left|].
  destruct (StockDatabase.records ticker df') as [recs|] eqn:Hrecs;
    [|by left].
  destruct (last (index df')) as [d|]; [|by left].
  right. by exists df', recs, (Dt.strftime d).
Qed.

(** X1. An update for one ticker leaves the bars and the metadata of every
    other ticker as they were, whether it succeeds, returns [False] or
    raises. *)
Theorem update_other_tickers_untouched
    self (h : gmap nat DataFrame) ticker data source other :
  other ≠ ticker →
  let self' :=
    snd (fst (StockDatabase.update_ticker_data self h ticker data source)) in
  (∀ date, StockDatabase.stocks self' !! (date, other)
           = StockDatabase.stocks self !! (date, other))
  ∧ StockDatabase.metadata self' !! other
    = StockDatabase.metadata self !! other.
Proof.
  intros Hne self'.
  destruct (update_ticker_data_tables self h ticker data source)
    as [Heq|(df' & recs & ld & Hrecs & Heq)]; fold self' in Heq;
    rewrite Heq; [done|].
  cbn [StockDatabase.stocks StockDatabase.metadata]. split.
  - intros date. apply UpdateFacts.executemany_lookup_other.
    intros (r & Hk & Hin)%list_elem_of_fmap.
    apply (UpdateFacts.records_from_ticker _ _ _ _ _ _ Hrecs) in Hin.
    rewrite <- Hk in Hin. cbn in Hin. congruence.
  - unfold StockDatabase.write_metadata. by rewrite lookup_insert_ne.
Qed.

(** X2. Handed a non-empty frame that has the columns Open, High, Low,
    Close, Adj Close and Volume, and whose index labels are dates of the
    years 1000 to 9999, [update_ticker_data] returns [True], sets the
    metadata row of the ticker to the date of the last bar and the source
    label, and leaves the memo table of the watermark as it was. *)
Theorem update_succeeds_and_stamps
    self (h : gmap nat DataFrame) ticker data source df :
  h !! data = Some df → Df.empty df = false →
  (∀ n, n ∈ Notions.required_columns → Notions.has_col df n = true) →
  Forall Notions.dated (index df) →
  let r := StockDatabase.update_ticker_data self h ticker data source in
  ∃ d,
    last (index df) = Some d
    ∧ fst (fst r) = Ok true
    ∧ StockDatabase.metadata (snd (fst r)) !! ticker
      = Some {| last_updated := Dt.strftime d; data_source := source |}
    ∧ StockDatabase.lru (snd (fst r)) = StockDatabase.lru self.
Proof.
  intros Hh He Hreq _ r.
  destruct (UpdateFacts.has_col_Some df "Close") as [c Hc].
  { apply Hreq. unfold Notions.required_columns. by repeat constructor. }
  assert (Hget : Df.getitem df "Close" = Ok c)
    by (unfold Df.getitem; by rewrite Hc).
  destruct (StoreFacts.empty_false_index _ He) as [d Hd]. exists d.
  split; [done|]. unfold r.
  rewrite (StoreFacts.update_ticker_data_spec _ _ _ _ _ _ _ Hh He Hget).
  cbn zeta. unfold StockDatabase.records.
  destruct (UpdateFacts.records_from_Ok ticker
              (StockDatabase.with_indicators df c) 0
              (index (StockDatabase.with_indicators df c)))
    as (recs & -> & _).
  { intros name. by apply UpdateFacts.with_indicators_stored_columns. }
  rewrite Hd. cbn [fst snd StockDatabase.metadata StockDatabase.lru].
  split; [done|]. split; [|done].
  unfold StockDatabase.write_metadata. apply lookup_insert_eq.
Qed.

(** X3. After such an update, every bar that no later bar of the series
    shares its date text with is in table [stocks] under (date, ticker),
    and the twelve cells of that row hold the same numbers as the cells of
    the caller's frame, as the call left it, at the position of the bar:
    equal as floats are compared, or not a number on both sides. *)
Theorem update_stores_each_bar
    self (h : gmap nat DataFrame) ticker data source df (i : nat) d :
  h !! data = Some df → Df.empty df = false →
  (∀ n, n ∈ Notions.required_columns → Notions.has_col df n = true) →
  Forall Notions.dated (index df) →
  index df !! i = Some d →
  (∀ (i' : nat) d',
     (i < i')%nat → index df !! i' = Some d' →
     Dt.strftime d' ≠ Dt.strftime d) →
  let r := StockDatabase.update_ticker_data self h ticker data source in
  ∃ row df',
    StockDatabase.stocks (snd (fst r)) !! (Dt.strftime d, ticker) = Some row
    ∧ snd r !! data = Some df'
    ∧ ∀ name v, (name, v) ∈ Notions.row_cells row →
                ∃ x, Df.cell df' i name = Ok x ∧ Notions.same_number x v.
Proof.
  intros Hh He Hreq _ Hi Hlater r.
  destruct (UpdateFacts.has_col_Some df "Close") as [c Hc].
  { apply Hreq. unfold Notions.required_columns. by repeat constructor. }
  assert (Hget : Df.getitem df "Close" = Ok c)
    by (unfold Df.getitem; by rewrite Hc).
  destruct (StoreFacts.empty_false_index _ He) as [dl Hd]. unfold r.
  rewrite (StoreFacts.update_ticker_data_spec _ _ _ _ _ _ _ Hh He Hget).
  cbn zeta. unfold StockDatabase.records.
  destruct (UpdateFacts.records_from_Ok ticker
              (StockDatabase.with_indicators df c) 0
              (index (StockDatabase.with_indicators df c)))
    as (recs & Hrecs & Hlen & Hall).
  { intros name. by apply UpdateFacts.with_indicators_stored_columns. }
  rewrite Hrecs, Hd. cbn [fst snd StockDatabase.stocks].
  rewrite StoreFacts.with_indicators_index in Hall, Hlen.
  destruct (Hall i d Hi) as (row & Hrow & Hcells).
  exists row, (StockDatabase.with_indicators df c).
  split; [|split; [apply lookup_insert_eq|]].
  2: { intros name v Hin. exists v. split; [by apply Hcells|].
       apply UpdateFacts.same_number_refl. }
  apply (UpdateFacts.executemany_lookup_last _ _ i _ _ Hrow).
  intros i' [k' row'] Hlt Hr' Hk. cbn [fst] in Hk. subst k'.
  destruct (lookup_lt_is_Some_2 (index df) i') as [d' Hd'].
  { apply lookup_lt_Some in Hr'. by rewrite <- Hlen. }
  destruct (Hall i' d' Hd') as (row'' & Hr'' & _).
  apply (Hlater i' d' Hlt Hd'). rewrite Hr' in Hr''. congruence.
Qed.

Lemma update_ticker_data_first_missing
    self (h : gmap nat DataFrame) ticker data source df c name :
  h !! data = Some df → Df.empty df = false →
  Df.getitem df "Close" = Ok c →
  find (fun n => negb (Notions.has_col df n)) Notions.required_columns
    = Some name →
  StockDatabase.update_ticker_data self h ticker data source
  = (Raise (KeyError name), self,
     <[data := StockDatabase.with_indicators df c]> h).
Proof.
  intros Hh He Hc Hfind.
  rewrite (StoreFacts.update_ticker_data_spec _ _ _ _ _ _ _ Hh He Hc).
  cbn zeta.
  assert (Hraise : ∀ i d,
    StockDatabase.record_at ticker (StockDatabase.with_indicators df c) i d
    = Raise (KeyError name)).
  { intros i d. unfold StockDatabase.record_at, Df.cell, Df.getitem.
    assert (Hsame : ∀ n, n ∈ Notions.required_columns →
      columns (StockDatabase.with_indicators df c) !! n = columns df !! n).
    { intros n Hn. apply StoreFacts.with_indicators_other.
      unfold Notions.required_columns in Hn. cbn.
      repeat (apply elem_of_cons in Hn as [->|Hn];
              [rewrite !not_elem_of_cons; repeat split; try done;
               apply not_elem_of_nil|]).
      by apply elem_of_nil in Hn. }
    unfold Notions.required_columns in Hfind, Hsame.
    unfold Notions.has_col in Hfind. cbn [find] in Hfind.
    repeat match type of Hfind with
           | context [columns df !! ?n] =>
               rewrite (Hsame n) by (by repeat constructor);
               destruct (columns df !! n) eqn:?; cbn in Hfind;
               [cbn [mbind outcome_bind]|by injection Hfind as <-]
           end.
    discriminate Hfind. }
  unfold StockDatabase.records.
  rewrite StoreFacts.with_indicators_index.
  destruct (index df) as [|d0 dates] eqn:Hidx;
    [unfold Df.empty in He; by rewrite Hidx in He|].
  cbn [StockDatabase.records_from]. by rewrite Hraise.
Qed.

(** X4. A frame without a [Close] column makes [update_ticker_data] raise
    [KeyError('Close')] with nothing changed at all; a frame that has
    [Close] and dates of the years 1000 to 9999 as index labels, but lacks
    another of the six input columns, makes it raise the [KeyError] of the
    first missing one, with both tables as they were but with the six
    indicator columns already written into the caller's frame. *)
Theorem update_missing_column
    self (h : gmap nat DataFrame) ticker data source df :
  h !! data = Some df → Df.empty df = false →
  let r := StockDatabase.update_ticker_data self h ticker data source in
  (Notions.has_col df "Close" = false →
   r = (Raise (KeyError "Close"), self, h))
  ∧ (∀ c name,
       Df.getitem df "Close" = Ok c →
       Forall Notions.dated (index df) →
       find (fun n => negb (Notions.has_col df n)) Notions.required_columns
         = Some name →
       r = (Raise (KeyError name), self,
            <[data := StockDatabase.with_indicators df c]> h)).
Proof.
  intros Hh He r. split.
  - intros Hno. unfold r.
    rewrite (update_ticker_data_no_close _ _ _ _ _ df (KeyError "Close"));
      [by rewrite insert_id|done..|].
    unfold Df.getitem. unfold Notions.has_col in Hno.
    by destruct (columns df !! "Close").
  - intros c name Hc _ Hfind. unfold r.
    by apply (update_ticker_data_first_missing _ _ _ _ _ df).
Qed.

(** ** The memo table of the watermark *)

Module CacheFacts.

Lemma cache_find_None ticker c :
  StockDatabase.cache_find ticker c = None → ticker ∉ c.*1.
Proof.
  induction c as [|[k v] c IH]; cbn; [intros _; apply not_elem_of_nil|].
  destruct (String.eqb k ticker) eqn:E; [done|].
  intros H. apply not_elem_of_cons. split; [|by apply IH].
  apply String.eqb_neq in E. congruence.
Qed.

Lemma cache_find_Some ticker c v :
  StockDatabase.cache_find ticker c = Some v → (ticker, v) ∈ c.
Proof.
  induction c as [|[k w] c IH]; cbn; [done|].
  destruct (String.eqb k ticker) eqn:E.
  - apply String.eqb_eq in E. intros [= ->]. subst k. apply list_elem_of_here.
  - intros H. apply list_elem_of_further. by apply IH.
Qed.

Lemma cache_drop_keys ticker c : ticker ∉ (StockDatabase.cache_drop ticker c).*1.
Proof.
  unfold StockDatabase.cache_drop.
  intros ([k v] & Hk & Hin)%list_elem_of_fmap. cbn in Hk. subst k.
  apply list_elem_of_filter in Hin as [Hne _]. cbn in Hne.
  by rewrite String.eqb_refl in Hne.
Qed.

End CacheFacts.

(** X5. [get_ticker_last_updated] never writes to the tables, and it keeps
    the memo table of [lru_cache] in order: one entry per ticker and at
    most 1000 entries, with the ticker just asked for in front when the
    call returned. *)
Theorem get_keeps_cache_in_order self ticker :
  Notions.cache_ok (StockDatabase.lru self) →
  let r := StockDatabase.get_ticker_last_updated self ticker in
  StockDatabase.stocks (snd r) = StockDatabase.stocks self
  ∧ StockDatabase.metadata (snd r) = StockDatabase.metadata self
  ∧ Notions.cache_ok (StockDatabase.lru (snd r))
  ∧ ∀ v, fst r = Ok v →
         ∃ rest, StockDatabase.lru (snd r) = (ticker, v) :: rest.
Proof.
  intros [Hnd Hlen] r. unfold r, StockDatabase.get_ticker_last_updated.
  destruct (StockDatabase.cache_find ticker (StockDatabase.lru self))
    as [v|] eqn:Hfind.
  - cbn. split; [done|]. split; [done|]. split.
    + split.
      * cbn. apply NoDup_cons. split; [apply CacheFacts.cache_drop_keys|].
        eapply sublist_NoDup; [exact Hnd|].
        apply fmap_sublist, sublist_filter.
      * cbn. apply CacheFacts.cache_find_Some in Hfind.
        pose proof (length_filter_lt
          (fun e : string * option datetime => String.eqb (fst e) ticker = false)
          (StockDatabase.lru self) (ticker, v) Hfind) as Hlt.
        unfold StockDatabase.cache_drop.
        cbn in Hlt. rewrite String.eqb_refl in Hlt.
        specialize (Hlt ltac:(done)). lia.
    + intros w [= <-]. eauto.
  - destruct (StockDatabase.select_last_updated self ticker) as [v|e].
    + cbn [fst snd StockDatabase.stocks StockDatabase.metadata
           StockDatabase.lru].
      split; [done|]. split; [done|]. split.
      * split.
        -- eapply sublist_NoDup;
             [|apply fmap_sublist, (sublist_take _ StockDatabase.maxsize)].
           cbn [fmap list_fmap fst]. apply NoDup_cons. split; [|done].
           by apply CacheFacts.cache_find_None.
        -- rewrite length_take. lia.
      * intros w [= <-]. unfold StockDatabase.maxsize. cbn [take]. eauto.
    + cbn. split; [done|]. split; [done|]. split; [done|]. done.
Qed.

Lemma update_all_lru calls st :
  StockDatabase.lru (fst (Notions.update_all calls st))
  = StockDatabase.lru (fst st).
Proof.
  unfold Notions.update_all. revert st.
  induction calls as [|[[t d] s] calls IH]; intros st; cbn [fold_left];
    [done|].
  rewrite IH. cbn [fst snd]. apply update_ticker_data_lru.
Qed.

(** X6. Once the watermark of a ticker has been read, every later read
    returns that same value, however many updates, of whatever tickers and
    frames, are made in between: no update invalidates the memo table. *)
Theorem watermark_pinned_across_updates
    self (h : gmap nat DataFrame) ticker calls v :
  fst (StockDatabase.get_ticker_last_updated self ticker) = Ok v →
  fst (StockDatabase.get_ticker_last_updated
         (fst (Notions.update_all calls
                 (snd (StockDatabase.get_ticker_last_updated self ticker), h)))
         ticker)
  = Ok v.
Proof.
  intros H%get_ticker_last_updated_cached.
  unfold StockDatabase.get_ticker_last_updated at 1.
  rewrite update_all_lru. cbn [fst]. by rewrite H.
Qed.

(** X7. Round trip of the watermark: when the memo table has no entry for
    the ticker, the read that follows an update with a non-empty frame
    that holds the six input columns, and whose index labels are dates of
    the years 1000 to 9999, returns the calendar day of the last bar, at
    midnight. *)
Theorem first_read_after_update
    self (h : gmap nat DataFrame) ticker data source df d :
  h !! data = Some df → Df.empty df = false →
  (∀ n, n ∈ Notions.required_columns → Notions.has_col df n = true) →
  Forall Notions.dated (index df) →
  last (index df) = Some d →
  StockDatabase.cache_find ticker (StockDatabase.lru self) = None →
  fst (StockDatabase.get_ticker_last_updated
         (snd (fst (StockDatabase.update_ticker_data
                      self h ticker data source))) ticker)
  = Ok (Some (Dt.date d)).
Proof.
  intros Hh He Hreq Hdated Hd Hmiss.
  assert (Hvalid : Dt.valid d).
  { apply last_Some in Hd as [l' Hl']. rewrite Hl' in Hdated.
    apply Forall_app in Hdated as [_ Hlast].
    by apply Forall_singleton in Hlast as [? _]. }
  destruct (last_updated_after_update_uncached self h ticker data source df
              Hh Hmiss) as (d' & Hd' & Hget).
  - by apply (UpdateFacts.update_returns_true _ _ _ _ _ df).
  - intros d0 Hd0. congruence.
  - congruence.
Qed.

(** ** The store: what a range query reads *)

Module QueryFacts.

Lemma insert_by_date_perm r rows :
  StockDatabase.insert_by_date r rows ≡ₚ r :: rows.
Proof.
  induction rows as [|r' rows IH]; cbn; [done|].
  destruct (String.leb (fst r) (fst r')); [done|].
  rewrite IH. apply Permutation_swap.
Qed.

Lemma order_by_date_perm rows : StockDatabase.order_by_date rows ≡ₚ rows.
Proof.
  unfold StockDatabase.order_by_date.
  induction rows as [|r rows IH]; cbn; [done|].
  by rewrite insert_by_date_perm, IH.
Qed.

Lemma insert_by_date_hd a r rows :
  Notions.by_date a r → HdRel Notions.by_date a rows →
  HdRel Notions.by_date a (StockDatabase.insert_by_date r rows).
Proof.
  intros Har Hhd. destruct rows as [|r' rows]; cbn; [by constructor|].
  destruct (String.leb (fst r) (fst r')); constructor; [done|].
  by inversion Hhd.
Qed.

Lemma insert_by_date_sorted r rows :
  Sorted Notions.by_date rows →
  Sorted Notions.by_date (StockDatabase.insert_by_date r rows).
Proof.
  induction 1 as [|r' rows Hs IH Hhd]; cbn; [by repeat constructor|].
  destruct (String.leb (fst r) (fst r')) eqn:E.
  - constructor; [by constructor|]. by constructor.
  - constructor; [done|]. apply insert_by_date_hd; [|done].
    unfold Notions.by_date.
    destruct (String.leb_total (fst r) (fst r')); congruence.
Qed.

Lemma order_by_date_sorted rows :
  Sorted Notions.by_date (StockDatabase.order_by_date rows).
Proof.
  unfold StockDatabase.order_by_date.
  induction rows as [|r rows IH]; cbn; [constructor|].
  by apply insert_by_date_sorted.
Qed.

Lemma select_range_perm self ticker start_date end_date :
  StockDatabase.select_range self ticker start_date end_date
  ≡ₚ omap (Notions.pick ticker start_date end_date)
          (map_to_list (StockDatabase.stocks self)).
Proof. unfold StockDatabase.select_range. apply order_by_date_perm. Qed.

Lemma pick_Some ticker s e kv d row :
  Notions.pick ticker s e kv = Some (d, row)
  ↔ kv = ((d, ticker), row)
    ∧ String.leb s d = true ∧ String.leb d e = true.
Proof.
  destruct kv as [[d' tk] row']. cbn.
  destruct (String.eqb tk ticker) eqn:E1; cbn.
  - apply String.eqb_eq in E1. subst tk.
    destruct (String.leb s d') eqn:E2; cbn.
    + destruct (String.leb d' e) eqn:E3; cbn.
      * split; [by intros [= -> ->]|]. by intros ([= -> ->] & _ & _).
      * split; [done|]. intros ([= -> ->] & _ & ?). congruence.
    + split; [done|]. intros ([= -> ->] & ? & _). congruence.
  - apply String.eqb_neq in E1. split; [done|]. intros ([= -> -> ->] & _).
    done.
Qed.

Lemma pick_dates_NoDup ticker s e (l : list ((string * string) * StockRow)) :
  NoDup l.*1 → NoDup (omap (Notions.pick ticker s e) l).*1.
Proof.
  induction l as [|kv l IH]; [constructor|].
  rewrite fmap_cons. intros [Hnotin Hnd]%NoDup_cons.
  assert (E : omap (Notions.pick ticker s e) (kv :: l)
              = match Notions.pick ticker s e kv with
                | Some y => y :: omap (Notions.pick ticker s e) l
                | None => omap (Notions.pick ticker s e) l
                end) by reflexivity.
  rewrite E. clear E.
  destruct (Notions.pick ticker s e kv) as [[d row]|] eqn:Hp; [|by apply IH].
  rewrite fmap_cons. apply NoDup_cons. split; [|by apply IH]. cbn [fst].
  apply pick_Some in Hp as (-> & _ & _). cbn in Hnotin.
  intros ([d' row'] & Hd & Hin)%list_elem_of_fmap. cbn in Hd. subst d'.
  apply list_elem_of_omap in Hin as (kv' & Hin & Hp').
  apply pick_Some in Hp' as (-> & _ & _).
  apply Hnotin. apply list_elem_of_fmap. by exists ((d, ticker), row').
Qed.

End QueryFacts.

(** X8. The range query of [fetch_stock_data] reads exactly the stored
    rows of the ticker whose date text lies between the two bounds, bounds
    included, one row per date, in ascending order of the date text; the
    frame built from them has one index entry per row and the stored closes
    as its [Close] column, and it is empty exactly when there is no such
    row. *)
Theorem range_query_reads_stored_rows self ticker start_date end_date :
  let rows :=
    StockDatabase.select_range self ticker start_date end_date in
  let df := StockDatabase.read_sql_query self ticker start_date end_date in
  Sorted Notions.by_date rows
  ∧ NoDup rows.*1
  ∧ (∀ d row,
       (d, row) ∈ rows
       ↔ StockDatabase.stocks self !! (d, ticker) = Some row
         ∧ String.leb start_date d = true ∧ String.leb d end_date = true)
  ∧ index df = map (fun r => StockDatabase.parse_date (fst r)) rows
  ∧ Df.getitem df "Close" = Ok (map (fun r => Close (snd r)) rows)
  ∧ (Df.empty df = true ↔ rows = []).
Proof.
  intros rows df.
  split; [apply QueryFacts.order_by_date_sorted|]. split.
  { unfold rows. rewrite QueryFacts.select_range_perm.
    apply QueryFacts.pick_dates_NoDup, NoDup_fst_map_to_list. }
  split.
  { intros d row. unfold rows. rewrite QueryFacts.select_range_perm.
    rewrite list_elem_of_omap. split.
    - intros (kv & Hin & (-> & Hs & He)%QueryFacts.pick_Some).
      by apply elem_of_map_to_list in Hin.
    - intros (Hl & Hs & He). exists ((d, ticker), row).
      split; [by apply elem_of_map_to_list|].
      by apply QueryFacts.pick_Some. }
  split; [reflexivity|]. split; [reflexivity|].
  unfold df, StockDatabase.read_sql_query, Df.empty. cbn [index columns].
  fold rows. destruct rows as [|r rows']; [done|]. cbn [map].
  split; [|done]. intros H%Nat.eqb_eq%map_size_empty_iff.
  exfalso. revert H. cbn [list_to_map foldr fst snd].
  apply insert_non_empty.
Qed.

(** ** The dict of fetched frames *)

Module DictFacts.

Lemma dict_set_in {V} k (v : V) d : (k, v) ∈ StockDatabase.dict_set k v d.
Proof.
  induction d as [|[k0 v0] d IH]; cbn; [apply list_elem_of_here|].
  destruct (String.eqb k0 k); [apply list_elem_of_here|].
  by apply list_elem_of_further.
Qed.

Lemma dict_set_keep {V} k (v : V) d k' v' :
  (k', v') ∈ d → k' ≠ k → (k', v') ∈ StockDatabase.dict_set k v d.
Proof.
  induction d as [|[k0 v0] d IH]; cbn; [by intros ?%elem_of_nil|].
  intros [[= -> ->]|Hin]%elem_of_cons Hne.
  - destruct (String.eqb k0 k) eqn:E; [|apply list_elem_of_here].
    apply String.eqb_eq in E. congruence.
  - destruct (String.eqb k0 k);
      apply list_elem_of_further; [done|by apply IH].
Qed.

Lemma dict_set_keys {V} k (v : V) d k' :
  k' ∈ (StockDatabase.dict_set k v d).*1 ↔ k' = k ∨ k' ∈ d.*1.
Proof.
  induction d as [|[k0 v0] d IH]; cbn.
  - rewrite list_elem_of_singleton, elem_of_nil. tauto.
  - destruct (String.eqb k0 k) eqn:E; cbn; rewrite !elem_of_cons.
    + apply String.eqb_eq in E. subst k0. tauto.
    + rewrite IH. tauto.
Qed.

Lemma dict_set_NoDup {V} k (v : V) d :
  NoDup d.*1 → NoDup (StockDatabase.dict_set k v d).*1.
Proof.
  induction d as [|[k0 v0] d IH]; cbn.
  - intros _. apply NoDup_singleton.
  - intros [Hnotin Hnd]%NoDup_cons.
    destruct (String.eqb k0 k) eqn:E; cbn; apply NoDup_cons.
    + apply String.eqb_eq in E. by subst k0.
    + apply String.eqb_neq in E. split; [|by apply IH].
      rewrite dict_set_keys. intros [->|?]; done.
Qed.

(** Assigning to a key the value it has changes nothing. *)
Lemma dict_set_id {V} k (v : V) d :
  NoDup d.*1 → (k, v) ∈ d → StockDatabase.dict_set k v d = d.
Proof.
  induction d as [|[k0 v0] d IH]; cbn; [intros _ H; by apply elem_of_nil in H|].
  intros [Hnotin Hnd]%NoDup_cons [[= -> ->]|Hin]%elem_of_cons.
  - by rewrite String.eqb_refl.
  - destruct (String.eqb k0 k) eqn:E.
    + apply String.eqb_eq in E. subst k0. exfalso. apply Hnotin.
      apply list_elem_of_fmap. by exists (k, v).
    + by rewrite IH.
Qed.

Section Fetch.
Context (db : StockDatabase.t) (start_date end_date : string).

Lemma collect_holds tickers acc seen :
  Notions.holds db start_date end_date acc seen →
  Notions.holds db start_date end_date
    (Notions.collect db start_date end_date acc tickers) (seen ++ tickers).
Proof.
  revert acc seen. induction tickers as [|t ts IH]; intros acc seen H.
  - by rewrite app_nil_r.
  - unfold Notions.collect. cbn [fold_left].
    match goal with
    | |- context [fold_left ?f ts ?a] =>
        change (fold_left f ts a)
          with (Notions.collect db start_date end_date a ts)
    end.
    replace (seen ++ t :: ts) with ((seen ++ [t]) ++ ts)
      by by rewrite <- app_assoc.
    apply IH. destruct H as [Hnd Hacc].
    destruct (Df.empty (StockDatabase.read_sql_query db t start_date end_date))
      eqn:He.
    + split; [done|]. intros k df. rewrite Hacc, elem_of_app.
      rewrite list_elem_of_singleton. split; [tauto|].
      intros ([?| ->] & -> & Hne); [done|congruence].
    + split; [by apply dict_set_NoDup|]. intros k df. split.
      * intros [[-> ->]|Hin]%dict_set_elem.
        -- rewrite elem_of_app, list_elem_of_singleton. tauto.
        -- apply Hacc in Hin as (? & ? & ?). rewrite elem_of_app. tauto.
      * intros (Hin & -> & Hne). destruct (decide (k = t)) as [->|Hkt].
        -- apply dict_set_in.
        -- apply dict_set_keep; [|done]. apply Hacc.
           apply elem_of_app in Hin as [?|?%list_elem_of_singleton]; done.
Qed.

Lemma fetch_holds tickers :
  Notions.holds db start_date end_date
    (StockDatabase.fetch_stock_data db tickers start_date end_date) tickers.
Proof.
  apply (collect_holds tickers [] []). split; [constructor|].
  intros k df. split; [by intros ?%elem_of_nil|].
  by intros (?%elem_of_nil & _).
Qed.

End Fetch.

End DictFacts.

(** X9. [fetch_stock_data] returns one entry per ticker: a ticker is a key
    of the result exactly when it was asked for and has stored rows in the
    range, and its value is the frame of the range query for that
    ticker. *)
Theorem fetch_stock_data_entries db tickers start_date end_date :
  let result :=
    StockDatabase.fetch_stock_data db tickers start_date end_date in
  NoDup result.*1
  ∧ ∀ k df,
      (k, df) ∈ result
      ↔ k ∈ tickers
        ∧ df = StockDatabase.read_sql_query db k start_date end_date
        ∧ Df.empty df = false.
Proof. apply DictFacts.fetch_holds. Qed.

(** X10. Asking for a ticker a second time changes nothing: the fetched
    dict, the rows of [screen_stocks] and its log are those of the list
    without the repetition. *)
Theorem repeated_ticker_is_harmless
    db now before after ticker p c m22 m67 mr ma :
  ticker ∈ before →
  StockDatabase.fetch_stock_data db (before ++ ticker :: after)
    (Dt.strftime (StockScreener.minus_days 180 now)) (Dt.strftime now)
  = StockDatabase.fetch_stock_data db (before ++ after)
      (Dt.strftime (StockScreener.minus_days 180 now)) (Dt.strftime now)
  ∧ StockScreener.screen_stocks db now (before ++ ticker :: after)
      p c m22 m67 mr ma
    = StockScreener.screen_stocks db now (before ++ after) p c m22 m67 mr ma.
Proof.
  intros Hin.
  assert (Hfetch : ∀ s e,
    StockDatabase.fetch_stock_data db (before ++ ticker :: after) s e
    = StockDatabase.fetch_stock_data db (before ++ after) s e).
  { intros s e. unfold StockDatabase.fetch_stock_data.
    rewrite !fold_left_app. cbn [fold_left]. f_equal.
    destruct (DictFacts.fetch_holds db s e before) as [Hnd Hacc].
    unfold StockDatabase.fetch_stock_data in Hnd, Hacc.
    destruct (Df.empty (StockDatabase.read_sql_query db ticker s e)) eqn:He;
      [done|].
    apply DictFacts.dict_set_id; [done|]. by apply Hacc. }
  split; [apply Hfetch|].
  unfold StockScreener.screen_stocks. by rewrite Hfetch.
Qed.

(** ** The screener: what it emits *)

Module ScreenFacts.

Lemma at_lookup (s : list float) (i : nat) x :
  s !! i = Some x → Pd.at_ s i = x.
Proof. intros H. unfold Pd.at_. by rewrite nth_lookup, H. Qed.

(** The row of a matched position meets the four thresholds. *)
Lemma row_at_meets ticker data sg m22 m67 mr ma (i : nat) :
  StockScreener.mask_of sg m22 m67 mr ma !! i = Some true →
  Notions.meets m22 m67 mr ma (StockScreener.row_at ticker data sg i).
Proof.
  rewrite mask_of_lookup.
  destruct (StockScreener.rise_22 sg !! i) as [r22|] eqn:H22; [|done].
  destruct (StockScreener.rise_67 sg !! i) as [r67|] eqn:H67; [|done].
  destruct (StockScreener.consolidation_range sg !! i) as [cr|] eqn:Hcr;
    [|done].
  destruct (StockScreener.adr sg !! i) as [a|] eqn:Ha; [|done].
  cbn. intros [= H]. repeat (apply andb_true_iff in H as [H ?]).
  unfold Notions.meets, StockScreener.row_at. cbn.
  by rewrite (at_lookup _ _ _ H22), (at_lookup _ _ _ H67),
    (at_lookup _ _ _ Hcr), (at_lookup _ _ _ Ha).
Qed.

(** What [_analyze_stock] returns when it returns rows. *)
Lemma analyze_stock_Some ticker data p c m22 m67 mr ma rows :
  fst (StockScreener._analyze_stock ticker data p c m22 m67 mr ma)
    = Some rows →
  ∃ sg,
    StockScreener.compute_signals data p c = Ok sg
    ∧ p + c + 30 ≤ Df.len data
    ∧ Pd.any (StockScreener.mask_of sg m22 m67 mr ma) = true
    ∧ rows = map (StockScreener.row_at ticker data sg)
                 (Pd.positions (StockScreener.mask_of sg m22 m67 mr ma))
    ∧ snd (StockScreener._analyze_stock ticker data p c m22 m67 mr ma) = [].
Proof.
  unfold StockScreener._analyze_stock, StockScreener.analyze_body.
  destruct (Df.len data <? p + c + 30) eqn:Hlen; [done|].
  apply Z.ltb_ge in Hlen.
  destruct (StockScreener.compute_signals data p c) as [sg|e]; [|done].
  cbn [mbind outcome_bind StockScreener.analyze_handler fst snd].
  rewrite select_rows_spec.
  destruct (Pd.any _) eqn:Hany; [|done]. intros [= <-].
  by exists sg.
Qed.

Lemma analyze_stock_row ticker data p c m22 m67 mr ma rows row :
  fst (StockScreener._analyze_stock ticker data p c m22 m67 mr ma)
    = Some rows →
  row ∈ rows →
  StockScreener.Ticker row = ticker ∧ Notions.meets m22 m67 mr ma row.
Proof.
  intros H.
  destruct (analyze_stock_Some _ _ _ _ _ _ _ _ _ H)
    as (sg & _ & _ & _ & -> & _).
  rewrite PdFacts.map_fmap. intros (i & -> & Hi)%list_elem_of_fmap.
  split; [done|]. apply row_at_meets. by apply positions_spec.
Qed.

End ScreenFacts.

(** X11. [_analyze_stock] never returns an empty frame: it returns [None]
    or at least one row, and then every row carries the ticker, meets all
    four thresholds, and nothing was logged. *)
Theorem analyze_stock_rows_are_matches ticker data p c m22 m67 mr ma rows :
  fst (StockScreener._analyze_stock ticker data p c m22 m67 mr ma)
    = Some rows →
  rows ≠ []
  ∧ (∀ row, row ∈ rows →
            StockScreener.Ticker row = ticker
            ∧ Notions.meets m22 m67 mr ma row)
  ∧ snd (StockScreener._analyze_stock ticker data p c m22 m67 mr ma) = [].
Proof.
  intros H. split; [|split].
  - destruct (ScreenFacts.analyze_stock_Some _ _ _ _ _ _ _ _ _ H)
      as (sg & _ & _ & Hany & -> & _).
    apply any_spec in Hany as [i Hi]. apply positions_spec in Hi.
    intros Hnil. apply (f_equal length) in Hnil.
    rewrite length_map in Hnil. cbn in Hnil.
    apply list_elem_of_lookup in Hi as [j Hj].
    apply lookup_lt_Some in Hj. lia.
  - intros row. by apply (ScreenFacts.analyze_stock_row _ data p c).
  - by destruct (ScreenFacts.analyze_stock_Some _ _ _ _ _ _ _ _ _ H)
      as (sg & _ & _ & _ & _ & ?).
Qed.

(** X12. Every row of [screen_stocks] belongs to a ticker that was asked
    for and has stored bars in the 180 days up to the clock reading, and
    meets all four thresholds. *)
Theorem screen_stocks_rows_are_matches
    db now tickers p c m22 m67 mr ma row :
  row ∈ fst (StockScreener.screen_stocks db now tickers p c m22 m67 mr ma) →
  StockScreener.Ticker row ∈ tickers
  ∧ Df.empty (StockDatabase.read_sql_query db (StockScreener.Ticker row)
                (Dt.strftime (StockScreener.minus_days 180 now))
                (Dt.strftime now)) = false
  ∧ Notions.meets m22 m67 mr ma row.
Proof.
  unfold StockScreener.screen_stocks. cbn [fst]. intros Hrow.
  apply list_elem_of_In, in_concat in Hrow as (rows & Hrows & Hin).
  apply list_elem_of_In, list_elem_of_omap in Hrows as (r & Hr & Hfst).
  rewrite PdFacts.map_fmap in Hr.
  apply list_elem_of_fmap in Hr as ([k df] & -> & Hkv). cbn [fst snd] in Hfst.
  apply list_elem_of_In in Hin.
  destruct (ScreenFacts.analyze_stock_row _ _ _ _ _ _ _ _ _ _ Hfst Hin)
    as [-> Hmeets].
  apply DictFacts.fetch_holds in Hkv as (Hk & -> & He). done.
Qed.

(** X13. With enough history, a frame that lacks [Close], [Volume], [High]
    or [Low], or a negative [consol_days] or [prior_days], does not make
    [_analyze_stock] raise: it returns [None] and logs one ERROR line that
    ends in the text of the exception. *)
Theorem analyze_stock_errors_are_logged ticker data p c m22 m67 mr ma :
  p + c + 30 ≤ Df.len data →
  let r := StockScreener._analyze_stock ticker data p c m22 m67 mr ma in
  (∀ name,
     find (fun n => negb (Notions.has_col data n))
          ["Close"; "Volume"; "High"; "Low"] = Some name →
     r = (None, [(ERROR, "Error analyzing " +:+ ticker +:+ ": '"
                          +:+ name +:+ "'")]))
  ∧ (find (fun n => negb (Notions.has_col data n))
          ["Close"; "Volume"; "High"; "Low"] = None →
     c < 0 ∨ p < 0 →
     r = (None, [(ERROR, "Error analyzing " +:+ ticker
                          +:+ ": window must be an integer 0 or greater")])).
Proof.
  intros Hlen r. unfold r, StockScreener._analyze_stock,
    StockScreener.analyze_body.
  destruct (Df.len data <? p + c + 30) eqn:E; [apply Z.ltb_lt in E; lia|].
  unfold StockScreener.compute_signals, Df.getitem, Notions.has_col.
  cbn [find]. split.
  - intros name Hfind.
    repeat match type of Hfind with
           | context [columns data !! ?n] =>
               destruct (columns data !! n) eqn:?; cbn in Hfind;
               [cbn [mbind outcome_bind]|by injection Hfind as <-]
           end.
    discriminate Hfind.
  - intros Hfind Hneg.
    repeat match type of Hfind with
           | context [columns data !! ?n] =>
               destruct (columns data !! n) eqn:?; cbn in Hfind;
               [cbn [mbind outcome_bind]|discriminate Hfind]
           end.
    unfold Pd.rolling.
    destruct (c <? 0) eqn:Hc; [done|]. cbn [mbind outcome_bind].
    destruct (p <? 0) eqn:Hp; [done|].
    apply Z.ltb_ge in Hc, Hp. lia.
Qed.

(** ** The fetcher: one attempt, and the attempts in a row *)

Module AttemptFacts.

Lemma non_empty_Some df df' :
  DataFetcher.non_empty df = Some df' → df' = df ∧ Df.empty df = false.
Proof.
  unfold DataFetcher.non_empty. destruct (Df.empty df); [done|].
  by intros [= <-].
Qed.

Lemma _fetch_yfinance_Some net ticker s e a df :
  DataFetcher._fetch_yfinance net ticker s e a = Some df →
  Df.empty df = false.
Proof.
  unfold DataFetcher._fetch_yfinance.
  destruct (yf_download net ticker s e a); [|done].
  by intros [-> ?]%non_empty_Some.
Qed.

Lemma _fetch_alpha_vantage_Some net self ticker a df :
  DataFetcher._fetch_alpha_vantage net self ticker a = Some df →
  Df.empty df = false ∧ ∃ key, DataFetcher.has_key self = Some key.
Proof.
  unfold DataFetcher._fetch_alpha_vantage.
  destruct (DataFetcher.has_key self) as [key|]; [|done].
  destruct (av_get_daily_adjusted net key ticker a); [|done].
  intros [-> ?]%non_empty_Some. eauto.
Qed.

Section Loops.
Context (net : Providers) (self : DataFetcher.t) (ticker : string)
        (start_date : option string) (end_date : string) (delay : Z).

(** One pass over the two sources, for an object that has both
    counters. *)
Lemma sources_loop_spec attempt st ny na :
  DataFetcher.stats st !! "yfinance" = Some ny →
  DataFetcher.stats st !! "alpha_vantage" = Some na →
  DataFetcher.sources_loop net self ticker start_date end_date delay
    attempt DataFetcher.source_priority st
  = match DataFetcher._fetch_yfinance net ticker start_date end_date
            attempt with
    | Some df =>
        DataFetcher.Return df "yfinance"
          {| DataFetcher.stats :=
               <["yfinance" := ny + 1]> (DataFetcher.stats st);
             DataFetcher.data := DataFetcher.Bound (Some df);
             DataFetcher.slept := DataFetcher.slept st |}
    | None =>
        match DataFetcher._fetch_alpha_vantage net self ticker attempt with
        | Some df =>
            DataFetcher.Return df "alpha_vantage"
              {| DataFetcher.stats :=
                   <["alpha_vantage" := na + 1]> (DataFetcher.stats st);
                 DataFetcher.data := DataFetcher.Bound (Some df);
                 DataFetcher.slept := DataFetcher.slept st |}
        | None =>
            DataFetcher.Continue
              {| DataFetcher.stats := DataFetcher.stats st;
                 DataFetcher.data := DataFetcher.Bound None;
                 DataFetcher.slept := DataFetcher.slept st |}
        end
    end.
Proof.
  intros Hy Ha. unfold DataFetcher.source_priority.
  cbn [DataFetcher.sources_loop]. unfold DataFetcher.try_source.
  change (String.eqb "yfinance" "yfinance") with true.
  change (String.eqb "alpha_vantage" "yfinance") with false.
  change (String.eqb "alpha_vantage" "alpha_vantage") with true.
  cbv iota.
  destruct (DataFetcher._fetch_yfinance net ticker start_date end_date attempt)
    as [df|] eqn:Hyf.
  - rewrite (_fetch_yfinance_Some _ _ _ _ _ _ Hyf). by rewrite Hy.
  - cbn [DataFetcher.stats DataFetcher.data DataFetcher.slept].
    destruct (DataFetcher._fetch_alpha_vantage net self ticker attempt)
      as [df|] eqn:Hav.
    + destruct (_fetch_alpha_vantage_Some _ _ _ _ _ Hav) as [He [key ->]].
      by rewrite He, Ha.
    + by destruct (DataFetcher.has_key self).
Qed.

Lemma attempts_loop_app l1 l2 st st' :
  DataFetcher.attempts_loop net self ticker start_date end_date delay l1 st
    = DataFetcher.Continue st' →
  DataFetcher.attempts_loop net self ticker start_date end_date delay
    (l1 ++ l2) st
  = DataFetcher.attempts_loop net self ticker start_date end_date delay l2 st'.
Proof.
  revert st. induction l1 as [|a l1 IH]; intros st;
    rewrite ?app_nil_l, <- ?app_comm_cons; cbn [DataFetcher.attempts_loop].
  - by intros [= ->].
  - destruct (DataFetcher.sources_loop net self ticker start_date end_date
                delay a DataFetcher.source_priority st); try done.
    apply IH.
Qed.

(** With both counters in place the loops neither sleep nor raise, and a
    frame they return is not empty and comes from a source that was
    really asked. *)
Lemma attempts_loop_quiet attempts st ny na :
  DataFetcher.stats st !! "yfinance" = Some ny →
  DataFetcher.stats st !! "alpha_vantage" = Some na →
  match DataFetcher.attempts_loop net self ticker start_date end_date delay
          attempts st with
  | DataFetcher.Return df src st' =>
      DataFetcher.slept st' = DataFetcher.slept st
      ∧ Df.empty df = false
      ∧ (src = "yfinance"
         ∨ src = "alpha_vantage"
           ∧ ∃ key, DataFetcher.has_key self = Some key)
  | DataFetcher.Continue st' =>
      DataFetcher.slept st' = DataFetcher.slept st
      ∧ DataFetcher.stats st' = DataFetcher.stats st
  | DataFetcher.Throw _ _ => False
  end.
Proof.
  revert st. induction attempts as [|a rest IH]; intros st Hy Ha;
    cbn [DataFetcher.attempts_loop]; [done|].
  rewrite (sources_loop_spec a st ny na Hy Ha).
  destruct (DataFetcher._fetch_yfinance _ _ _ _ _) as [df|] eqn:Hyf.
  { split; [done|]. split; [by eapply _fetch_yfinance_Some|]. by left. }
  destruct (DataFetcher._fetch_alpha_vantage _ _ _ _) as [df|] eqn:Hav.
  { destruct (_fetch_alpha_vantage_Some _ _ _ _ _ Hav) as [He Hkey].
    split; [done|]. split; [done|]. by right. }
  specialize (IH {| DataFetcher.stats := DataFetcher.stats st;
                    DataFetcher.data := DataFetcher.Bound None;
                    DataFetcher.slept := DataFetcher.slept st |} Hy Ha).
  exact IH.
Qed.

End Loops.

(** Two networks that answer alike during the attempts made are told
    apart by no loop. *)
Lemma attempts_loop_ext net1 net2 self ticker s e delay attempts st :
  (∀ a, a ∈ attempts →
        yf_download net1 ticker s e a = yf_download net2 ticker s e a
        ∧ ∀ key, av_get_daily_adjusted net1 key ticker a
                 = av_get_daily_adjusted net2 key ticker a) →
  DataFetcher.attempts_loop net1 self ticker s e delay attempts st
  = DataFetcher.attempts_loop net2 self ticker s e delay attempts st.
Proof.
  revert st. induction attempts as [|a rest IH]; intros st H; [done|].
  cbn [DataFetcher.attempts_loop].
  destruct (H a (list_elem_of_here _ _)) as [Hyf Hav].
  assert (Hsrc : ∀ sources st0,
    DataFetcher.sources_loop net1 self ticker s e delay a sources st0
    = DataFetcher.sources_loop net2 self ticker s e delay a sources st0).
  { induction sources as [|src sources IHs]; intros st0; [done|].
    cbn [DataFetcher.sources_loop].
    assert (Htry : DataFetcher.try_source net1 self ticker s e delay a src st0
                   = DataFetcher.try_source net2 self ticker s e delay a src st0).
    { unfold DataFetcher.try_source, DataFetcher._fetch_yfinance,
        DataFetcher._fetch_alpha_vantage.
      rewrite Hyf. destruct (DataFetcher.has_key self) as [key|]; [|done].
      by rewrite Hav. }
    rewrite Htry. clear Htry.
    destruct (DataFetcher.try_source _ _ _ _ _ _ _ _ _);
      first [done | apply IHs]. }
  rewrite Hsrc. destruct (DataFetcher.sources_loop _ _ _ _ _ _ _ _ _); try done.
  apply IH. intros a' Ha'. apply H. by apply list_elem_of_further.
Qed.

End AttemptFacts.

(** X14. On an object that has both usage counters, [fetch_data] never
    raises and never sleeps, whatever the providers do: the backoff of the
    [except] handler is not reached, because both helpers swallow every
    exception. A frame it returns is never empty, and its label is
    [yfinance], or [alpha_vantage] on an object that has an API key. *)
Theorem fetch_data_never_sleeps
    net self ticker start_date end_date retries delay ny na :
  DataFetcher.source_stats self !! "yfinance" = Some ny →
  DataFetcher.source_stats self !! "alpha_vantage" = Some na →
  ∃ res self',
    DataFetcher.fetch_data net self ticker start_date end_date retries delay
    = (Ok res, self', [])
    ∧ ∀ df src,
        res = (Some df, src) →
        Df.empty df = false
        ∧ (src = "yfinance"
           ∨ src = "alpha_vantage"
             ∧ ∃ key, DataFetcher.has_key self = Some key).
Proof.
  intros Hy Ha. unfold DataFetcher.fetch_data.
  pose proof (AttemptFacts.attempts_loop_quiet net self ticker start_date
                end_date delay (seq 0 (Z.to_nat retries))
                {| DataFetcher.stats := DataFetcher.source_stats self;
                   DataFetcher.data := DataFetcher.Unbound;
                   DataFetcher.slept := [] |} ny na Hy Ha) as H.
  destruct (DataFetcher.attempts_loop _ _ _ _ _ _ _ _)
    as [df src st'|st'|e st']; [| |done].
  - destruct H as (Hs & He & Hsrc). cbn in Hs. rewrite Hs.
    eexists _, _. split; [reflexivity|]. by intros ?? [= <- <-].
  - destruct H as (Hs & _). cbn in Hs. rewrite Hs.
    eexists _, _. split; [reflexivity|]. by intros ?? [= ].
Qed.

(** X15. [fetch_data] returns the first data in attempt order and, within
    an attempt, in source order: when attempts [0 .. a-1] brought nothing
    and [a] is below [retries], data from yfinance at attempt [a] is
    returned under the label [yfinance] with that counter incremented; and
    when yfinance brings nothing at [a] either, data from Alpha Vantage is
    returned, renamed, under the label [alpha_vantage]. *)
Theorem fetch_data_first_success
    net self ticker start_date end_date retries delay ny na (a : nat) :
  DataFetcher.source_stats self !! "yfinance" = Some ny →
  DataFetcher.source_stats self !! "alpha_vantage" = Some na →
  Z.of_nat a < retries →
  (∀ a', (a' < a)%nat →
     DataFetcher.no_data (yf_download net ticker start_date end_date a')
     ∧ ∀ key, DataFetcher.no_data (av_get_daily_adjusted net key ticker a')) →
  (∀ df,
     yf_download net ticker start_date end_date a = Ok df →
     Df.empty df = false →
     DataFetcher.fetch_data net self ticker start_date end_date retries delay
     = (Ok (Some df, "yfinance"),
        DataFetcher.with_stats self
          (<["yfinance" := ny + 1]> (DataFetcher.source_stats self)), []))
  ∧ (∀ key df,
       DataFetcher.no_data (yf_download net ticker start_date end_date a) →
       DataFetcher.has_key self = Some key →
       av_get_daily_adjusted net key ticker a = Ok df →
       Df.empty (DataFetcher.rename df) = false →
       DataFetcher.fetch_data net self ticker start_date end_date retries delay
       = (Ok (Some (DataFetcher.rename df), "alpha_vantage"),
          DataFetcher.with_stats self
            (<["alpha_vantage" := na + 1]> (DataFetcher.source_stats self)),
          [])).
Proof.
  intros Hy Ha Hlt Hnone.
  set (st0 := {| DataFetcher.stats := DataFetcher.source_stats self;
                 DataFetcher.data := DataFetcher.Unbound;
                 DataFetcher.slept := [] |}).
  assert (Hsplit : seq 0 (Z.to_nat retries)
                   = seq 0 a ++ a :: seq (S a) (Z.to_nat retries - S a)).
  { replace (Z.to_nat retries) with (a + S (Z.to_nat retries - S a))%nat
      at 1 by lia.
    by rewrite seq_app. }
  assert (Hpre : ∃ data,
    DataFetcher.attempts_loop net self ticker start_date end_date delay
      (seq 0 a) st0
    = DataFetcher.Continue
        {| DataFetcher.stats := DataFetcher.source_stats self;
           DataFetcher.data := data; DataFetcher.slept := [] |}).
  { assert (G : ∀ l st,
      (∀ a', a' ∈ l → (a' < a)%nat) →
      ∃ data,
        DataFetcher.attempts_loop net self ticker start_date end_date delay
          l st
        = DataFetcher.Continue
            {| DataFetcher.stats := DataFetcher.stats st;
               DataFetcher.data := data;
               DataFetcher.slept := DataFetcher.slept st |}).
    { induction l as [|x l IH]; intros st Hl; cbn [DataFetcher.attempts_loop].
      - exists (DataFetcher.data st). by destruct st.
      - destruct (Hnone x) as [Hyf Hav];
          [apply Hl, list_elem_of_here|].
        rewrite (FetchFacts.sources_loop_no_data net self ticker start_date
                   end_date delay x st Hyf Hav).
        destruct (IH {| DataFetcher.stats := DataFetcher.stats st;
                        DataFetcher.data := DataFetcher.Bound None;
                        DataFetcher.slept := DataFetcher.slept st |})
          as [data ->]; [|by exists data].
        intros a' Ha'. apply Hl. by apply list_elem_of_further. }
    apply (G (seq 0 a) st0). intros a' Ha'%elem_of_seq. lia. }
  destruct Hpre as [data Hpre].
  unfold DataFetcher.fetch_data. fold st0. rewrite Hsplit.
  rewrite (AttemptFacts.attempts_loop_app _ _ _ _ _ _ _ _ _ _ Hpre).
  cbn [DataFetcher.attempts_loop].
  rewrite (AttemptFacts.sources_loop_spec net self ticker start_date end_date
             delay a
             {| DataFetcher.stats := DataFetcher.source_stats self;
                DataFetcher.data := data; DataFetcher.slept := [] |}
             ny na Hy Ha).
  cbn [DataFetcher.stats DataFetcher.slept].
  split.
  - intros df Hdl He. unfold DataFetcher._fetch_yfinance.
    rewrite Hdl. unfold DataFetcher.non_empty. by rewrite He.
  - intros key df Hyf Hkey Hdl He.
    rewrite (FetchFacts._fetch_yfinance_no_data _ _ _ _ _ Hyf).
    unfold DataFetcher._fetch_alpha_vantage. rewrite Hkey, Hdl.
    unfold DataFetcher.non_empty. by rewrite He.
Qed.

(** X16. [fetch_data] consults the providers for the attempts
    [0 .. retries-1] only: two networks that answer alike during those
    attempts give the same result; with [retries <= 0] no provider is
    asked and the result is [(None, "failed")]. *)
Theorem fetch_data_attempt_budget
    net1 net2 self ticker start_date end_date retries delay :
  (∀ a : nat,
     Z.of_nat a < retries →
     yf_download net1 ticker start_date end_date a
       = yf_download net2 ticker start_date end_date a
     ∧ ∀ key, av_get_daily_adjusted net1 key ticker a
              = av_get_daily_adjusted net2 key ticker a) →
  DataFetcher.fetch_data net1 self ticker start_date end_date retries delay
  = DataFetcher.fetch_data net2 self ticker start_date end_date retries delay
  ∧ (retries ≤ 0 →
     DataFetcher.fetch_data net1 self ticker start_date end_date retries delay
     = (Ok (None, "failed"), self, [])).
Proof.
  intros H. split.
  - unfold DataFetcher.fetch_data.
    rewrite (AttemptFacts.attempts_loop_ext net1 net2); [done|].
    intros a Ha%elem_of_seq. apply H. lia.
  - intros Hle. unfold DataFetcher.fetch_data.
    replace (Z.to_nat retries) with 0%nat by lia. cbn.
    by rewrite FetchFacts.with_stats_id.
Qed.

(** ** The fetcher: the column labels of Alpha Vantage *)

Module RenameFacts.

Lemma av_name_cases k :
  (k, DataFetcher.av_name DataFetcher.av_names k) ∈ DataFetcher.av_names
  ∨ ((k ∉ fst <$> DataFetcher.av_names)
     ∧ DataFetcher.av_name DataFetcher.av_names k = k).
Proof.
  unfold DataFetcher.av_names. cbn [DataFetcher.av_name].
  repeat match goal with
  | |- context [String.eqb ?o k] =>
      destruct (String.eqb_spec o k) as [<-|?];
        [left; repeat first [apply list_elem_of_here
                            |apply list_elem_of_further]|]
  end.
  right. split; [|done]. cbn [fmap list_fmap fst].
  rewrite !not_elem_of_cons. repeat split; try done. apply not_elem_of_nil.
Qed.

Lemma av_names_old_unique o1 o2 n :
  (o1, n) ∈ DataFetcher.av_names → (o2, n) ∈ DataFetcher.av_names → o1 = o2.
Proof.
  unfold DataFetcher.av_names. rewrite !elem_of_cons, !elem_of_nil.
  intros H1 H2.
  repeat (destruct H1 as [H1|H1]; [injection H1 as -> ->|]); try done;
    repeat (destruct H2 as [H2|H2]; [by injection H2 as ->|]); done.
Qed.

Lemma av_names_new_unique o n1 n2 :
  (o, n1) ∈ DataFetcher.av_names → (o, n2) ∈ DataFetcher.av_names → n1 = n2.
Proof.
  unfold DataFetcher.av_names. rewrite !elem_of_cons, !elem_of_nil.
  intros H1 H2.
  repeat (destruct H1 as [H1|H1]; [injection H1 as -> ->|]); try done;
    repeat (destruct H2 as [H2|H2]; [by injection H2 as ?|]); done.
Qed.

Lemma av_name_old o n :
  (o, n) ∈ DataFetcher.av_names →
  DataFetcher.av_name DataFetcher.av_names o = n.
Proof.
  intros H. destruct (av_name_cases o) as [H'|[H' _]].
  - by eapply av_names_new_unique.
  - destruct H'. apply list_elem_of_fmap. by exists (o, n).
Qed.

(** On a table that has none of the canonical names yet, no two columns
    are given the same name. *)
Lemma av_name_inj (m : gmap string (list float)) k1 k2 :
  (∀ new, new ∈ (snd <$> DataFetcher.av_names) → m !! new = None) →
  is_Some (m !! k1) → is_Some (m !! k2) →
  DataFetcher.av_name DataFetcher.av_names k1
    = DataFetcher.av_name DataFetcher.av_names k2 →
  k1 = k2.
Proof.
  intros Hfresh [v1 H1] [v2 H2] Heq.
  assert (Hnew : ∀ o n k, (o, n) ∈ DataFetcher.av_names → is_Some (m !! k) →
                          k ≠ n).
  { intros o n k Hin [v Hk] ->. rewrite Hfresh in Hk; [done|].
    apply list_elem_of_fmap. by exists (o, n). }
  destruct (av_name_cases k1) as [Hc1|[_ Hc1]],
           (av_name_cases k2) as [Hc2|[_ Hc2]].
  - rewrite Heq in Hc1. by eapply av_names_old_unique.
  - rewrite Heq, Hc2 in Hc1. by destruct (Hnew _ _ k2 Hc1).
  - rewrite <- Heq, Hc1 in Hc2. by destruct (Hnew _ _ k1 Hc2).
  - congruence.
Qed.

Lemma rename_lookup_Some df k v :
  (∀ new, new ∈ (snd <$> DataFetcher.av_names) → columns df !! new = None) →
  columns df !! k = Some v →
  columns (DataFetcher.rename df)
    !! DataFetcher.av_name DataFetcher.av_names k = Some v.
Proof.
  intros Hfresh Hk. unfold DataFetcher.rename. cbn [columns].
  rewrite PdFacts.map_fmap. apply elem_of_list_to_map_1'.
  - intros y ([k' v'] & [= Hn ->] & Hin%elem_of_map_to_list)%list_elem_of_fmap.
    cbn [fst] in Hn.
    assert (k = k') as <- by (by eapply (av_name_inj (columns df))).
    congruence.
  - apply list_elem_of_fmap. exists (k, v). split; [done|].
    by apply elem_of_map_to_list.
Qed.

Lemma rename_lookup_None df k' :
  (∀ k, is_Some (columns df !! k) →
        DataFetcher.av_name DataFetcher.av_names k ≠ k') →
  columns (DataFetcher.rename df) !! k' = None.
Proof.
  intros H. unfold DataFetcher.rename. cbn [columns].
  rewrite PdFacts.map_fmap. apply not_elem_of_list_to_map_1.
  rewrite <- list_fmap_compose.
  intros ([k v] & Hk & Hin%elem_of_map_to_list)%list_elem_of_fmap.
  cbn in Hk. by destruct (H k).
Qed.

End RenameFacts.

(** X17. The renaming applied to an Alpha Vantage table that has none of
    the canonical names yet: the index is kept, each of the six provider
    labels gives its column to the canonical name, and every column under
    another name stays where it is. The adjusted close arrives as
    [Adj Close], with a space. *)
Theorem rename_moves_provider_columns df :
  (∀ new, new ∈ (snd <$> DataFetcher.av_names) → columns df !! new = None) →
  index (DataFetcher.rename df) = index df
  ∧ (∀ old new, (old, new) ∈ DataFetcher.av_names →
       columns (DataFetcher.rename df) !! new = columns df !! old
       ∧ columns (DataFetcher.rename df) !! old = None)
  ∧ (∀ k, k ∉ (fst <$> DataFetcher.av_names) → k ∉ (snd <$> DataFetcher.av_names) →
       columns (DataFetcher.rename df) !! k = columns df !! k)
  ∧ ("5. adjusted close", "Adj Close") ∈ DataFetcher.av_names.
Proof.
  intros Hfresh.
  assert (Hpre : ∀ k k', is_Some (columns df !! k) →
            DataFetcher.av_name DataFetcher.av_names k = k' →
            (k, k') ∈ DataFetcher.av_names
            ∨ (k = k' ∧ k' ∉ (fst <$> DataFetcher.av_names))).
  { intros k k' _ <-. destruct (RenameFacts.av_name_cases k) as [?|[? Hk]];
      [by left|right]. by rewrite Hk. }
  split; [done|]. split; [|split].
  - intros old new Hin. split.
    + destruct (columns df !! old) as [v|] eqn:Hold.
      * rewrite <- (RenameFacts.av_name_old _ _ Hin).
        by apply RenameFacts.rename_lookup_Some.
      * apply RenameFacts.rename_lookup_None. intros k Hk Hn.
        destruct (Hpre _ _ Hk Hn) as [Hin'|[-> _]].
        -- rewrite (RenameFacts.av_names_old_unique _ _ _ Hin' Hin) in Hk.
           rewrite Hold in Hk. by destruct Hk.
        -- rewrite Hfresh in Hk; [by destruct Hk|].
           apply list_elem_of_fmap. by exists (old, new).
    + apply RenameFacts.rename_lookup_None. intros k Hk Hn.
      destruct (Hpre _ _ Hk Hn) as [Hin'|[_ Hno]].
      * rewrite Hfresh in Hk; [by destruct Hk|].
        revert Hin Hin'. clear. unfold DataFetcher.av_names.
        rewrite !elem_of_cons, !elem_of_nil. intros H1 H2.
        repeat (destruct H1 as [H1|H1]; [injection H1 as -> ->|]); try done;
          repeat (destruct H2 as [H2|H2]; [by injection H2 as ?|]); done.
      * destruct Hno. apply list_elem_of_fmap. by exists (old, new).
  - intros k Hold Hnew.
    destruct (columns df !! k) as [v|] eqn:Hk.
    + destruct (RenameFacts.av_name_cases k) as [Hin|[_ Hid]].
      * destruct Hold. apply list_elem_of_fmap.
        by exists (k, DataFetcher.av_name DataFetcher.av_names k).
      * rewrite <- Hid at 1. by apply RenameFacts.rename_lookup_Some.
    + apply RenameFacts.rename_lookup_None. intros k0 Hk0 Hn.
      destruct (Hpre _ _ Hk0 Hn) as [Hin'|[-> _]].
      * destruct Hnew. apply list_elem_of_fmap. by exists (k0, k).
      * rewrite Hk in Hk0. by destruct Hk0.
  - unfold DataFetcher.av_names.
    repeat first [apply list_elem_of_here | apply list_elem_of_further].
Qed.

(** ** From the store and back into it *)


(** ** Concurrent callers: who holds the lock *)

Module LockFacts.
Import Concurrent.

Lemma thread_step_length tid c p s :
  length (pcs (thread_step tid c p s)) = length (pcs s).
Proof.
  destruct p as [| | |recs last_date|last_date|res|res];
    cbn [thread_step]; unfold set_pc;
    repeat match goal with
    | |- context [match ?x with _ => _ end] => destruct x
    end; cbn [pcs]; by rewrite ?length_insert.
Qed.

Lemma run_length calls schedule s :
  length (pcs (run calls schedule s)) = length (pcs s).
Proof.
  unfold run. revert s.
  induction schedule as [|tid rest IH]; intros s; cbn [fold_left]; [done|].
  rewrite IH. unfold step.
  destruct (calls !! tid); [|done]. destruct (pcs s !! tid); [|done].
  apply thread_step_length.
Qed.

End LockFacts.

(** X19. In every state that concurrent [update_ticker_data] calls can
    reach, the lock is held by a caller exactly when that caller is between
    line 108 and the end of the [with] block; so once every caller has
    returned or raised, the lock is free, whether the calls ended well or
    with an exception. No caller is ever added or lost. *)
Theorem lock_held_iff_inside d h calls schedule :
  let s := Concurrent.run calls schedule (Concurrent.initial d h calls) in
  (∀ tid,
     Concurrent.lock s = Some tid
     ↔ ∃ p, Concurrent.pcs s !! tid = Some p
            ∧ Concurrent.in_section p = true)
  ∧ ((∀ tid p, Concurrent.pcs s !! tid = Some p →
               ∃ res, p = Concurrent.Finished res) →
     Concurrent.lock s = None)
  ∧ length (Concurrent.pcs s) = length calls.
Proof.
  intros s.
  destruct (ConcurrentFacts.inv_run calls schedule _
              (ConcurrentFacts.inv_initial d h calls))
    as [I1 I2 _ _ _].
  fold s in I1, I2.
  split; [|split].
  - intros tid. split.
    + intros Hl. by destruct (I2 _ Hl) as [? _].
    + intros (p & Hp & Hin). by eapply I1.
  - intros Hall. destruct (Concurrent.lock s) as [tid|] eqn:Hl; [|done].
    destruct (I2 _ eq_refl) as [(p & Hp & Hin) _].
    destruct (Hall _ _ Hp) as [res ->]. discriminate Hin.
  - unfold s. rewrite LockFacts.run_length. cbn. by rewrite length_map.
Qed.

(** ** Concurrent callers: the calls as a sequence *)

Module SerialFacts.
Import Concurrent.

Lemma one_by_one_snoc calls order tid c st :
  calls !! tid = Some c →
  Notions.one_by_one calls (order ++ [tid]) st
  = (snd (fst (StockDatabase.update_ticker_data
                 (fst (Notions.one_by_one calls order st))
                 (snd (Notions.one_by_one calls order st))
                 (c_ticker c) (c_data c) (c_source c))),
     snd (StockDatabase.update_ticker_data
            (fst (Notions.one_by_one calls order st))
            (snd (Notions.one_by_one calls order st))
            (c_ticker c) (c_data c) (c_source c))).
Proof.
  intros Hc. unfold Notions.one_by_one, Notions.update_all.
  rewrite omap_app, fold_left_app. cbn [omap list_omap]. rewrite Hc.
  reflexivity.
Qed.

(** A call on a missing or an empty frame leaves store and heap alone. *)
Lemma update_ticker_data_idle self (h : gmap nat DataFrame) ticker data source :
  match h !! data with
  | Some df => Df.empty df = true
  | None => True
  end →
  StockDatabase.update_ticker_data self h ticker data source
  = (match h !! data with
     | Some _ => Ok false
     | None => Raise NullReference
     end, self, h).
Proof.
  unfold StockDatabase.update_ticker_data.
  destruct (h !! data) as [df|]; [|done]. by intros ->.
Qed.

Lemma run_lines_not_empty df :
  Df.empty df = false →
  Df.empty (snd (StockDatabase.run_lines StockDatabase.indicator_lines df))
  = false.
Proof.
  intros He. destruct (Df.getitem df "Close") as [c|e] eqn:Hc.
  - rewrite (StoreFacts.run_indicator_lines _ _ Hc).
    by apply StoreFacts.with_indicators_not_empty.
  - by rewrite (StoreFacts.run_indicator_lines_no_close _ _ Hc).
Qed.

Lemma with_stocks_id d : with_stocks d (StockDatabase.stocks d) = d.
Proof. by destruct d. Qed.

Lemma progress_alike c p st s :
  Notions.progress c p st s → Notions.alike (hp s) (snd st).
Proof.
  intros (df & Hdf & He & Hp) k.
  assert (Hins :
    hp s = <[c_data c := snd (StockDatabase.run_lines
                                StockDatabase.indicator_lines df)]> (snd st) →
    match hp s !! k, snd st !! k with
    | Some a, Some b => Df.empty a = Df.empty b
    | None, None => True
    | _, _ => False
    end).
  { intros ->. destruct (decide (k = c_data c)) as [->|Hne].
    - rewrite lookup_insert_eq, Hdf, He. by apply run_lines_not_empty.
    - rewrite lookup_insert_ne by done. by destruct (snd st !! k). }
  destruct p; cbn zeta in Hp; try done.
  - destruct Hp as [_ ->]. by destruct (snd st !! k).
  - destruct Hp as (_ & done & dl & _ & _ & _ & _ & H). by apply Hins.
  - destruct Hp as (_ & done & dl & _ & _ & _ & _ & H). by apply Hins.
  - destruct Hp as [H _]. by apply Hins.
Qed.

Lemma linearized_alike calls d h s order :
  Notions.linearized calls d h s order →
  Notions.alike (hp s) (snd (Notions.one_by_one calls order (d, h))).
Proof.
  intros L. destruct (lock s) as [t|] eqn:Hl.
  - destruct (Notions.lin_held _ _ _ _ _ L t Hl) as (c & p & _ & _ & Hp).
    by eapply progress_alike.
  - rewrite <- (Notions.lin_free _ _ _ _ _ L Hl). cbn [snd].
    intros k. by destruct (hp s !! k).
Qed.

(** A caller that leaves at line 105 or finds no frame: its call, made
    after the callers [order], changes nothing. *)
Lemma idle_call (h1 : gmap nat DataFrame) st c :
  Notions.alike h1 (snd st) →
  match h1 !! c_data c with
  | Some df => Df.empty df = true
  | None => True
  end →
  StockDatabase.update_ticker_data (fst st) (snd st)
    (c_ticker c) (c_data c) (c_source c)
  = (match h1 !! c_data c with
     | Some _ => Ok false
     | None => Raise NullReference
     end, fst st, snd st).
Proof.
  intros Ha Hidle. specialize (Ha (c_data c)).
  rewrite update_ticker_data_idle.
  - destruct (h1 !! c_data c), (snd st !! c_data c); done.
  - destruct (h1 !! c_data c), (snd st !! c_data c); try done. congruence.
Qed.

Lemma finished_keep (ps : list pc) tid p p' (order : list nat) :
  ps !! tid = Some p →
  (∀ res, p ≠ Finished res) → (∀ res, p' ≠ Finished res) →
  (∀ t, t ∈ order ↔ ∃ res, ps !! t = Some (Finished res)) →
  ∀ t, t ∈ order ↔ ∃ res, <[tid := p']> ps !! t = Some (Finished res).
Proof.
  intros Hp Hn Hn' H t. pose proof (lookup_lt_Some _ _ _ Hp) as Hlt.
  rewrite H. destruct (decide (t = tid)) as [->|Hne].
  - rewrite list_lookup_insert_eq by done. rewrite Hp.
    split; intros [res [= ->]]; [by destruct (Hn res)|by destruct (Hn' res)].
  - by rewrite list_lookup_insert_ne by done.
Qed.

Lemma finished_add (ps : list pc) tid p r (order : list nat) :
  ps !! tid = Some p → (∀ res, p ≠ Finished res) →
  (∀ t, t ∈ order ↔ ∃ res, ps !! t = Some (Finished res)) →
  (tid ∉ order)
  ∧ ∀ t, t ∈ order ++ [tid]
         ↔ ∃ res, <[tid := Finished r]> ps !! t = Some (Finished res).
Proof.
  intros Hp Hn H. pose proof (lookup_lt_Some _ _ _ Hp) as Hlt. split.
  - intros [res Hres]%H. rewrite Hp in Hres. injection Hres as ->.
    by destruct (Hn res).
  - intros t. rewrite elem_of_app, list_elem_of_singleton, H.
    destruct (decide (t = tid)) as [->|Hne].
    + rewrite list_lookup_insert_eq by done. split; [eauto|by right].
    + rewrite list_lookup_insert_ne by done. split; [intros [?|?]; done|by left].
Qed.

Section Step.
Context (calls : list call) (d : StockDatabase.t) (h : gmap nat DataFrame).

(** A caller finishes without the lock. *)
Lemma linearized_finish_idle s order tid c :
  Notions.linearized calls d h s order →
  calls !! tid = Some c → pcs s !! tid = Some AtEntry →
  match hp s !! c_data c with
  | Some df => Df.empty df = true
  | None => True
  end →
  Notions.linearized calls d h
    (set_pc tid (Finished match hp s !! c_data c with
                          | Some _ => Ok false
                          | None => Raise NullReference
                          end) s)
    (order ++ [tid]).
Proof.
  intros L Hc Hp Hidle.
  pose proof (lookup_lt_Some _ _ _ Hp) as Hlt.
  pose proof (idle_call (hp s) _ c (linearized_alike _ _ _ _ _ L) Hidle)
    as Hcall.
  destruct (finished_add (pcs s) tid AtEntry
              match hp s !! c_data c with
              | Some _ => Ok false
              | None => Raise NullReference
              end order Hp) as [Hnew Hmem];
    [done|apply (Notions.lin_mem _ _ _ _ _ L)|].
  assert (Hsame : Notions.one_by_one calls (order ++ [tid]) (d, h)
                  = Notions.one_by_one calls order (d, h)).
  { rewrite (one_by_one_snoc _ _ _ _ _ Hc), Hcall. cbn [fst snd].
    by destruct (Notions.one_by_one calls order (d, h)). }
  destruct L as [Llen Lnd Lmem Lfree Lheld Lres Lwait].
  unfold set_pc. split; cbn [db hp lock pcs events].
  - by rewrite length_insert.
  - apply NoDup_app. split; [done|]. split; [|apply NoDup_singleton].
    intros x Hx ->%list_elem_of_singleton. done.
  - exact Hmem.
  - intros Hl. rewrite Hsame. by apply Lfree.
  - intros t Hl. destruct (Lheld t Hl) as (c' & p' & Hc' & Hp' & Hpr).
    exists c', p'. split; [done|]. split.
    + rewrite list_lookup_insert_ne; [done|]. intros <-.
      rewrite Hp in Hp'. injection Hp' as <-.
      by destruct Hpr as (? & _ & _ & ?).
    + by rewrite Hsame.
  - intros t c' res Hc' Hq. destruct (decide (t = tid)) as [->|Hne].
    + rewrite list_lookup_insert_eq in Hq by done. injection Hq as <-.
      exists order, []. split; [done|].
      rewrite Hc in Hc'. injection Hc' as <-.
      unfold Notions.result_from. by rewrite Hcall.
    + rewrite list_lookup_insert_ne in Hq by done.
      destruct (Lres _ _ _ Hc' Hq) as (o1 & o2 & -> & Hr).
      exists o1, (o2 ++ [tid]). split; [|done].
      by rewrite <- app_assoc.
  - intros t c' Hc' Hq. destruct (decide (t = tid)) as [->|Hne].
    + by rewrite list_lookup_insert_eq in Hq by done.
    + rewrite list_lookup_insert_ne in Hq by done. by eapply Lwait.
Qed.

(** A caller passes line 105 and waits for the lock. *)
Lemma linearized_wait s order tid c df :
  Notions.linearized calls d h s order →
  calls !! tid = Some c → pcs s !! tid = Some AtEntry →
  hp s !! c_data c = Some df → Df.empty df = false →
  Notions.linearized calls d h (set_pc tid AtLock s) order.
Proof.
  intros [Llen Lnd Lmem Lfree Lheld Lres Lwait] Hc Hp Hdf He.
  pose proof (lookup_lt_Some _ _ _ Hp) as Hlt.
  unfold set_pc. split; cbn [db hp lock pcs events].
  - by rewrite length_insert.
  - done.
  - by eapply finished_keep.
  - done.
  - intros t Hl. destruct (Lheld t Hl) as (c' & p' & Hc' & Hp' & Hpr).
    exists c', p'. split; [done|]. split; [|done].
    rewrite list_lookup_insert_ne; [done|]. intros <-.
    rewrite Hp in Hp'. injection Hp' as <-.
    by destruct Hpr as (? & _ & _ & ?).
  - intros t c' res Hc' Hq. destruct (decide (t = tid)) as [->|Hne].
    + by rewrite list_lookup_insert_eq in Hq by done.
    + rewrite list_lookup_insert_ne in Hq by done. by eapply Lres.
  - intros t c' Hc' Hq. destruct (decide (t = tid)) as [->|Hne].
    + rewrite Hc in Hc'. injection Hc' as <-. eauto.
    + rewrite list_lookup_insert_ne in Hq by done. by eapply Lwait.
Qed.

(** A waiting caller takes the free lock. *)
Lemma linearized_acquire s order tid c evs :
  Notions.linearized calls d h s order →
  calls !! tid = Some c → pcs s !! tid = Some AtLock →
  lock s = None →
  Notions.linearized calls d h
    {| db := db s; hp := hp s; lock := Some tid;
       pcs := <[tid := AtIndicators]> (pcs s); events := evs |}
    order.
Proof.
  intros [Llen Lnd Lmem Lfree Lheld Lres Lwait] Hc Hp Hl.
  pose proof (lookup_lt_Some _ _ _ Hp) as Hlt.
  split; cbn [db hp lock pcs events].
  - by rewrite length_insert.
  - done.
  - by eapply finished_keep.
  - done.
  - intros t [= <-]. exists c, AtIndicators. split; [done|].
    split; [by apply list_lookup_insert_eq|].
    destruct (Lwait _ _ Hc Hp) as (df & Hdf & He).
    pose proof (Lfree Hl) as Hst. exists df.
    rewrite <- Hst. cbn [fst snd db hp]. done.
  - intros t c' res Hc' Hq. destruct (decide (t = tid)) as [->|Hne].
    + by rewrite list_lookup_insert_eq in Hq by done.
    + rewrite list_lookup_insert_ne in Hq by done. by eapply Lres.
  - intros t c' Hc' Hq. destruct (decide (t = tid)) as [->|Hne].
    + by rewrite list_lookup_insert_eq in Hq by done.
    + rewrite list_lookup_insert_ne in Hq by done. by eapply Lwait.
Qed.

(** The holder of the lock moves on inside the [with] block. *)
Lemma linearized_inside s order tid c p p' d' h' evs :
  Notions.linearized calls d h s order →
  calls !! tid = Some c → pcs s !! tid = Some p →
  lock s = Some tid → in_section p' = true →
  Notions.progress c p' (Notions.one_by_one calls order (d, h))
    {| db := d'; hp := h'; lock := Some tid;
       pcs := <[tid := p']> (pcs s); events := evs |} →
  (∀ k df, hp s !! k = Some df → Df.empty df = false →
           ∃ df', h' !! k = Some df' ∧ Df.empty df' = false) →
  Notions.linearized calls d h
    {| db := d'; hp := h'; lock := Some tid;
       pcs := <[tid := p']> (pcs s); events := evs |}
    order.
Proof.
  intros [Llen Lnd Lmem Lfree Lheld Lres Lwait] Hc Hp Hl Hin Hpr Hheap.
  pose proof (lookup_lt_Some _ _ _ Hp) as Hlt.
  destruct (Lheld _ Hl) as (c0 & p0 & Hc0 & Hp0 & Hpr0).
  rewrite Hc in Hc0. injection Hc0 as <-.
  rewrite Hp in Hp0. injection Hp0 as <-.
  assert (Hsec : in_section p = true).
  { destruct Hpr0 as (? & _ & _ & Hm). by destruct p. }
  split; cbn [db hp lock pcs events].
  - by rewrite length_insert.
  - done.
  - eapply finished_keep; try done.
    + intros r ->. discriminate Hsec.
    + intros r ->. discriminate Hin.
  - done.
  - intros t [= <-]. exists c, p'. split; [done|].
    split; [by apply list_lookup_insert_eq|done].
  - intros t c' res Hc' Hq. destruct (decide (t = tid)) as [->|Hne].
    + rewrite list_lookup_insert_eq in Hq by done. injection Hq as ->.
      discriminate Hin.
    + rewrite list_lookup_insert_ne in Hq by done. by eapply Lres.
  - intros t c' Hc' Hq. destruct (decide (t = tid)) as [->|Hne].
    + rewrite list_lookup_insert_eq in Hq by done. injection Hq as ->.
      discriminate Hin.
    + rewrite list_lookup_insert_ne in Hq by done.
      destruct (Lwait _ _ Hc' Hq) as (df & Hdf & He). by eapply Hheap.
Qed.

(** The holder leaves the [with] block. *)
Lemma linearized_release s order tid c res evs :
  Notions.linearized calls d h s order →
  calls !! tid = Some c → pcs s !! tid = Some (AtExit res) →
  lock s = Some tid →
  Notions.linearized calls d h
    {| db := db s; hp := hp s; lock := None;
       pcs := <[tid := Finished res]> (pcs s); events := evs |}
    (order ++ [tid]).
Proof.
  intros [Llen Lnd Lmem Lfree Lheld Lres Lwait] Hc Hp Hl.
  pose proof (lookup_lt_Some _ _ _ Hp) as Hlt.
  destruct (Lheld _ Hl) as (c0 & p0 & Hc0 & Hp0 & Hpr0).
  rewrite Hc in Hc0. injection Hc0 as <-.
  rewrite Hp in Hp0. injection Hp0 as <-.
  destruct Hpr0 as (df & Hdf & He & _ & Hcall). cbn zeta in Hcall.
  destruct (finished_add (pcs s) tid (AtExit res) res order Hp)
    as [Hnew Hmem]; [done|done|].
  split; cbn [db hp lock pcs events].
  - by rewrite length_insert.
  - apply NoDup_app. split; [done|]. split; [|apply NoDup_singleton].
    intros x Hx ->%list_elem_of_singleton. done.
  - exact Hmem.
  - intros _. rewrite (one_by_one_snoc _ _ _ _ _ Hc), <- Hcall. done.
  - done.
  - intros t c' res' Hc' Hq. destruct (decide (t = tid)) as [->|Hne].
    + rewrite list_lookup_insert_eq in Hq by done. injection Hq as <-.
      exists order, []. split; [done|].
      rewrite Hc in Hc'. injection Hc' as <-.
      unfold Notions.result_from. by rewrite <- Hcall.
    + rewrite list_lookup_insert_ne in Hq by done.
      destruct (Lres _ _ _ Hc' Hq) as (o1 & o2 & -> & Hr).
      exists o1, (o2 ++ [tid]). split; [|done].
      by rewrite <- app_assoc.
  - intros t c' Hc' Hq. destruct (decide (t = tid)) as [->|Hne].
    + by rewrite list_lookup_insert_eq in Hq by done.
    + rewrite list_lookup_insert_ne in Hq by done. by eapply Lwait.
Qed.

End Step.

Section Run.
Context (calls : list call) (d : StockDatabase.t) (h : gmap nat DataFrame).

Lemma linearized_initial : Notions.linearized calls d h (initial d h calls) [].
Proof.
  assert (Hpcs : ∀ tid p, pcs (initial d h calls) !! tid = Some p →
                          p = AtEntry).
  { intros tid p. cbn. rewrite PdFacts.map_fmap, list_lookup_fmap.
    destruct (calls !! tid); [|done]. by intros [= <-]. }
  split.
  - cbn. by rewrite length_map.
  - constructor.
  - intros tid. split; [by intros ?%elem_of_nil|by intros [res ?%Hpcs]].
  - done.
  - done.
  - by intros tid c res _ ?%Hpcs.
  - by intros tid c _ ?%Hpcs.
Qed.

Lemma linearized_thread_step s order tid c p :
  inv s → Notions.linearized calls d h s order →
  calls !! tid = Some c → pcs s !! tid = Some p →
  ∃ order', Notions.linearized calls d h (thread_step tid c p s) order'.
Proof.
  intros Hinv L Hc Hp.
  assert (Hholder : in_section p = true →
    lock s = Some tid
    ∧ Notions.progress c p (Notions.one_by_one calls order (d, h)) s).
  { intros Hsec. pose proof (inv_excl _ Hinv _ _ Hp Hsec) as Hl.
    split; [done|].
    destruct (Notions.lin_held _ _ _ _ _ L _ Hl) as (c0 & p0 & Hc0 & Hp0 & ?).
    congruence. }
  destruct p as [| | |recs last_date|last_date|res|res];
    cbn [thread_step].
  - (* line 105 *)
    pose proof (linearized_finish_idle calls d h s order tid c L Hc Hp) as Hidle.
    destruct (hp s !! c_data c) as [df|] eqn:Hdf.
    + destruct (Df.empty df) eqn:He.
      * exists (order ++ [tid]). by apply Hidle.
      * exists order. by apply (linearized_wait calls d h s order tid c df).
    + exists (order ++ [tid]). by apply Hidle.
  - (* line 108 *)
    destruct (lock s) as [holder|] eqn:Hl; [by exists order|].
    exists order. by apply (linearized_acquire calls d h s order tid c).
  - (* lines 112-129 and 138 *)
    destruct (Hholder eq_refl) as (Hl & df & Hdf & He & Hdb & Hhp).
    cbn zeta in Hdb, Hhp. rewrite Hhp, Hdf.
    destruct (StockDatabase.run_lines StockDatabase.indicator_lines df)
      as [err df'] eqn:Hrun.
    exists order. rewrite Hl, <- Hhp.
    assert (Hne : Df.empty df' = false).
    { pose proof (run_lines_not_empty df He) as H'. by rewrite Hrun in H'. }
    eapply (linearized_inside calls d h s order tid c AtIndicators);
      try done.
    + destruct err; [done|].
      destruct (StockDatabase.records _ _); [|done]. by destruct (last _).
    + exists df. split; [done|]. split; [done|]. cbn zeta.
      rewrite Hrun. cbn [fst snd db hp].
      assert (Hupd : ∀ res,
        res = StockDatabase.update_ticker_data
                (fst (Notions.one_by_one calls order (d, h)))
                (snd (Notions.one_by_one calls order (d, h)))
                (c_ticker c) (c_data c) (c_source c) →
        res = (let '(err, df') := (err, df') in
               let h' := <[c_data c := df']>
                           (snd (Notions.one_by_one calls order (d, h))) in
               match err with
               | Some e => (Raise e, fst (Notions.one_by_one calls order (d, h)), h')
               | None =>
                   match StockDatabase.records (c_ticker c) df' with
                   | Raise e =>
                       (Raise e, fst (Notions.one_by_one calls order (d, h)), h')
                   | Ok recs =>
                       match last (index df') with
                       | None =>
                           (Raise (IndexError "index out of bounds"),
                            fst (Notions.one_by_one calls order (d, h)), h')
                       | Some dl =>
                           (Ok true,
                            {| StockDatabase.stocks :=
                                 StockDatabase.executemany
                                   (StockDatabase.stocks
                                      (fst (Notions.one_by_one calls order (d, h))))
                                   recs;
                               StockDatabase.metadata :=
                                 StockDatabase.write_metadata
                                   (StockDatabase.metadata
                                      (fst (Notions.one_by_one calls order (d, h))))
                                   (c_ticker c) (Dt.strftime dl) (c_source c);
                               StockDatabase.lru :=
                                 StockDatabase.lru
                                   (fst (Notions.one_by_one calls order (d, h))) |},
                            h')
                       end
                   end
               end)).
      { intros res ->. unfold StockDatabase.update_ticker_data.
        by rewrite Hdf, He, Hrun. }
      rewrite Hhp, Hdb.
      destruct err as [e|].
      { split; [done|]. symmetry. by apply Hupd. }
      destruct (StockDatabase.records (c_ticker c) df') as [recs|e] eqn:Hrecs.
      2: { split; [done|]. symmetry. by apply Hupd. }
      destruct (last (index df')) as [dl|] eqn:Hlast.
      2: { split; [done|]. symmetry. by apply Hupd. }
      split; [done|]. exists [], dl. cbn [app StockDatabase.executemany fold_left].
      by rewrite with_stocks_id.
    + intros k df0 Hk Hk0. destruct (decide (k = c_data c)) as [->|Hkne].
      * rewrite lookup_insert_eq. eauto.
      * rewrite lookup_insert_ne by done. eauto.
  - (* executemany *)
    destruct (Hholder eq_refl)
      as (Hl & df & Hdf & He & Herr & done & dl & Hrecs & Hlast & -> & Hdb & Hhp).
    cbn zeta in Herr, Hrecs, Hlast, Hdb, Hhp.
    exists order. destruct recs as [|r rest].
    + unfold set_pc. rewrite Hl.
      eapply (linearized_inside calls d h s order tid c
                (AtInsert [] (Dt.strftime dl))); try done; [|eauto].
      exists df. split; [done|]. split; [done|]. cbn zeta. cbn [db hp].
      split; [done|]. exists done, dl. rewrite app_nil_r in Hrecs. done.
    + rewrite Hl.
      eapply (linearized_inside calls d h s order tid c
                (AtInsert (r :: rest) (Dt.strftime dl))); try done; [|eauto].
      exists df. split; [done|]. split; [done|]. cbn zeta. cbn [db hp].
      split; [done|]. exists (done ++ [r]), dl.
      rewrite <- app_assoc. split; [done|]. split; [done|]. split; [done|].
      split; [|done]. rewrite Hdb. unfold StockDatabase.executemany.
      rewrite fold_left_app. reflexivity.
  - (* lines 139-142 *)
    destruct (Hholder eq_refl)
      as (Hl & df & Hdf & He & Herr & done & dl & Hrecs & Hlast & -> & Hdb & Hhp).
    cbn zeta in Herr, Hrecs, Hlast, Hdb, Hhp.
    exists order. rewrite Hl.
    eapply (linearized_inside calls d h s order tid c
              (AtMetadata (Dt.strftime dl))); try done; [|eauto].
    exists df. split; [done|]. split; [done|]. cbn zeta. cbn [db hp].
    split; [done|]. rewrite Hhp, Hdb.
    unfold StockDatabase.update_ticker_data. rewrite Hdf, He.
    destruct (StockDatabase.run_lines StockDatabase.indicator_lines df)
      as [err df'] eqn:Hrun.
    cbn [fst snd] in Herr, Hrecs, Hlast. subst err.
    cbn [snd]. by rewrite Hrecs, Hlast.
  - (* leaving the with block *)
    destruct (Hholder eq_refl) as (Hl & _).
    exists (order ++ [tid]).
    by apply (linearized_release calls d h s order tid c).
  - by exists order.
Qed.

Lemma linearized_run schedule s order :
  inv s → Notions.linearized calls d h s order →
  ∃ order', Notions.linearized calls d h (run calls schedule s) order'.
Proof.
  unfold run. revert s order.
  induction schedule as [|tid rest IH]; intros s order Hinv L;
    cbn [fold_left]; [by exists order|].
  assert (Hstep : ∃ order',
    Notions.linearized calls d h (step calls tid s) order').
  { unfold step. destruct (calls !! tid) as [c|] eqn:Hc; [|by exists order].
    destruct (pcs s !! tid) as [p|] eqn:Hp; [|by exists order].
    by eapply linearized_thread_step. }
  destruct Hstep as [order' L'].
  apply (IH _ order'); [|done]. by apply ConcurrentFacts.inv_step.
Qed.

End Run.

End SerialFacts.

(** X20. Concurrent [update_ticker_data] calls on one store object are
    serializable. Whatever the schedule, the callers that have returned or
    raised can be put in an order, one entry each, such that every one of
    them got the result its call has when the calls are made one after the
    other in that order, and such that, whenever the lock is free, tables
    and frames are exactly what those calls, made one after the other,
    leave behind. Once every caller has finished, that order holds all of
    them. *)
Theorem update_calls_are_serializable d h calls schedule :
  let s := Concurrent.run calls schedule (Concurrent.initial d h calls) in
  ∃ order,
    NoDup order
    ∧ (∀ tid, tid ∈ order
              ↔ ∃ res, Concurrent.pcs s !! tid
                       = Some (Concurrent.Finished res))
    ∧ (∀ tid c res,
         calls !! tid = Some c →
         Concurrent.pcs s !! tid = Some (Concurrent.Finished res) →
         ∃ o1 o2, order = o1 ++ tid :: o2
                  ∧ res = Notions.result_from c
                            (Notions.one_by_one calls o1 (d, h)))
    ∧ (Concurrent.lock s = None →
       (Concurrent.db s, Concurrent.hp s)
       = Notions.one_by_one calls order (d, h))
    ∧ ((∀ tid p, Concurrent.pcs s !! tid = Some p →
                 ∃ res, p = Concurrent.Finished res) →
       order ≡ₚ seq 0 (length calls)
       ∧ (Concurrent.db s, Concurrent.hp s)
         = Notions.one_by_one calls order (d, h)).
Proof.
  intros s.
  destruct (SerialFacts.linearized_run calls d h schedule _ []
              (ConcurrentFacts.inv_initial d h calls)
              (SerialFacts.linearized_initial calls d h))
    as [order L].
  fold s in L. exists order.
  pose proof (ConcurrentFacts.inv_run calls schedule _
                (ConcurrentFacts.inv_initial d h calls)) as Hinv.
  fold s in Hinv.
  destruct L as [Llen Lnd Lmem Lfree Lheld Lres Lwait].
  split; [done|]. split; [done|]. split; [done|]. split; [done|].
  intros Hall.
  assert (Hfree : Concurrent.lock s = None).
  { destruct (Concurrent.lock s) as [t|] eqn:Hl; [|done].
    destruct (Concurrent.inv_holder _ Hinv _ Hl) as [(p & Hp & Hsec) _].
    destruct (Hall _ _ Hp) as [res ->]. discriminate Hsec. }
  split; [|by apply Lfree].
  apply NoDup_Permutation; [done|apply NoDup_seq|].
  intros tid. rewrite Lmem, elem_of_seq. split.
  - intros [res Hp%lookup_lt_Some]. lia.
  - intros [_ Hlt]. cbn in Hlt. rewrite <- Llen in Hlt.
    destruct (lookup_lt_is_Some_2 _ _ Hlt) as [p Hp].
    destruct (Hall _ _ Hp) as [res ->]. eauto.
Qed.

(** The two sample callers taking turns: the second finishes first, and
    the tables are those of its call followed by the first caller's. *)
Example two_callers_serialized :
  let s := Concurrent.run Examples.two_calls Examples.turns
             (Concurrent.initial StockDatabase.init Examples.two_frames
                Examples.two_calls) in
  Concurrent.pcs s
    = [Concurrent.Finished (Ok true); Concurrent.Finished (Ok true)]
  ∧ (Concurrent.db s, Concurrent.hp s)
    = Notions.one_by_one Examples.two_calls [1; 0]%nat
        (StockDatabase.init, Examples.two_frames).
Proof. split; vm_compute; reflexivity. Qed.

(** ** Concurrent callers: every call comes to an end *)

Module LiveFacts.
Import Concurrent.

Lemma step_at calls tid c p s :
  calls !! tid = Some c → pcs s !! tid = Some p →
  step calls tid s = thread_step tid c p s.
Proof. intros Hc Hp. unfold step. by rewrite Hc, Hp. Qed.

Section One.
Context (calls : list call) (tid : nat) (c : call).
Hypothesis Hc : calls !! tid = Some c.

(** One step that moves the caller from [p] to [p'], then the rest. *)
Lemma finishes_after_step s p p' :
  pcs s !! tid = Some p →
  pcs (thread_step tid c p s) = <[tid := p']> (pcs s) →
  Notions.finishes calls tid (thread_step tid c p s) →
  Notions.finishes calls tid s.
Proof.
  intros Hp Hpcs (n & res & Hl & Hfin).
  exists (S n), res. cbn [replicate run fold_left].
  rewrite (step_at _ _ _ _ _ Hc Hp). fold (run calls (replicate n tid)).
  unfold run in Hl, Hfin |- *. split; [done|].
  by rewrite Hfin, Hpcs, list_insert_insert_eq.
Qed.

Lemma finishes_exit s res :
  pcs s !! tid = Some (AtExit res) → Notions.finishes calls tid s.
Proof.
  intros Hp. exists 1%nat, res. cbn [replicate run fold_left].
  by rewrite (step_at _ _ _ _ _ Hc Hp).
Qed.

Lemma finishes_metadata s last_date :
  pcs s !! tid = Some (AtMetadata last_date) → Notions.finishes calls tid s.
Proof.
  intros Hp. pose proof (lookup_lt_Some _ _ _ Hp) as Hlt.
  eapply (finishes_after_step s _ (AtExit (Ok true))); [done|done|].
  apply (finishes_exit _ (Ok true)). cbn. by apply list_lookup_insert_eq.
Qed.

Lemma finishes_insert recs s last_date :
  pcs s !! tid = Some (AtInsert recs last_date) → Notions.finishes calls tid s.
Proof.
  revert s. induction recs as [|r rest IH]; intros s Hp;
    pose proof (lookup_lt_Some _ _ _ Hp) as Hlt.
  - eapply (finishes_after_step s _ (AtMetadata last_date)); [done|done|].
    apply (finishes_metadata _ last_date). cbn.
    by apply list_lookup_insert_eq.
  - eapply (finishes_after_step s _ (AtInsert rest last_date)); [done|done|].
    apply IH. cbn. by apply list_lookup_insert_eq.
Qed.

Lemma finishes_indicators s :
  pcs s !! tid = Some AtIndicators → Notions.finishes calls tid s.
Proof.
  intros Hp. pose proof (lookup_lt_Some _ _ _ Hp) as Hlt.
  assert (Hnext : ∃ p',
    pcs (thread_step tid c AtIndicators s) = <[tid := p']> (pcs s)
    ∧ ((∃ res, p' = AtExit res) ∨ ∃ recs last_date, p' = AtInsert recs last_date)).
  { cbn [thread_step]. destruct (hp s !! c_data c) as [df|].
    - destruct (StockDatabase.run_lines _ df) as [[e|] df']; cbn [pcs].
      + eexists. split; [done|]. left. eauto.
      + destruct (StockDatabase.records _ _) as [recs|e].
        * destruct (last _).
          -- eexists. split; [done|]. right. eauto.
          -- eexists. split; [done|]. left. eauto.
        * eexists. split; [done|]. left. eauto.
    - eexists. split; [done|]. left. eauto. }
  destruct Hnext as (p' & Hpcs & Hp').
  eapply (finishes_after_step s _ p'); [done|done|].
  assert (Hat : pcs (thread_step tid c AtIndicators s) !! tid = Some p').
  { rewrite Hpcs. by apply list_lookup_insert_eq. }
  destruct Hp' as [[res ->]|(recs & last_date & ->)].
  - by eapply finishes_exit.
  - by eapply finishes_insert.
Qed.

(** The holder of the lock, or any caller while the lock is free, comes
    to its end when it is scheduled often enough. *)
Lemma finishes_from s p :
  pcs s !! tid = Some p →
  (if in_section p then lock s = Some tid else lock s = None) →
  Notions.finishes calls tid s.
Proof.
  intros Hp Hl. pose proof (lookup_lt_Some _ _ _ Hp) as Hlt.
  destruct p as [| | |recs last_date|last_date|res|res]; cbn in Hl.
  - destruct (hp s !! c_data c) as [df|] eqn:Hdf;
      [destruct (Df.empty df) eqn:He|].
    + exists 1%nat, (Ok false). cbn [replicate run fold_left].
      rewrite (step_at _ _ _ _ _ Hc Hp). cbn [thread_step].
      by rewrite Hdf, He.
    + eapply (finishes_after_step s _ AtLock); [done| |].
      { cbn [thread_step]. by rewrite Hdf, He. }
      cbn [thread_step]. rewrite Hdf, He.
      eapply (finishes_after_step _ _ AtIndicators).
      { cbn. by apply list_lookup_insert_eq. }
      { cbn [thread_step set_pc lock]. by rewrite Hl. }
      apply finishes_indicators.
      cbn [thread_step set_pc lock]. rewrite Hl. cbn [pcs].
      apply list_lookup_insert_eq. unfold set_pc. cbn [pcs].
      by rewrite length_insert.
    + exists 1%nat, (Raise NullReference). cbn [replicate run fold_left].
      rewrite (step_at _ _ _ _ _ Hc Hp). cbn [thread_step].
      by rewrite Hdf.
  - eapply (finishes_after_step s _ AtIndicators); [done| |].
    { cbn [thread_step]. by rewrite Hl. }
    apply finishes_indicators. cbn [thread_step]. rewrite Hl. cbn [pcs].
    by apply list_lookup_insert_eq.
  - by apply finishes_indicators.
  - by eapply finishes_insert.
  - by eapply finishes_metadata.
  - by eapply finishes_exit.
  - exists 0%nat, res. cbn. split; [done|]. symmetry. by apply list_insert_id.
Qed.

End One.

(** With the lock free, the callers [todo] are run to their ends one
    after the other; who had finished stays finished. *)
Lemma finish_all calls (todo : list nat) s :
  inv s → length (pcs s) = length calls → lock s = None →
  ∃ sched,
    inv (run calls sched s)
    ∧ length (pcs (run calls sched s)) = length calls
    ∧ lock (run calls sched s) = None
    ∧ ∀ t, (t ∈ todo ∨ ∃ res, pcs s !! t = Some (Finished res)) →
           (t < length calls)%nat →
           ∃ res, pcs (run calls sched s) !! t = Some (Finished res).
Proof.
  revert s. induction todo as [|t0 todo IH]; intros s Hinv Hlen Hl.
  - exists []. cbn. split; [done|]. split; [done|]. split; [done|].
    intros t [?%elem_of_nil|?] _; done.
  - destruct (decide (t0 < length calls)%nat) as [Hlt|Hge].
    + destruct (lookup_lt_is_Some_2 calls t0 Hlt) as [c Hc].
      destruct (lookup_lt_is_Some_2 (pcs s) t0) as [p Hp]; [by rewrite Hlen|].
      assert (Hout : in_section p = false).
      { destruct (in_section p) eqn:E; [|done].
        pose proof (inv_excl _ Hinv _ _ Hp E). congruence. }
      destruct (finishes_from calls t0 c Hc s p Hp) as (n & res & Hl1 & Hpcs1);
        [by rewrite Hout|].
      destruct (IH (run calls (replicate n t0) s)) as (sched & H1 & H2 & H3 & H4).
      { by apply ConcurrentFacts.inv_run. }
      { by rewrite Hpcs1, length_insert. }
      { done. }
      exists (replicate n t0 ++ sched). rewrite SoloFacts.run_app.
      split; [done|]. split; [done|]. split; [done|].
      intros t Ht Htlt. apply H4; [|done]. rewrite Hpcs1.
      destruct (decide (t = t0)) as [->|Hne].
      * right. exists res. apply list_lookup_insert_eq. by rewrite Hlen.
      * rewrite list_lookup_insert_ne by done.
        destruct Ht as [[?|?]%elem_of_cons|?]; [done|by left|by right].
    + destruct (IH s Hinv Hlen Hl) as (sched & H1 & H2 & H3 & H4).
      exists sched. split; [done|]. split; [done|]. split; [done|].
      intros t Ht Htlt. apply H4; [|done].
      destruct Ht as [[->|?]%elem_of_cons|?]; [done|by left|by right].
Qed.

End LiveFacts.

(** X21. Concurrent [update_ticker_data] calls cannot get stuck: from
    every state that they can reach, under whatever schedule, the schedule
    can be continued so that every caller has returned or raised and the
    lock is free. The lock is given back on every path through the [with]
    block, the ones that end in an exception included. *)
Theorem every_call_can_finish d h calls schedule :
  ∃ rest,
    let s := Concurrent.run calls (schedule ++ rest)
               (Concurrent.initial d h calls) in
    (∀ tid p, Concurrent.pcs s !! tid = Some p →
              ∃ res, p = Concurrent.Finished res)
    ∧ Concurrent.lock s = None.
Proof.
  set (s0 := Concurrent.run calls schedule (Concurrent.initial d h calls)).
  assert (Hinv : Concurrent.inv s0)
    by apply ConcurrentFacts.inv_run, ConcurrentFacts.inv_initial.
  assert (Hlen : length (Concurrent.pcs s0) = length calls).
  { unfold s0. rewrite LockFacts.run_length. cbn. by rewrite length_map. }
  assert (Hfree : ∃ n tid,
    Concurrent.lock (Concurrent.run calls (replicate n tid) s0) = None).
  { destruct (Concurrent.lock s0) as [t|] eqn:Hl; [|by exists 0%nat, 0%nat].
    destruct (Concurrent.inv_holder _ Hinv _ Hl) as [(p & Hp & Hsec) _].
    destruct (lookup_lt_is_Some_2 calls t) as [c Hc].
    { rewrite <- Hlen. by eapply lookup_lt_Some. }
    destruct (LiveFacts.finishes_from calls t c Hc s0 p Hp)
      as (n & res & Hl1 & _); [by rewrite Hsec|].
    by exists n, t. }
  destruct Hfree as (n & t & Hl1).
  destruct (LiveFacts.finish_all calls (seq 0 (length calls))
              (Concurrent.run calls (replicate n t) s0))
    as (sched & _ & Hlen2 & Hl2 & Hall).
  { by apply ConcurrentFacts.inv_run. }
  { by rewrite LockFacts.run_length. }
  { done. }
  exists (replicate n t ++ sched). cbn zeta.
  rewrite !SoloFacts.run_app. fold s0. split; [|done].
  intros tid p Hp. pose proof (lookup_lt_Some _ _ _ Hp) as Hlt.
  rewrite Hlen2 in Hlt.
  destruct (Hall tid) as [res Hres]; [|done|].
  - left. apply elem_of_seq. lia.
  - rewrite Hp in Hres. injection Hres as ->. eauto.
Qed.

(** ** The fetcher: the usage counters over many calls *)

Module CounterFacts.

(** One call on a fetcher with both counters: it returns, it does not
    sleep, and the counter of the source it names, and no other, has gone
    up by one. *)
Lemma fetch_data_counts net self ticker s e retries delay ny na :
  DataFetcher.source_stats self !! "yfinance" = Some ny →
  DataFetcher.source_stats self !! "alpha_vantage" = Some na →
  ∃ res self',
    DataFetcher.fetch_data net self ticker s e retries delay
    = (Ok res, self', [])
    ∧ DataFetcher.source_stats self' !! "yfinance"
      = Some (ny + if Notions.returned "yfinance" (Ok res, []) then 1 else 0)
    ∧ DataFetcher.source_stats self' !! "alpha_vantage"
      = Some (na + if Notions.returned "alpha_vantage" (Ok res, [])
                   then 1 else 0).
Proof.
  intros Hy Ha. unfold DataFetcher.fetch_data.
  assert (G : ∀ attempts st,
    DataFetcher.stats st !! "yfinance" = Some ny →
    DataFetcher.stats st !! "alpha_vantage" = Some na →
    match DataFetcher.attempts_loop net self ticker s e delay attempts st with
    | DataFetcher.Return df src st' =>
        DataFetcher.slept st' = DataFetcher.slept st
        ∧ (src = "yfinance"
           ∧ DataFetcher.stats st'
             = <["yfinance" := ny + 1]> (DataFetcher.stats st)
           ∨ src = "alpha_vantage"
             ∧ DataFetcher.stats st'
               = <["alpha_vantage" := na + 1]> (DataFetcher.stats st))
    | DataFetcher.Continue st' =>
        DataFetcher.slept st' = DataFetcher.slept st
        ∧ DataFetcher.stats st' = DataFetcher.stats st
    | DataFetcher.Throw _ _ => False
    end).
  { induction attempts as [|a rest IH]; intros st Hy' Ha';
      cbn [DataFetcher.attempts_loop]; [done|].
    rewrite (AttemptFacts.sources_loop_spec net self ticker s e delay a st
               ny na Hy' Ha').
    destruct (DataFetcher._fetch_yfinance _ _ _ _ _) as [df|];
      [split; [done|]; by left|].
    destruct (DataFetcher._fetch_alpha_vantage _ _ _ _) as [df|];
      [split; [done|]; by right|].
    exact (IH {| DataFetcher.stats := DataFetcher.stats st;
                 DataFetcher.data := DataFetcher.Bound None;
                 DataFetcher.slept := DataFetcher.slept st |} Hy' Ha'). }
  specialize (G (seq 0 (Z.to_nat retries))
                {| DataFetcher.stats := DataFetcher.source_stats self;
                   DataFetcher.data := DataFetcher.Unbound;
                   DataFetcher.slept := [] |} Hy Ha).
  destruct (DataFetcher.attempts_loop _ _ _ _ _ _ _ _)
    as [df src st'|st'|err st']; [| |done].
  - destruct G as [Hs [[-> Hst]|[-> Hst]]]; cbn in Hs, Hst; rewrite Hs, Hst;
      eexists _, _; (split; [reflexivity|]);
      cbn [DataFetcher.source_stats DataFetcher.with_stats Notions.returned fst].
    + change (String.eqb "yfinance" "yfinance") with true.
      change (String.eqb "yfinance" "alpha_vantage") with false.
      rewrite lookup_insert_eq, lookup_insert_ne by done.
      by rewrite Ha, Z.add_0_r.
    + change (String.eqb "alpha_vantage" "yfinance") with false.
      change (String.eqb "alpha_vantage" "alpha_vantage") with true.
      rewrite lookup_insert_eq, lookup_insert_ne by done.
      by rewrite Hy, Z.add_0_r.
  - destruct G as [Hs Hst]; cbn in Hs, Hst; rewrite Hs, Hst.
    eexists _, _. split; [reflexivity|].
    cbn [DataFetcher.source_stats DataFetcher.with_stats Notions.returned fst].
    by rewrite Hy, Ha, !Z.add_0_r.
Qed.

Lemma fetch_all_counts reqs self ny na :
  DataFetcher.source_stats self !! "yfinance" = Some ny →
  DataFetcher.source_stats self !! "alpha_vantage" = Some na →
  DataFetcher.source_stats (snd (Notions.fetch_all reqs self)) !! "yfinance"
    = Some (ny + Notions.count_source "yfinance"
                   (fst (Notions.fetch_all reqs self)))
  ∧ DataFetcher.source_stats (snd (Notions.fetch_all reqs self))
      !! "alpha_vantage"
    = Some (na + Notions.count_source "alpha_vantage"
                   (fst (Notions.fetch_all reqs self)))
  ∧ Forall (fun o => (∃ res, fst o = Ok res) ∧ snd o = [])
           (fst (Notions.fetch_all reqs self)).
Proof.
  revert self ny na. induction reqs as [|r rest IH]; intros self ny na Hy Ha.
  - cbn. rewrite !Z.add_0_r. done.
  - cbn [Notions.fetch_all fst snd Notions.count_source].
    destruct (fetch_data_counts (Notions.r_net r) self (Notions.r_ticker r)
                (Notions.r_start r) (Notions.r_end r) (Notions.r_retries r)
                (Notions.r_delay r) ny na Hy Ha)
      as (res & self' & -> & Hy' & Ha').
    cbn [fst snd]. destruct (IH self' _ _ Hy' Ha') as (Hy2 & Ha2 & Hall).
    rewrite Hy2, Ha2. split; [f_equal; lia|]. split; [f_equal; lia|].
    constructor; [|done]. cbn. eauto.
Qed.

End CounterFacts.

(** X22. The usage counters count the calls that brought data: on a
    fetcher made by [__init__] and used for any number of [fetch_data]
    calls, whatever the providers answer, every call returns without
    raising and without sleeping, and afterwards [get_source_stats] holds,
    for each of the two sources, the number of calls that returned data
    under the label of that source. *)
Theorem source_stats_count_the_fetches key reqs :
  let out := fst (Notions.fetch_all reqs (DataFetcher.init key)) in
  let self' := snd (Notions.fetch_all reqs (DataFetcher.init key)) in
  DataFetcher.get_source_stats self' !! "yfinance"
    = Some (Notions.count_source "yfinance" out)
  ∧ DataFetcher.get_source_stats self' !! "alpha_vantage"
    = Some (Notions.count_source "alpha_vantage" out)
  ∧ Forall (fun o => (∃ res, fst o = Ok res) ∧ snd o = []) out.
Proof.
  intros out self'.
  apply (CounterFacts.fetch_all_counts reqs (DataFetcher.init key) 0 0);
    reflexivity.
Qed.

(** Three calls on one fetcher: one answered by yfinance, one by no
    source, one by Alpha Vantage. *)
Example three_fetches_counted :
  let reqs :=
    [ {| Notions.r_net := Examples.net_up; Notions.r_ticker := "AAPL";
         Notions.r_start := None; Notions.r_end := "2024-01-10";
         Notions.r_retries := 3; Notions.r_delay := 5 |};
      {| Notions.r_net := Examples.net_down; Notions.r_ticker := "MSFT";
         Notions.r_start := None; Notions.r_end := "2024-01-10";
         Notions.r_retries := 3; Notions.r_delay := 5 |};
      {| Notions.r_net := Examples.net_second; Notions.r_ticker := "X";
         Notions.r_start := None; Notions.r_end := "2024-01-10";
         Notions.r_retries := 3; Notions.r_delay := 5 |} ] in
  let self' := snd (Notions.fetch_all reqs (DataFetcher.init (Some "key"))) in
  DataFetcher.get_source_stats self' !! "yfinance" = Some 1
  ∧ DataFetcher.get_source_stats self' !! "alpha_vantage" = Some 1
  ∧ map (fun o => match fst o with
                   | Ok res => snd res
                   | Raise e => str_exn e
                   end)
        (fst (Notions.fetch_all reqs (DataFetcher.init (Some "key"))))
    = ["yfinance"; "failed"; "alpha_vantage"].
Proof. repeat split; vm_compute; reflexivity. Qed.

(** ** Callers on several objects: the lock of each object *)

Module SliceFacts.
Import Concurrent.

Lemma imap_insert {A B} (f : nat → A → B) (l : list A) (i : nat) x :
  imap f (<[i := x]> l) = <[i := f i x]> (imap f l).
Proof.
  apply list_eq. intros j. rewrite list_lookup_imap.
  destruct (decide (j = i)) as [->|Hne].
  - destruct (decide (i < length l)%nat) as [Hlt|Hge].
    + rewrite !list_lookup_insert_eq by (rewrite ?length_imap; done). done.
    + rewrite !list_insert_ge by (rewrite ?length_imap; lia).
      by rewrite list_lookup_imap.
  - rewrite !list_lookup_insert_ne by done. by rewrite list_lookup_imap.
Qed.

(** Meet a second state with the same tables, heap and lock. *)
Local Ltac other_state :=
  let Hp2 := fresh "Hp2" in
  intros [? ? ? ? ?]; cbn [thread_step db hp lock pcs events set_pc];
  intros -> -> -> Hp2.

(** A step reads the tables, the heap, the lock and the caller's own
    position; of the positions it changes the caller's own, and to the
    events it adds at most one of the caller's. *)
Lemma thread_step_frame tid c p s :
  ∃ p' evs,
    (evs = [] ∨ ∃ e, evs = [(tid, e)])
    ∧ ∀ s2,
        db s2 = db s → hp s2 = hp s → lock s2 = lock s →
        pcs s2 !! tid = Some p →
        thread_step tid c p s2
        = {| db := db (thread_step tid c p s);
             hp := hp (thread_step tid c p s);
             lock := lock (thread_step tid c p s);
             pcs := <[tid := p']> (pcs s2);
             events := evs ++ events s2 |}.
Proof.
  destruct s as [d h l ps ev].
  destruct p as [| | |recs last_date|last_date|res|res];
    cbn [thread_step db hp lock pcs events set_pc].
  - destruct (h !! c_data c) as [df|] eqn:Hdf;
      [destruct (Df.empty df) eqn:He|];
      eexists _, []; (split; [by left|]); other_state;
      by rewrite Hdf, ?He.
  - destruct l as [holder|].
    + exists AtLock, []. split; [by left|].
      other_state.
      by rewrite list_insert_id.
    + exists AtIndicators, [(tid, Acquire)]. split; [right; eauto|].
      by other_state.
  - destruct (h !! c_data c) as [df|] eqn:Hdf.
    + destruct (StockDatabase.run_lines StockDatabase.indicator_lines df)
        as [err df'] eqn:Hrun.
      eexists _, []. split; [by left|].
      other_state.
      rewrite Hdf, Hrun. reflexivity.
    + eexists _, []. split; [by left|].
      other_state.
      by rewrite Hdf.
  - destruct recs as [|r rest].
    + eexists _, []. split; [by left|].
      by other_state.
    + eexists _, [(tid, BarWrite (fst r))]. split; [right; eauto|].
      by other_state.
  - eexists _, [(tid, MetaWrite (c_ticker c))]. split; [right; eauto|].
    by other_state.
  - eexists _, [(tid, Release)]. split; [right; eauto|].
    by other_state.
  - exists (Finished res), []. split; [by left|].
    other_state.
    by rewrite list_insert_id.
Qed.

(** The invariant of the callers of one lock does not look at the tables
    or the heap. *)
Lemma inv_frame s s' :
  lock s' = lock s → pcs s' = pcs s → events s' = events s →
  inv s → inv s'.
Proof.
  intros Hl Hp He [I1 I2 I3 I4 I5].
  split; rewrite ?Hl, ?Hp, ?He; done.
Qed.

Section Slice.
Context (calls : list Objects.call) (o : nat).

Lemma slice_lookup s tid c p :
  calls !! tid = Some c → Objects.c_object c = o →
  Objects.pcs s !! tid = Some p →
  pcs (Objects.slice calls o s) !! tid = Some p.
Proof.
  intros Hc Ho Hp. cbn. rewrite list_lookup_imap, Hp. cbn.
  unfold Objects.on. by rewrite Hc, Ho, Nat.eqb_refl.
Qed.

Lemma slice_initial d h :
  inv (Objects.slice calls o (Objects.initial d h calls)).
Proof.
  assert (Hpcs : ∀ tid p,
    pcs (Objects.slice calls o (Objects.initial d h calls)) !! tid = Some p →
    in_section p = false ∧ p ≠ AtLock).
  { intros tid p. cbn. rewrite list_lookup_imap, PdFacts.map_fmap,
      list_lookup_fmap.
    destruct (calls !! tid); [|done]. cbn.
    destruct (Objects.on calls o tid); by intros [= <-]. }
  split.
  - intros tid p Hp Hin. destruct (Hpcs _ _ Hp). congruence.
  - done.
  - intros. cbn. apply not_elem_of_nil.
  - constructor.
  - intros i ?? H. cbn in H. by rewrite lookup_nil in H.
Qed.

(** A step of a caller of [o] is, for what concerns the lock of [o], a
    step of that caller among the callers of one lock. *)
Lemma slice_step_on tid c p s :
  calls !! tid = Some c → Objects.c_object c = o →
  Objects.pcs s !! tid = Some p →
  Objects.slice calls o (Objects.step calls tid s)
  = thread_step tid (Objects.c_call c) p (Objects.slice calls o s).
Proof.
  intros Hc Ho Hp. unfold Objects.step. rewrite Hc, Hp, Ho.
  assert (Hon : Objects.on calls o tid = true).
  { unfold Objects.on. by rewrite Hc, Ho, Nat.eqb_refl. }
  destruct (thread_step_frame tid (Objects.c_call c) p (Objects.view o s))
    as (p' & evs & Hevs & Hframe).
  rewrite (Hframe (Objects.slice calls o s)); try done;
    [|by eapply slice_lookup].
  pose proof (Hframe (Objects.view o s) eq_refl eq_refl eq_refl Hp) as Hself.
  set (r := thread_step tid (Objects.c_call c) p (Objects.view o s)) in *.
  unfold Objects.slice, Objects.commit.
  cbn [Objects.db Objects.hp Objects.locks Objects.pcs Objects.events].
  f_equal.
  - destruct (lock r); [apply lookup_insert_eq|apply lookup_delete_eq].
  - rewrite Hself. cbn [pcs Objects.view]. rewrite imap_insert.
    by rewrite Hon.
  - rewrite Hself. cbn [events Objects.view]. rewrite List.filter_app.
    f_equal. destruct Hevs as [->|[e ->]]; [done|]. cbn. by rewrite Hon.
Qed.

(** A step of a caller of another object leaves what concerns the lock of
    [o] as it is, tables and heap apart. *)
Lemma slice_step_off tid c p s :
  calls !! tid = Some c → Objects.c_object c ≠ o →
  Objects.pcs s !! tid = Some p →
  lock (Objects.slice calls o (Objects.step calls tid s))
    = lock (Objects.slice calls o s)
  ∧ pcs (Objects.slice calls o (Objects.step calls tid s))
    = pcs (Objects.slice calls o s)
  ∧ events (Objects.slice calls o (Objects.step calls tid s))
    = events (Objects.slice calls o s).
Proof.
  intros Hc Ho Hp. unfold Objects.step. rewrite Hc, Hp.
  assert (Hoff : Objects.on calls o tid = false).
  { unfold Objects.on. rewrite Hc. by apply Nat.eqb_neq. }
  destruct (thread_step_frame tid (Objects.c_call c) p
              (Objects.view (Objects.c_object c) s))
    as (p' & evs & Hevs & Hframe).
  pose proof (Hframe _ eq_refl eq_refl eq_refl Hp) as Hself.
  set (r := thread_step tid (Objects.c_call c) p
              (Objects.view (Objects.c_object c) s)) in *.
  unfold Objects.slice, Objects.commit.
  cbn [lock pcs events Objects.db Objects.hp Objects.locks Objects.pcs
       Objects.events].
  split; [|split].
  - destruct (lock r);
      [by rewrite lookup_insert_ne|by rewrite lookup_delete_ne].
  - rewrite Hself. cbn [pcs Objects.view]. rewrite imap_insert, Hoff.
    apply list_insert_id. rewrite list_lookup_imap, Hp. cbn.
    by rewrite Hoff.
  - rewrite Hself. cbn [events Objects.view]. rewrite List.filter_app.
    destruct Hevs as [->|[e ->]]; [done|]. cbn. by rewrite Hoff.
Qed.

Lemma slice_step tid s :
  inv (Objects.slice calls o s) →
  inv (Objects.slice calls o (Objects.step calls tid s)).
Proof.
  intros Hinv.
  destruct (calls !! tid) as [c|] eqn:Hc;
    [|unfold Objects.step; by rewrite Hc].
  destruct (Objects.pcs s !! tid) as [p|] eqn:Hp;
    [|unfold Objects.step; by rewrite Hc, Hp].
  destruct (decide (Objects.c_object c = o)) as [Ho|Ho].
  - rewrite (slice_step_on _ _ _ _ Hc Ho Hp).
    apply ConcurrentFacts.inv_thread_step; [done|].
    by eapply slice_lookup.
  - destruct (slice_step_off _ _ _ _ Hc Ho Hp) as (Hl & Hps & Hev).
    by eapply inv_frame.
Qed.

Lemma slice_run schedule s :
  inv (Objects.slice calls o s) →
  inv (Objects.slice calls o (Objects.run calls schedule s)).
Proof.
  unfold Objects.run. revert s.
  induction schedule as [|tid rest IH]; intros s H; cbn [fold_left]; [done|].
  apply IH. by apply slice_step.
Qed.

End Slice.

End SliceFacts.

(** X23. The lock is one per store object. Whatever the number of objects
    opened on the file and whatever the schedule, of the callers of any
    one object at most one is inside the [with] block of line 108, and it
    holds the lock of that object; and in the trace of the lock operations
    and table writes of the callers of that object, the events of each
    call lie next to each other and every write lies after its caller's
    acquire. Callers of different objects are not kept apart. *)
Theorem callers_of_each_object_excluded d h calls schedule o :
  let s := Objects.run calls schedule (Objects.initial d h calls) in
  (∀ tid c p,
     calls !! tid = Some c → Objects.c_object c = o →
     Objects.pcs s !! tid = Some p →
     Concurrent.in_section p = true →
     Objects.locks s !! o = Some tid)
  ∧ (∀ tid tid' c c' p p',
       calls !! tid = Some c → calls !! tid' = Some c' →
       Objects.c_object c = o → Objects.c_object c' = o →
       Objects.pcs s !! tid = Some p →
       Objects.pcs s !! tid' = Some p' →
       Concurrent.in_section p = true →
       Concurrent.in_section p' = true →
       tid = tid')
  ∧ Concurrent.contiguous
      (List.filter (fun e => Objects.on calls o (fst e)) (Objects.events s))
  ∧ Concurrent.under_lock
      (List.filter (fun e => Objects.on calls o (fst e)) (Objects.events s)).
Proof.
  intros s.
  destruct (SliceFacts.slice_run calls o schedule _
              (SliceFacts.slice_initial calls o d h))
    as [I1 _ _ I4 I5].
  fold s in I1, I4, I5.
  assert (Hexcl : ∀ tid c p,
     calls !! tid = Some c → Objects.c_object c = o →
     Objects.pcs s !! tid = Some p →
     Concurrent.in_section p = true →
     Objects.locks s !! o = Some tid).
  { intros tid c p Hc Ho Hp Hin.
    apply (I1 tid p); [|done]. by eapply SliceFacts.slice_lookup. }
  split; [done|]. split.
  - intros tid tid' c c' p p' Hc Hc' Ho Ho' Hp Hp' Hin Hin'.
    pose proof (Hexcl _ _ _ Hc Ho Hp Hin).
    pose proof (Hexcl _ _ _ Hc' Ho' Hp' Hin'). congruence.
  - split; [by apply ConcurrentFacts.serial_contiguous|done].
Qed.

(** ** The further properties at sample inputs *)

(** A sample frame has each of the columns asked for. *)
Local Ltac each_column Hn :=
  repeat (apply elem_of_cons in Hn as [->|Hn]; [vm_compute; reflexivity|]);
  by apply elem_of_nil in Hn.

Lemma bars_required_columns n :
  n ∈ Notions.required_columns → Notions.has_col Examples.bars n = true.
Proof. intros Hn. unfold Notions.required_columns in Hn. each_column Hn. Qed.

Lemma bars_dated : Forall Notions.dated (index Examples.bars).
Proof. repeat constructor; vm_compute; discriminate. Qed.

Lemma doubling_3_dated : Forall Notions.dated (index (Examples.doubling 3)).
Proof. repeat constructor; vm_compute; discriminate. Qed.

(** Storing AAPL leaves MSFT alone. *)
Lemma update_other_tickers_untouched_witness :
  "MSFT" ≠ "AAPL"
  ∧ let self' :=
      snd (fst (StockDatabase.update_ticker_data StockDatabase.init
                  {[ 0%nat := Examples.bars ]} "AAPL" 0%nat "yfinance")) in
    (∀ date, StockDatabase.stocks self' !! (date, "MSFT")
             = StockDatabase.stocks StockDatabase.init !! (date, "MSFT"))
    ∧ StockDatabase.metadata self' !! "MSFT"
      = StockDatabase.metadata StockDatabase.init !! "MSFT".
Proof.
  assert (H : "MSFT" ≠ "AAPL") by done.
  split; [exact H|].
  exact (update_other_tickers_untouched StockDatabase.init
           {[ 0%nat := Examples.bars ]} "AAPL" 0%nat "yfinance" "MSFT" H).
Defined.

(** The three sample bars, stored for AAPL. *)
Lemma update_succeeds_and_stamps_witness :
  Forall Notions.dated (index Examples.bars)
  ∧ ∃ d,
    last (index Examples.bars) = Some d
    ∧ fst (fst (StockDatabase.update_ticker_data StockDatabase.init
                  {[ 0%nat := Examples.bars ]} "AAPL" 0%nat "yfinance"))
      = Ok true
    ∧ StockDatabase.metadata
        (snd (fst (StockDatabase.update_ticker_data StockDatabase.init
                     {[ 0%nat := Examples.bars ]} "AAPL" 0%nat "yfinance")))
        !! "AAPL"
      = Some {| last_updated := Dt.strftime d; data_source := "yfinance" |}
    ∧ StockDatabase.lru
        (snd (fst (StockDatabase.update_ticker_data StockDatabase.init
                     {[ 0%nat := Examples.bars ]} "AAPL" 0%nat "yfinance")))
      = StockDatabase.lru StockDatabase.init.
Proof.
  split; [exact bars_dated|].
  apply (update_succeeds_and_stamps StockDatabase.init
           {[ 0%nat := Examples.bars ]} "AAPL" 0%nat "yfinance" Examples.bars).
  - reflexivity.
  - reflexivity.
  - exact bars_required_columns.
  - exact bars_dated.
Defined.

(** The last of the three sample bars. *)
Lemma update_stores_each_bar_witness :
  Forall Notions.dated (index Examples.bars)
  ∧ ∃ row df',
    StockDatabase.stocks
      (snd (fst (StockDatabase.update_ticker_data StockDatabase.init
                   {[ 0%nat := Examples.bars ]} "AAPL" 0%nat "yfinance")))
      !! (Dt.strftime (Examples.day 2024 1 5), "AAPL") = Some row
    ∧ snd (StockDatabase.update_ticker_data StockDatabase.init
             {[ 0%nat := Examples.bars ]} "AAPL" 0%nat "yfinance")
        !! 0%nat = Some df'
    ∧ ∀ name v, (name, v) ∈ Notions.row_cells row →
                ∃ x, Df.cell df' 2 name = Ok x ∧ Notions.same_number x v.
Proof.
  split; [exact bars_dated|].
  apply (update_stores_each_bar StockDatabase.init
           {[ 0%nat := Examples.bars ]} "AAPL" 0%nat "yfinance" Examples.bars
           2%nat (Examples.day 2024 1 5)).
  - reflexivity.
  - reflexivity.
  - exact bars_required_columns.
  - exact bars_dated.
  - reflexivity.
  - intros [|[|[|i']]] d' Hlt Hi'; try lia. discriminate Hi'.
Defined.

(** Doubling bars have no adjusted close. *)
Lemma update_missing_column_witness :
  Forall Notions.dated (index (Examples.doubling 3))
  ∧ ∃ c,
    StockDatabase.update_ticker_data StockDatabase.init
      {[ 0%nat := Examples.doubling 3 ]} "X" 0%nat "yfinance"
    = (Raise (KeyError "Adj Close"), StockDatabase.init,
       <[0%nat := StockDatabase.with_indicators (Examples.doubling 3) c]>
         {[ 0%nat := Examples.doubling 3 ]}).
Proof.
  split; [exact doubling_3_dated|].
  exists [1; 2; 4]%float.
  assert (H1 : ({[ 0%nat := Examples.doubling 3 ]} : gmap nat DataFrame)
               !! 0%nat = Some (Examples.doubling 3)) by reflexivity.
  assert (H2 : Df.empty (Examples.doubling 3) = false) by reflexivity.
  apply (proj2 (update_missing_column StockDatabase.init
                  {[ 0%nat := Examples.doubling 3 ]} "X" 0%nat "yfinance"
                  (Examples.doubling 3) H1 H2)).
  - vm_compute. reflexivity.
  - exact doubling_3_dated.
  - vm_compute. reflexivity.
Defined.

(** A first read on the sample store. *)
Lemma get_keeps_cache_in_order_witness :
  Notions.cache_ok (StockDatabase.lru Examples.store)
  ∧ Notions.cache_ok
      (StockDatabase.lru
         (snd (StockDatabase.get_ticker_last_updated Examples.store "AAPL"))).
Proof.
  assert (H : Notions.cache_ok (StockDatabase.lru Examples.store)).
  { split; [constructor|]. vm_compute. lia. }
  split; [exact H|].
  exact (proj1 (proj2 (proj2
           (get_keeps_cache_in_order Examples.store "AAPL" H)))).
Defined.

(** A second update of AAPL after its watermark was read. *)
Lemma watermark_pinned_across_updates_witness :
  fst (StockDatabase.get_ticker_last_updated Examples.store "AAPL")
    = Ok (Some (Examples.day 2024 1 5))
  ∧ fst (StockDatabase.get_ticker_last_updated
           (fst (Notions.update_all [("AAPL", 0%nat, "alpha_vantage")]
                   (snd (StockDatabase.get_ticker_last_updated
                           Examples.store "AAPL"),
                    {[ 0%nat := Examples.doubling 3 ]})))
           "AAPL")
    = Ok (Some (Examples.day 2024 1 5)).
Proof.
  assert (H : fst (StockDatabase.get_ticker_last_updated Examples.store "AAPL")
              = Ok (Some (Examples.day 2024 1 5)))
    by (vm_compute; reflexivity).
  split; [exact H|].
  exact (watermark_pinned_across_updates Examples.store
           {[ 0%nat := Examples.doubling 3 ]} "AAPL"
           [("AAPL", 0%nat, "alpha_vantage")] _ H).
Defined.

(** The first read after the three sample bars were stored. *)
Lemma first_read_after_update_witness :
  Forall Notions.dated (index Examples.bars)
  ∧ fst (StockDatabase.get_ticker_last_updated
         (snd (fst (StockDatabase.update_ticker_data StockDatabase.init
                      {[ 0%nat := Examples.bars ]} "AAPL" 0%nat "yfinance")))
         "AAPL")
    = Ok (Some (Dt.date (Examples.day 2024 1 5))).
Proof.
  split; [exact bars_dated|].
  apply (first_read_after_update StockDatabase.init
           {[ 0%nat := Examples.bars ]} "AAPL" 0%nat "yfinance" Examples.bars
           (Examples.day 2024 1 5)).
  - reflexivity.
  - reflexivity.
  - exact bars_required_columns.
  - exact bars_dated.
  - reflexivity.
  - reflexivity.
Defined.

(** AAPL asked for twice. *)
Lemma repeated_ticker_is_harmless_witness :
  "AAPL" ∈ ["MSFT"; "AAPL"]
  ∧ StockScreener.screen_stocks Examples.store (Examples.day 2024 1 10)
      (["MSFT"; "AAPL"] ++ "AAPL" :: ["X"]) 20 10 10 40 10 2
    = StockScreener.screen_stocks Examples.store (Examples.day 2024 1 10)
        (["MSFT"; "AAPL"] ++ ["X"]) 20 10 10 40 10 2.
Proof.
  assert (H : "AAPL" ∈ ["MSFT"; "AAPL"])
    by (apply list_elem_of_further, list_elem_of_here).
  split; [exact H|].
  exact (proj2 (repeated_ticker_is_harmless Examples.store
                  (Examples.day 2024 1 10) ["MSFT"; "AAPL"] ["X"] "AAPL"
                  20 10 10 40 10 2 H)).
Defined.

(** The rows found in the 70 doubling bars. *)
Lemma analyze_stock_rows_are_matches_witness :
  fst (StockScreener._analyze_stock "X" (Examples.doubling 70) 1 2
         10 40 100 2) = Some Examples.doubling_rows
  ∧ Examples.doubling_rows ≠ []
  ∧ ∀ row, row ∈ Examples.doubling_rows →
           StockScreener.Ticker row = "X"
           ∧ Notions.meets 10 40 100 2 row.
Proof.
  assert (H : fst (StockScreener._analyze_stock "X" (Examples.doubling 70) 1 2
                     10 40 100 2) = Some Examples.doubling_rows)
    by (vm_compute; reflexivity).
  split; [exact H|].
  pose proof (analyze_stock_rows_are_matches "X" (Examples.doubling 70) 1 2
                10 40 100 2 Examples.doubling_rows H) as (H1 & H2 & _).
  exact (conj H1 H2).
Defined.

(** The first row of a screening of the store that holds the doubling
    bars. *)
Lemma screen_stocks_rows_are_matches_witness :
  ∃ row,
    row ∈ Examples.screened
    ∧ StockScreener.Ticker row ∈ ["X"]
    ∧ Notions.meets 10 40 100 2 row.
Proof.
  destruct Examples.screened as [|row rest] eqn:E;
    [vm_compute in E; discriminate E|].
  assert (H : row ∈ fst (StockScreener.screen_stocks Examples.doubling_store
                           (Examples.day 2024 3 10) ["X"] 1 2 10 40 100 2)).
  { change (row ∈ Examples.screened). rewrite E. apply list_elem_of_here. }
  exists row. split; [apply list_elem_of_here|].
  pose proof (screen_stocks_rows_are_matches Examples.doubling_store
                (Examples.day 2024 3 10) ["X"] 1 2 10 40 100 2 row H)
    as (H1 & _ & H3).
  exact (conj H1 H3).
Defined.

(** Negative windows on the three sample bars. *)
Lemma analyze_stock_errors_are_logged_witness :
  (-20) + (-10) + 30 ≤ Df.len Examples.bars
  ∧ StockScreener._analyze_stock "AAPL" Examples.bars (-20) (-10) 10 40 10 2
    = (None, [(ERROR, "Error analyzing AAPL: window must be an integer 0 or greater")]).
Proof.
  assert (H : (-20) + (-10) + 30 ≤ Df.len Examples.bars)
    by (vm_compute; discriminate).
  split; [exact H|].
  apply (proj2 (analyze_stock_errors_are_logged "AAPL" Examples.bars
                  (-20) (-10) 10 40 10 2 H)).
  - vm_compute. reflexivity.
  - left. lia.
Defined.

(** Both sources down, three attempts, five seconds of delay. *)
Lemma fetch_data_never_sleeps_witness :
  ∃ res self',
    DataFetcher.fetch_data Examples.net_down (DataFetcher.init (Some "key"))
      "AAPL" None "2024-01-10" 3 5
    = (Ok res, self', []).
Proof.
  destruct (fetch_data_never_sleeps Examples.net_down
              (DataFetcher.init (Some "key")) "AAPL" None "2024-01-10" 3 5
              0 0 eq_refl eq_refl) as (res & self' & H & _).
  exists res, self'. exact H.
Defined.

(** The second source answers on the first attempt. *)
Lemma fetch_data_first_success_witness :
  DataFetcher.fetch_data Examples.net_second (DataFetcher.init (Some "key"))
    "AAPL" None "2024-01-10" 3 5
  = (Ok (Some (DataFetcher.rename Examples.av_bars), "alpha_vantage"),
     DataFetcher.with_stats (DataFetcher.init (Some "key"))
       (<["alpha_vantage" := 0 + 1]>
          (DataFetcher.source_stats (DataFetcher.init (Some "key")))),
     []).
Proof.
  assert (Hy : DataFetcher.source_stats (DataFetcher.init (Some "key"))
               !! "yfinance" = Some 0) by reflexivity.
  assert (Ha : DataFetcher.source_stats (DataFetcher.init (Some "key"))
               !! "alpha_vantage" = Some 0) by reflexivity.
  assert (Hlt : Z.of_nat 0 < 3) by lia.
  assert (Hnone : ∀ a', (a' < 0)%nat →
     DataFetcher.no_data (yf_download Examples.net_second "AAPL" None
                            "2024-01-10" a')
     ∧ ∀ key, DataFetcher.no_data
                (av_get_daily_adjusted Examples.net_second key "AAPL" a'))
    by (intros a' Hlt'; lia).
  apply (proj2 (fetch_data_first_success Examples.net_second
                  (DataFetcher.init (Some "key")) "AAPL" None "2024-01-10"
                  3 5 0 0 0%nat Hy Ha Hlt Hnone) "key" Examples.av_bars).
  - exact I.
  - reflexivity.
  - reflexivity.
  - vm_compute. reflexivity.
Defined.

(** One attempt: a provider that fails from the second attempt on is not
    told apart from one that always answers. *)
Lemma fetch_data_attempt_budget_witness :
  DataFetcher.fetch_data Examples.net_up (DataFetcher.init None)
    "AAPL" None "2024-01-10" 1 5
  = DataFetcher.fetch_data Examples.net_once (DataFetcher.init None)
      "AAPL" None "2024-01-10" 1 5.
Proof.
  apply (fetch_data_attempt_budget Examples.net_up Examples.net_once
           (DataFetcher.init None) "AAPL" None "2024-01-10" 1 5).
  intros [|a] Ha; [|lia]. split; reflexivity.
Defined.

(** The labels of [av_bars]. *)
Lemma rename_moves_provider_columns_witness :
  columns (DataFetcher.rename Examples.av_bars) !! "Close"
    = columns Examples.av_bars !! "4. close"
  ∧ columns (DataFetcher.rename Examples.av_bars) !! "4. close" = None.
Proof.
  assert (H : ∀ new, new ∈ (snd <$> DataFetcher.av_names) →
                     columns Examples.av_bars !! new = None).
  { intros new Hn. unfold DataFetcher.av_names in Hn.
    cbn [fmap list_fmap snd] in Hn. each_column Hn. }
  apply (proj1 (proj2 (rename_moves_provider_columns Examples.av_bars H))
           "4. close" "Close").
  unfold DataFetcher.av_names.
  repeat first [apply list_elem_of_here | apply list_elem_of_further].
Defined.

